(** * autofunc: function specs for function-calling LLMs

    A shallow embedding of the four source files of the repository

      - [util/text.py]     ([Module text]),
      - [util/methods.py]  ([Module methods]),
      - [toolspec.py]      ([Module toolspec]),
      - [spec.py]          ([Module spec]),

    followed by the properties proved about them.  Python values are
    modelled by a JSON-like type, exceptions by an error result, the
    logger and the mutable [ToolSpec] object by explicit state passing. *)

From Stdlib Require Import ZArith NArith Lia Bool Ascii String List.
From stdpp Require Import base tactics option list strings.

Set Warnings "-register-all".

Local Open Scope string_scope.
Local Open Scope list_scope.
Local Open Scope Z_scope.

(** ** Python values, exceptions and dictionaries *)

Module py.

(** The exceptions the modelled code can raise. *)
Inductive exn :=
| TypeError | KeyError | AttributeError | ValueError | IndexError
| StopIteration | SyntaxError | UnicodeDecodeError | ImportError | OSError.

(** The outcome of a Python call: a value, or a raised exception. *)
Inductive Res (A : Type) :=
| Ok (a : A)
| Raise (e : exn).
Arguments Ok {A} a.
Arguments Raise {A} e.

Definition bind {A B} (m : Res A) (k : A -> Res B) : Res B :=
  match m with
  | Ok a => k a
  | Raise e => Raise e
  end.

(** Calls that also read and write a state [S] (the log of the logger,
    the fields of an object).  A raised exception keeps the state reached
    so far: Python does not roll mutations back. *)
Definition ST (S A : Type) := S -> Res A * S.

Definition st_ret {S A} (a : A) : ST S A := fun s => (Ok a, s).
Definition st_raise {S A} (e : exn) : ST S A := fun s => (Raise e, s).
Definition st_lift {S A} (r : Res A) : ST S A := fun s => (r, s).
Definition st_bind {S A B} (m : ST S A) (k : A -> ST S B) : ST S B :=
  fun s => match m s with
           | (Ok a, s') => k a s'
           | (Raise e, s') => (Raise e, s')
           end.
Definition st_modify {S} (f : S -> S) : ST S unit := fun s => (Ok tt, f s).

(** Hashable values used as dictionary keys.  [True] and [1] are the same
    key in Python, so booleans are integer keys. *)
Inductive pykey :=
| KStr (s : string)
| KInt (z : Z)
| KNone.

#[global] Instance pykey_eq_dec : EqDecision pykey.
Proof. solve_decision. Defined.

(** JSON-like Python values.  A [dict] keeps insertion order, so it is an
    association list; the dictionary operations below keep keys unique.
    Numbers are integers: the code computes with none of them. *)
Inductive json :=
| JNull
| JBool (b : bool)
| JNum (z : Z)
| JStr (s : string)
| JList (l : list json)
| JDict (d : list (pykey * json)).

Definition dict := list (pykey * json).

(** [d.get(k)]: the value of the first (only) entry under [k]. *)
Fixpoint dict_get (k : pykey) (d : dict) : option json :=
  match d with
  | [] => None
  | (k', v) :: d' => if decide (k' = k) then Some v else dict_get k d'
  end.

(** [d[k] = v]: overwrite in place, or append a new last entry. *)
Fixpoint dict_set (k : pykey) (v : json) (d : dict) : dict :=
  match d with
  | [] => [(k, v)]
  | (k', v') :: d' =>
      if decide (k' = k) then (k, v) :: d' else (k', v') :: dict_set k v d'
  end.

(** [{**a, **b}]. *)
Definition dict_update (a b : dict) : dict :=
  fold_left (fun acc kv => dict_set kv.1 kv.2 acc) b a.

Definition dict_keys (d : dict) : list pykey := map fst d.

Definition key_to_json (k : pykey) : json :=
  match k with
  | KStr s => JStr s
  | KInt z => JNum z
  | KNone => JNull
  end.

(** [hash(v)] as a dictionary key; lists and dicts are unhashable. *)
Definition to_key (v : json) : Res pykey :=
  match v with
  | JStr s => Ok (KStr s)
  | JNum z => Ok (KInt z)
  | JBool b => Ok (KInt (if b then 1 else 0))
  | JNull => Ok KNone
  | JList _ | JDict _ => Raise TypeError
  end.

(** [not l] for a list [l]. *)
Definition is_nil {A} (l : list A) : bool :=
  match l with
  | [] => true
  | _ :: _ => false
  end.

(** [v == "s"] for a string literal [s]. *)
Definition eq_str (v : json) (s : string) : bool :=
  match v with
  | JStr s' => bool_decide (s' = s)
  | _ => false
  end.

(** [needle in hay] on strings. *)
Fixpoint str_contains (needle hay : string) : bool :=
  String.prefix needle hay ||
  match hay with
  | EmptyString => false
  | String _ hay' => str_contains needle hay'
  end.

Fixpoint str_chars (s : string) : list string :=
  match s with
  | EmptyString => []
  | String c s' => String c EmptyString :: str_chars s'
  end.

(** [obj[k]] with a string key [k]. *)
Definition getitem (v : json) (k : string) : Res json :=
  match v with
  | JDict d => match dict_get (KStr k) d with
               | Some x => Ok x
               | None => Raise KeyError
               end
  | _ => Raise TypeError
  end.

(** [obj.get(k, default)]; only a dict has the method. *)
Definition get (v : json) (k : string) (default : json) : Res json :=
  match v with
  | JDict d => Ok (match dict_get (KStr k) d with
                   | Some x => x
                   | None => default
                   end)
  | _ => Raise AttributeError
  end.

(** [for x in v]: a list yields its elements, a dict its keys, a string
    its characters; nothing else is iterable. *)
Definition iter (v : json) : Res (list json) :=
  match v with
  | JList l => Ok l
  | JDict d => Ok (map key_to_json (dict_keys d))
  | JStr s => Ok (map JStr (str_chars s))
  | _ => Raise TypeError
  end.

(** [obj.items()]; only a dict has the method. *)
Definition items (v : json) : Res dict :=
  match v with
  | JDict d => Ok d
  | _ => Raise AttributeError
  end.

Definition as_int (v : json) : option Z :=
  match v with
  | JNum z => Some z
  | JBool b => Some (if b then 1 else 0)
  | _ => None
  end.

(** [a + b]: list and string concatenation, integer addition. *)
Definition add (a b : json) : Res json :=
  match a, b with
  | JList x, JList y => Ok (JList (x ++ y))
  | JStr x, JStr y => Ok (JStr (x +:+ y))
  | _, _ => match as_int a, as_int b with
            | Some x, Some y => Ok (JNum (x + y))
            | _, _ => Raise TypeError
            end
  end.

(** ["k" in v]: key of a dict, element of a list, substring of a string. *)
Definition contains (k : string) (v : json) : Res bool :=
  match v with
  | JDict d => Ok (bool_decide (is_Some (dict_get (KStr k) d)))
  | JList l => Ok (existsb (fun x => eq_str x k) l)
  | JStr s => Ok (str_contains k s)
  | _ => Raise TypeError
  end.

(** Truth value of [v] in a condition or under [or]. *)
Definition truthy (v : json) : bool :=
  match v with
  | JNull => false
  | JBool b => b
  | JNum z => negb (z =? 0)
  | JStr s => negb (bool_decide (s = ""))
  | JList l => negb (is_nil l)
  | JDict d => negb (is_nil d)
  end.

Definition opt_str (o : option string) : json :=
  match o with
  | Some s => JStr s
  | None => JNull
  end.

End py.

Notation "x <- m ;; k" := (py.bind m (fun x => k))
  (at level 100, m at next level, right associativity).
Notation "x <~ m ;; k" := (py.st_bind m (fun x => k))
  (at level 100, m at next level, right associativity).

Coercion py.KStr : string >-> py.pykey.

(** ** util/text.py *)

Module text.
Import py.

(** Python strings are sequences of code points; a character of this model
    is a code point below 256.  The regular expressions of the source are
    Unicode-aware: [\w] is [str.isalnum] or an underscore and [\d] is a
    decimal digit.  Below 128 both classes are the ASCII ones; above, they
    are read from the Unicode tables, which the model takes as given, as it
    does the upper-case mapping of [str.upper] there. *)
Class Unicode := {
  isalnum_high : ascii -> bool;
  isdecimal_high : ascii -> bool;
  upper_high : ascii -> string
}.

Definition code (c : ascii) : N := N_of_ascii c.

Definition ascii_upper (c : ascii) : bool := ((65 <=? code c) && (code c <=? 90))%N.
Definition ascii_lower (c : ascii) : bool := ((97 <=? code c) && (code c <=? 122))%N.
Definition ascii_digit (c : ascii) : bool := ((48 <=? code c) && (code c <=? 57))%N.
Definition underscore : ascii := "_"%char.
Definition is_underscore (c : ascii) : bool := (code c =? 95)%N.

Section Regex.
Context `{Unicode}.

Definition isalnum (c : ascii) : bool :=
  if (code c <? 128)%N then ascii_upper c || ascii_lower c || ascii_digit c
  else isalnum_high c.

Definition isdecimal (c : ascii) : bool :=
  if (code c <? 128)%N then ascii_digit c else isdecimal_high c.

(** [\W]: not a word character. *)
Definition nonword (c : ascii) : bool := negb (isalnum c || is_underscore c).

(** [\d]. *)
Definition digit (c : ascii) : bool := isdecimal c.

(** Every match of [\W] replaced by an underscore. *)
Fixpoint sub_nonword (name : string) : string :=
  match name with
  | EmptyString => EmptyString
  | String c rest => String (if nonword c then underscore else c) (sub_nonword rest)
  end.

(** [re.sub(r"\W|^(?=\d)", "_", name)].  At position 0 the first
    alternative is tried first; when the first character is a word
    character and a digit, the second alternative matches the empty string
    there and an underscore is inserted ahead.  [^] matches nowhere else. *)
Definition re_sub (name : string) : string :=
  match name with
  | EmptyString => EmptyString
  | String c _ =>
      if negb (nonword c) && digit c then String underscore (sub_nonword name)
      else sub_nonword name
  end.

(** [re.match(r"^[A-Za-z_]", name)] as a truth value. *)
Definition re_match_start (name : string) : bool :=
  match name with
  | EmptyString => false
  | String c _ => ascii_upper c || ascii_lower c || is_underscore c
  end.

(** The body of [normalize_string] on a [str]. *)
Definition normalize_str (name : string) : string :=
  let name := re_sub name in
  if negb (re_match_start name) then String underscore name else name.

(** [normalize_string(name)]: [re.sub] raises [TypeError] on anything that
    is not a string. *)
Definition normalize_string (name : json) : Res json :=
  match name with
  | JStr s => Ok (JStr (normalize_str s))
  | _ => Raise TypeError
  end.

End Regex.
End text.

(** ** util/methods.py *)

Module methods.
Import py.

(** *** The syntax trees of the [ast] module

    An expression is seen through the two functions the code applies to it:
    [ast.dump], and [ast.literal_eval], which returns the value of a literal
    and raises on anything else: [ValueError] on a call or a name,
    [TypeError] on a display with an unhashable key such as [{[1]: 2}]. *)
Record expr := {
  expr_dump : string;
  expr_literal : Res json
}.

(** [ast.arg]. *)
Record arg := {
  arg_name : string;
  arg_annotation : option expr
}.

(** [ast.arguments].  [defaults] holds the defaults of the positional-only
    parameters and of [args] together, aligned with the end of the two lists
    taken as one; the code reads [posonlyargs] nowhere. *)
Record arguments := {
  posonlyargs : list arg;
  args : list arg;
  defaults : list expr;
  kwonlyargs : list arg;
  kw_defaults : list (option expr);
  vararg : option arg;
  kwarg : option arg
}.

(** Statements.  [FunctionDef] carries what [ast.get_docstring] returns for
    it.  Every node that is neither a class nor a function definition is an
    [Other] node with its children.  The expression children of a class or
    function definition (decorators, bases, argument nodes) hold no
    definition, and leaving them out does not change the order in which
    [ast.walk] yields the nodes kept. *)
Inductive node :=
| ClassDef (name : string) (body : list node)
| FunctionDef (name : string) (fargs : arguments) (docstring : option string)
    (body : list node)
| Other (children : list node).

(** [ast.iter_child_nodes]. *)
Definition child_nodes (n : node) : list node :=
  match n with
  | ClassDef _ body => body
  | FunctionDef _ _ _ body => body
  | Other children => children
  end.

Fixpoint size (n : node) : nat :=
  match n with
  | ClassDef _ body => S (list_sum (map size body))
  | FunctionDef _ _ _ body => S (list_sum (map size body))
  | Other children => S (list_sum (map size children))
  end.

(** The loop of [ast.walk]: pop the left end of the queue, push the children
    at the right end, yield the node. *)
Fixpoint walk_queue (fuel : nat) (todo : list node) : list node :=
  match fuel, todo with
  | S fuel', n :: todo' => n :: walk_queue fuel' (todo' ++ child_nodes n)
  | _, _ => []
  end.

(** [ast.walk(n)]: breadth first; the queue is empty after [size n] steps. *)
Definition walk (n : node) : list node := walk_queue (size n) [n].

(** *** FoundMethod *)

Record FoundMethod := mkFoundMethod {
  method_name : string;
  func_def : node;
  package_name : string;
  class_name : option string;
  doc_string : option string;
  parameters : json
}.

(** *** parse_function_arguments *)

Definition literal_eval (e : expr) : Res json := expr_literal e.

(** [ast.dump(a.annotation) if a.annotation else None]. *)
Definition annotation_dump (a : arg) : json :=
  match arg_annotation a with
  | Some e => JStr (expr_dump e)
  | None => JNull
  end.

Definition arg_info (default : json) (a : arg) : json :=
  JDict [(KStr "default", default); (KStr "annotation", annotation_dump a)].

(** The default of the positional argument at position [i].  The nodes of
    [arguments.args] are distinct objects, so [arguments.args.index(arg)]
    is the position of [arg]. *)
Definition positional_default (a : arguments) (i : nat) : Res json :=
  if is_nil (defaults a) then Ok JNull
  else
    let default_index := Z.of_nat (length (args a)) - Z.of_nat (length (defaults a)) in
    if Z.of_nat i >=? default_index then
      match defaults a !! Z.to_nat (Z.of_nat i - default_index) with
      | Some e => literal_eval e
      | None => Raise IndexError
      end
    else Ok JNull.

Fixpoint positional_loop (a : arguments) (i : nat) (todo : list arg)
    (args_info : dict) : Res dict :=
  match todo with
  | [] => Ok args_info
  | x :: todo' =>
      arg_default <- positional_default a i;;
      positional_loop a (S i) todo'
        (dict_set (KStr (arg_name x)) (arg_info arg_default x) args_info)
  end.

Definition keyword_default (a : arguments) (i : nat) : Res json :=
  if is_nil (kw_defaults a) then Ok JNull
  else
    match kw_defaults a !! i with
    | Some (Some e) => literal_eval e
    | Some None => Ok JNull
    | None => Raise IndexError
    end.

Fixpoint keyword_loop (a : arguments) (i : nat) (todo : list arg)
    (args_info : dict) : Res dict :=
  match todo with
  | [] => Ok args_info
  | x :: todo' =>
      kwarg_default <- keyword_default a i;;
      keyword_loop a (S i) todo'
        (dict_set (KStr (arg_name x)) (arg_info kwarg_default x) args_info)
  end.

Definition star_arg (o : option arg) (args_info : dict) : dict :=
  match o with
  | Some x => dict_set (KStr (arg_name x)) (arg_info JNull x) args_info
  | None => args_info
  end.

Definition parse_function_arguments (a : arguments) : Res json :=
  args_info <- positional_loop a 0 (args a) [];;
  args_info <- keyword_loop a 0 (kwonlyargs a) args_info;;
  Ok (JDict (star_arg (kwarg a) (star_arg (vararg a) args_info))).

(** *** The world outside: import machinery, file system, logger *)

(** [importlib.util.find_spec(name)], reduced to the field the code reads. *)
Record ModuleSpec := {
  submodule_search_locations : option (list string)
}.

Record World := {
  (** [importlib.util.find_spec]. *)
  find_spec : string -> Res (option ModuleSpec);
  (** [os.walk(path)], as the list of the triples it yields. *)
  os_walk : string -> list (string * list string * list string);
  (** Opening a file as UTF-8, reading it and [ast.parse] on the text. *)
  parse_file : string -> Res node;
  (** Importing a module, [inspect.getsource] and [ast.parse] on the text. *)
  parse_module : string -> Res node
}.

(** The records [logger.error] has emitted, oldest first. *)
Definition Log := list string.

Definition logger_error (msg : string) : ST Log unit :=
  st_modify (fun log => log ++ [msg]).

(** *** Small string functions *)

(** [s.rsplit(".", 1)] when [s] has a dot: the parts around the last one. *)
Fixpoint rsplit_dot (s : string) : option (string * string) :=
  match s with
  | EmptyString => None
  | String c s' =>
      match rsplit_dot s' with
      | Some (a, b) => Some (String c a, b)
      | None => if bool_decide (c = "."%char) then Some (EmptyString, s') else None
      end
  end.

Definition endswith (s suffix : string) : bool :=
  let n := String.length s in
  let k := String.length suffix in
  (k <=? n)%nat && bool_decide (substring (n - k) k s = suffix).

(** [os.path.join(root, file)] for a file name [file]. *)
Definition path_join (root file : string) : string :=
  if bool_decide (root = "") || endswith root "/" then root +:+ file
  else root +:+ "/" +:+ file.

(** *** The finders *)

(** The outcome of a loop body that may [return]. *)
Inductive flow (A : Type) :=
| Next (a : A)
| Return (a : A).
Arguments Next {A} a.
Arguments Return {A} a.

(** [len(methods) >= expected_num != -1]. *)
Definition limit_reached (methods : list FoundMethod) (expected_num : Z) : bool :=
  (Z.of_nat (length methods) >=? expected_num) && negb (expected_num =? -1).

(** [class_name and class_name != node.name]. *)
Definition other_class (class_name : option string) (node_name : string) : bool :=
  match class_name with
  | Some c => negb (bool_decide (c = "")) && negb (bool_decide (c = node_name))
  | None => false
  end.

(** [method_name in [item.name, "*"]]. *)
Definition name_matches (method_name item_name : string) : bool :=
  bool_decide (method_name = item_name) || bool_decide (method_name = "*").

(** [if module_name == "requests": module_name = "requests.api"]. *)
Definition requests_special_case (module_name : string) : string :=
  if bool_decide (module_name = "requests") then "requests.api" else module_name.

Section Finders.
Variable w : World.

Definition find_method_direct_loop (method_name_full module_name method_name : string)
    (expected_num : Z) : list node -> list FoundMethod -> Res (option (list FoundMethod)) :=
  fix loop (todo : list node) (methods : list FoundMethod) :=
    match todo with
    | [] => Ok None
    | FunctionDef name a doc body as n :: todo' =>
        if bool_decide (name = method_name) then
          params <- parse_function_arguments a;;
          let found_method :=
            mkFoundMethod method_name_full n module_name None doc params in
          let methods := methods ++ [found_method] in
          if Z.of_nat (length methods) >=? expected_num then Ok (Some methods)
          else loop todo' methods
        else loop todo' methods
    | _ :: todo' => loop todo' methods
    end.

(** [find_method_direct]: [None] stands for falling off the end of the
    function, which returns Python's [None]. *)
Definition find_method_direct (method_name_full : string) (expected_num : Z)
    : Res (option (list FoundMethod)) :=
  match rsplit_dot method_name_full with
  | None => Raise ValueError
  | Some (module_name, method_name) =>
      let module_name := requests_special_case module_name in
      parsed_content <- parse_module w module_name;;
      find_method_direct_loop method_name_full module_name method_name
        expected_num (walk parsed_content) []
  end.

Section InFile.
Variables (package_name method_name : string) (class_name : option string)
  (expected_num : Z).

(** [for item in node.body: ...] of [_find_methods_in_file]. *)
Fixpoint scan_body (node_name : string) (items : list node)
    (methods : list FoundMethod) : flow (list FoundMethod) :=
  match items with
  | [] => Next methods
  | item :: items' =>
      if other_class class_name node_name then scan_body node_name items' methods
      else
        match item with
        | FunctionDef name _ doc _ =>
            if name_matches method_name name then
              let methods :=
                methods ++
                [mkFoundMethod name item package_name (Some node_name) doc JNull] in
              if limit_reached methods expected_num then Return methods
              else scan_body node_name items' methods
            else scan_body node_name items' methods
        | _ => scan_body node_name items' methods
        end
  end.

(** [for node in ast.walk(parsed_content): ...]. *)
Fixpoint scan_nodes (nodes : list node) (methods : list FoundMethod)
    : list FoundMethod :=
  match nodes with
  | [] => methods
  | ClassDef name body :: nodes' =>
      match scan_body name body methods with
      | Return methods => methods
      | Next methods => scan_nodes nodes' methods
      end
  | _ :: nodes' => scan_nodes nodes' methods
  end.

(** [_find_methods_in_file]: the list of matches, or [None] after a parse
    failure, where the [except] clause ends in a bare [return]. *)
Definition _find_methods_in_file (file_path : string)
    : ST Log (option (list FoundMethod)) :=
  match parse_file w file_path with
  | Ok parsed_content => st_ret (Some (scan_nodes (walk parsed_content) []))
  | Raise SyntaxError | Raise UnicodeDecodeError =>
      _ <~ logger_error ("Error parsing file " +:+ file_path);;
      st_ret None
  | Raise e => st_raise e
  end.

(** [methods += r]: extending a list by [None] raises [TypeError]. *)
Definition iadd (methods : list FoundMethod) (r : option (list FoundMethod))
    : Res (list FoundMethod) :=
  match r with
  | Some l => Ok (methods ++ l)
  | None => Raise TypeError
  end.

(** [for file in files: ...] of [_find_methods_in_package]. *)
Fixpoint scan_files (root : string) (files : list string)
    (methods : list FoundMethod) : ST Log (flow (list FoundMethod)) :=
  match files with
  | [] => st_ret (Next methods)
  | file :: files' =>
      if endswith file ".py" then
        r <~ _find_methods_in_file (path_join root file);;
        methods <~ st_lift (iadd methods r);;
        if limit_reached methods expected_num then st_ret (Return methods)
        else scan_files root files' methods
      else scan_files root files' methods
  end.

(** [for root, _, files in os.walk(package_path): ...]. *)
Fixpoint scan_dirs (dirs : list (string * list string * list string))
    (methods : list FoundMethod) : ST Log (list FoundMethod) :=
  match dirs with
  | [] => st_ret methods
  | (root, _, files) :: dirs' =>
      r <~ scan_files root files methods;;
      match r with
      | Return methods => st_ret methods
      | Next methods => scan_dirs dirs' methods
      end
  end.

Definition _find_methods_in_package (package_path : string)
    : ST Log (list FoundMethod) :=
  scan_dirs (os_walk w package_path) [].

End InFile.

(** [package_spec.submodule_search_locations[0]]. *)
Definition first_location (package_spec : ModuleSpec) : Res string :=
  match submodule_search_locations package_spec with
  | None => Raise TypeError
  | Some [] => Raise IndexError
  | Some (package_path :: _) => Ok package_path
  end.

(** [for package_name in package_names: ...] of [find_method_in_packages]. *)
Fixpoint scan_packages (method_name : string) (class_name : option string)
    (expected_num : Z) (package_names : list string) (methods : list FoundMethod)
    : ST Log (flow (list FoundMethod)) :=
  match package_names with
  | [] => st_ret (Next methods)
  | package_name :: package_names' =>
      package_spec <~ st_lift (find_spec w package_name);;
      match package_spec with
      | None =>
          _ <~ logger_error ("Package " +:+ package_name +:+ " not found");;
          scan_packages method_name class_name expected_num package_names' methods
      | Some package_spec =>
          package_path <~ st_lift (first_location package_spec);;
          found <~ _find_methods_in_package package_name method_name class_name
                     expected_num package_path;;
          let methods := methods ++ found in
          if limit_reached methods expected_num then st_ret (Return methods)
          else scan_packages method_name class_name expected_num package_names' methods
      end
  end.

Definition find_method_in_packages (package_names : list string)
    (method_name : string) (class_name : option string) (expected_num : Z)
    : ST Log (list FoundMethod) :=
  r <~ scan_packages method_name class_name expected_num package_names [];;
  match r with
  | Return methods => st_ret methods
  | Next methods =>
      if is_nil methods then
        _ <~ logger_error ("Error: Method " +:+ method_name
                            +:+ " cannot be located in known packages.");;
        st_ret methods
      else st_ret methods
  end.

End Finders.
End methods.

(** ** toolspec.py *)

Module toolspec.
Import py.

(** What the collaborator [docstring_parser.parse] returns, reduced to the
    attributes the code reads. *)
Module docstring_parser.

Record DocstringParam := {
  arg_name : string;
  type_name : option string;
  description : option string;
  is_optional : option bool
}.

Record Docstring := {
  long_description : option string;
  params : list DocstringParam
}.

End docstring_parser.
Import docstring_parser.

(** The fields of a [ToolSpec] object.  [param_props] is annotated [dict]
    and only ever assigned one; the other fields receive whatever the input
    holds. *)
Record ToolSpec := mkToolSpec {
  name : json;
  description : json;
  param_props : dict;
  param_required : json
}.

(** [ToolSpec(name, description, param_props, param_required)]. *)
Definition __init__ (name description : json) (param_props : dict)
    (param_required : json) : ToolSpec :=
  mkToolSpec (if truthy name then name else JStr "")
    (if truthy description then description else JStr "")
    param_props
    (if truthy param_required then param_required else JList []).

(** [ToolSpec()]. *)
Definition empty : ToolSpec := __init__ JNull JNull [] JNull.

Definition set_name (v : json) : ST ToolSpec unit :=
  st_modify (fun self =>
    mkToolSpec v (description self) (param_props self) (param_required self)).

Definition set_description (v : json) : ST ToolSpec unit :=
  st_modify (fun self =>
    mkToolSpec (name self) v (param_props self) (param_required self)).

(** [self.param_props[k] = v]. *)
Definition set_param (k : pykey) (v : json) : ST ToolSpec unit :=
  st_modify (fun self =>
    mkToolSpec (name self) (description self) (dict_set k v (param_props self))
      (param_required self)).

Definition set_required (v : json) : ST ToolSpec unit :=
  st_modify (fun self =>
    mkToolSpec (name self) (description self) (param_props self) v).

(** [self.param_required.append(x)]; only a list has the method. *)
Definition append_required (x : json) : ST ToolSpec unit :=
  fun self =>
    match param_required self with
    | JList l => set_required (JList (l ++ [x])) self
    | _ => (Raise AttributeError, self)
    end.

(** [not param.is_optional and "optional" not in param.description]:
    the membership test is reached only when the flag is false or [None],
    and raises [TypeError] on a description that is [None]. *)
Definition is_required (param : DocstringParam) : Res bool :=
  match is_optional param with
  | Some true => Ok false
  | _ =>
      match docstring_parser.description param with
      | Some d => Ok (negb (str_contains "optional" d))
      | None => Raise TypeError
      end
  end.

Definition docstring_param_obj (param : DocstringParam) : json :=
  JDict [(KStr "type", opt_str (type_name param));
         (KStr "description", opt_str (docstring_parser.description param))].

(** [for param in doc_dict.params: ...]. *)
Fixpoint docstring_params_loop (todo : list DocstringParam) : ST ToolSpec unit :=
  match todo with
  | [] => st_ret tt
  | param :: todo' =>
      _ <~ set_param (KStr (arg_name param)) (docstring_param_obj param);;
      required <~ st_lift (is_required param);;
      _ <~ (if required then append_required (JStr (arg_name param))
            else st_ret tt);;
      docstring_params_loop todo'
  end.

Section Populate.
(** The collaborator [docstring_parser.parse]. *)
Variable parse : option string -> Res Docstring.

Definition create_from_docstring (name : string) (docstring : option string)
    : ST ToolSpec unit :=
  _ <~ set_name (JStr name);;
  doc_dict <~ st_lift (parse docstring);;
  _ <~ set_description (opt_str (long_description doc_dict));;
  docstring_params_loop (params doc_dict).

End Populate.

(** [if "type" in function_spec.keys() and function_spec["type"] ==
    "function": function_spec = function_spec["function"]]. *)
Definition unwrap_function (function_spec : json) : Res json :=
  keys <- items function_spec;;
  match dict_get (KStr "type") keys with
  | Some t => if eq_str t "function" then getitem function_spec "function"
              else Ok function_spec
  | None => Ok function_spec
  end.

Definition schema_param_obj (param_details : json) : Res json :=
  type <- get param_details "type" (JStr "string");;
  description <- get param_details "description" (JStr "");;
  Ok (JDict [(KStr "type", type); (KStr "description", description)]).

(** [for param_name, param_details in param_props.items(): ...]. *)
Fixpoint schema_params_loop (todo : dict) : ST ToolSpec unit :=
  match todo with
  | [] => st_ret tt
  | (param_name, param_details) :: todo' =>
      param_obj <~ st_lift (schema_param_obj param_details);;
      _ <~ set_param param_name param_obj;;
      schema_params_loop todo'
  end.

Definition create_from_schema_json (function_spec : json) : ST ToolSpec unit :=
  function_spec <~ st_lift (unwrap_function function_spec);;
  name <~ st_lift (get function_spec "name" (JStr ""));;
  _ <~ set_name name;;
  description <~ st_lift (get function_spec "description" (JStr ""));;
  _ <~ set_description description;;
  params <~ st_lift (get function_spec "parameters" (JDict []));;
  param_props <~ st_lift (get params "properties" params);;
  todo <~ st_lift (items param_props);;
  _ <~ schema_params_loop todo;;
  required <~ st_lift (get params "required" (JList []));;
  set_required required.

(** [get_spec_dict(function_tag)]. *)
Definition get_spec_dict (function_tag : bool) (self : ToolSpec) : json :=
  let spec :=
    JDict [(KStr "name", name self);
           (KStr "description", description self);
           (KStr "parameters",
            JDict [(KStr "type", JStr "object");
                   (KStr "properties", JDict (param_props self));
                   (KStr "required", param_required self)])] in
  if function_tag then JDict [(KStr "type", JStr "function"); (KStr "function", spec)]
  else spec.

End toolspec.

(** ** spec.py *)

Module spec.
Import py.

Section Converter.
Context `{text.Unicode}.
(** [str(v)] for a value [v] that is not a string, as an f-string uses it. *)
Variable str_of : json -> string.
(** The collaborator [jsonref.replace_refs]. *)
Variable replace_refs : json -> json.

(** A replacement field [{v}] of an f-string. *)
Definition format (v : json) : string :=
  match v with
  | JStr s => s
  | _ => str_of v
  end.

Definition upper_char (c : ascii) : string :=
  if (text.code c <? 128)%N then
    String (if text.ascii_lower c then ascii_of_N (text.code c - 32) else c) EmptyString
  else text.upper_high c.

Fixpoint upper_str (s : string) : string :=
  match s with
  | EmptyString => EmptyString
  | String c s' => upper_char c +:+ upper_str s'
  end.

(** [method.upper()]; only a string has the method. *)
Definition upper (method : pykey) : Res string :=
  match method with
  | KStr s => Ok (upper_str s)
  | _ => Raise AttributeError
  end.

(** [k not in ["name", "in", "schema"]]. *)
Definition extra_field (kv : pykey * json) : bool :=
  negb (bool_decide (kv.1 = KStr "name") || bool_decide (kv.1 = KStr "in")
        || bool_decide (kv.1 = KStr "schema")).

(** The schema of one parameter:
    [{**(param.get("schema") if "schema" in param else {"type":
    param["type"]}), **{k: v for k, v in param.items() if k not in ["name",
    "in", "schema"]}}].  Unpacking with [**] needs a mapping. *)
Definition param_schema (param : json) : Res json :=
  has_schema <- contains "schema" param;;
  base <- (if has_schema then get param "schema" JNull
           else (type <- getitem param "type";; Ok (JDict [(KStr "type", type)])));;
  match base with
  | JDict base =>
      extra <- items param;;
      Ok (JDict (dict_update base (List.filter extra_field extra)))
  | _ => Raise TypeError
  end.

(** [{param["name"]: ... for param in ... if param["in"] == location}]. *)
Fixpoint params_in (location : string) (todo : list json) (acc : dict)
    : Res dict :=
  match todo with
  | [] => Ok acc
  | param :: todo' =>
      where_ <- getitem param "in";;
      if eq_str where_ location then
        name <- getitem param "name";;
        schema <- param_schema param;;
        key <- to_key name;;
        params_in location todo' (dict_set key schema acc)
      else params_in location todo' acc
  end.

(** [params_common_list + spec.get("parameters", [])], iterated. *)
Definition all_params (params_common_list spec : json) : Res (list json) :=
  own <- get spec "parameters" (JList []);;
  both <- add params_common_list own;;
  iter both.

(** The [data] entry.  The attribute [content.get] is looked up before its
    argument [next(iter(content))] is evaluated. *)
Definition request_body_data (spec : json) : Res json :=
  has_body <- contains "requestBody" spec;;
  if has_body then
    request_body <- get spec "requestBody" JNull;;
    content <- get request_body "content" JNull;;
    entries <- items content;;
    match entries with
    | [] => Raise StopIteration
    | (media_type, _) :: _ =>
        media <- Ok (default JNull (dict_get media_type entries));;
        schema <- get media "schema" JNull;;
        get schema "properties" JNull
    end
  else Ok (JDict []).

(** The body of the inner loop for one operation: the key and the function
    spec stored under it. *)
Definition operation (servers_urls : list json) (path : pykey)
    (params_common_list : json) (method : pykey) (spec_with_ref : json)
    : Res (pykey * json) :=
  let spec := replace_refs spec_with_ref in
  operation_id <- get spec "operationId" JNull;;
  operation_id <- text.normalize_string operation_id;;
  operation_id <- to_key operation_id;;
  let name := "requests." +:+ format (key_to_json method) in
  method_upper <- upper method;;
  summary <- get spec "summary" (JStr "");;
  description <- get spec "description" (JStr "");;
  let enum := map (fun url => JStr (format url +:+ format (key_to_json path)))
                servers_urls in
  header_params <- all_params params_common_list spec;;
  headers <- params_in "header" header_params [];;
  query_params <- all_params params_common_list spec;;
  params <- params_in "query" query_params [];;
  data <- request_body_data spec;;
  Ok (operation_id,
      JDict [
        (KStr "name", JStr name);
        (KStr "description",
         JStr ("Sends a " +:+ method_upper +:+ " request to the specified URL."));
        (KStr "parameters", JDict [
          (KStr "type", JStr "dict");
          (KStr "properties", JDict [
            (KStr "url", JDict [
              (KStr "type", JStr "string");
              (KStr "description",
               JStr (format summary +:+ ". " +:+ format description));
              (KStr "enum", JList enum);
              (KStr "required", JBool true)]);
            (KStr "headers", JDict headers);
            (KStr "timeout", JDict [
              (KStr "type", JList [JStr "number"; JStr "tuple"]);
              (KStr "description",
               JStr "How many seconds to wait for the server to send data before giving up.");
              (KStr "required", JBool false)]);
            (KStr "params", JDict params);
            (KStr "data", data)])])]).

(** [for method, spec_with_ref in path_methods.items(): ...]. *)
Fixpoint methods_loop (servers_urls : list json) (path : pykey) (todo : dict)
    (params_common_list : json) (functions : dict) : Res dict :=
  match todo with
  | [] => Ok functions
  | (method, spec_with_ref) :: todo' =>
      if bool_decide (method = KStr "parameters") then
        methods_loop servers_urls path todo' spec_with_ref functions
      else
        entry <- operation servers_urls path params_common_list method spec_with_ref;;
        methods_loop servers_urls path todo' params_common_list
          (dict_set entry.1 entry.2 functions)
  end.

(** [for path, path_methods in openapi_spec["paths"].items(): ...]. *)
Fixpoint paths_loop (servers_urls : list json) (todo : dict) (functions : dict)
    : Res dict :=
  match todo with
  | [] => Ok functions
  | (path, path_methods) :: todo' =>
      entries <- items path_methods;;
      functions <- methods_loop servers_urls path entries (JList []) functions;;
      paths_loop servers_urls todo' functions
  end.

(** [[s["url"] for s in ...]]. *)
Fixpoint server_urls (servers : list json) : Res (list json) :=
  match servers with
  | [] => Ok []
  | s :: servers' =>
      url <- getitem s "url";;
      urls <- server_urls servers';;
      Ok (url :: urls)
  end.

Definition openapi_to_requests (openapi_spec : json) : Res dict :=
  servers <- getitem openapi_spec "servers";;
  servers <- iter servers;;
  servers_urls <- server_urls servers;;
  paths <- getitem openapi_spec "paths";;
  paths <- items paths;;
  paths_loop servers_urls paths [].

End Converter.

(** *** modules_to_spec *)

Section Modules.
Variable w : methods.World.
(** The collaborator [docstring_parser.parse]. *)
Variable parse : option string -> Res toolspec.docstring_parser.Docstring.

(** [method_name[0] == '_' or method_name in ["new_instance"]]; indexing an
    empty name raises [IndexError]. *)
Definition internal_method (method_name : string) : Res bool :=
  match method_name with
  | EmptyString => Raise IndexError
  | String c _ =>
      Ok (bool_decide (c = "_"%char) || bool_decide (method_name = "new_instance"))
  end.

(** [for method in found: ...]: a fresh [ToolSpec] per method, populated from
    the docstring and read back with [get_spec_dict()]. *)
Fixpoint methods_to_functions (found : list methods.FoundMethod)
    (functions : dict) : Res dict :=
  match found with
  | [] => Ok functions
  | method :: found' =>
      let method_name := methods.method_name method in
      internal <- internal_method method_name;;
      if internal then methods_to_functions found' functions
      else
        match toolspec.create_from_docstring parse method_name
                (methods.doc_string method) toolspec.empty with
        | (Ok _, spec) =>
            methods_to_functions found'
              (dict_set (KStr method_name) (toolspec.get_spec_dict false spec)
                 functions)
        | (Raise e, _) => Raise e
        end
  end.

(** [modules_to_spec]: the dict of function specs, or [None] when no method
    is found.  Only the records of [logger.error] are kept in the log. *)
Definition modules_to_spec (module_name : string) (class_name : option string)
    : ST methods.Log json :=
  found <~ methods.find_method_in_packages w [module_name] "*" class_name (-1);;
  if is_nil found then
    _ <~ methods.logger_error
           ("Failed to find methods in [" +:+ module_name +:+ "]");;
    st_ret JNull
  else
    functions <~ st_lift (methods_to_functions found []);;
    st_ret (JDict functions).

End Modules.

(** *** write_specs *)

(** What [write_specs] asks of the file system, in order. *)
Inductive fs_event :=
| Makedirs (path : string)
| WriteFile (path content : string).

Definition Trace := list fs_event.

Definition emit (e : fs_event) : ST Trace unit :=
  st_modify (fun trace => trace ++ [e]).

Section Writer.
(** [str(v)] for a value [v] that is not a string. *)
Variable str_of : json -> string.
(** [json.dumps(function, indent=4)]. *)
Variable dumps : json -> string.

(** [for function_name, function in functions.items(): ...]. *)
Fixpoint write_loop (todo : dict) (fname_base dest_dir : string) : ST Trace unit :=
  match todo with
  | [] => st_ret tt
  | (function_name, function) :: todo' =>
      let fname := format str_of (key_to_json function_name) +:+ ".json" in
      _ <~ emit (Makedirs (dest_dir +:+ "/" +:+ fname_base));;
      _ <~ emit (WriteFile (dest_dir +:+ "/" +:+ fname_base +:+ "/" +:+ fname)
                   (dumps function));;
      write_loop todo' fname_base dest_dir
  end.

(** [write_specs(functions, fname_base, dest_dir)], on a file system that
    accepts the writes. *)
Definition write_specs (functions : json) (fname_base dest_dir : string)
    : ST Trace unit :=
  todo <~ st_lift (items functions);;
  write_loop todo fname_base dest_dir.

End Writer.

(** *** main, after the arguments are parsed *)

(** The namespace [parser.parse_args()] returns. *)
Record Args := {
  verbose : Z;
  dest_dir : string;
  source_file : option string;
  python_module : option string
}.

(** A step on the log alone, and a step on the file system alone. *)
Definition on_log {A} (m : ST methods.Log A) : ST (methods.Log * Trace) A :=
  fun s => let (r, log) := m s.1 in (r, (log, s.2)).

Definition on_files {A} (m : ST Trace A) : ST (methods.Log * Trace) A :=
  fun s => let (r, trace) := m s.2 in (r, (s.1, trace)).

(** [if args.x:] for an option of the command line. *)
Definition given (o : option string) : option string :=
  match o with
  | Some s => if bool_decide (s = "") then None else Some s
  | None => None
  end.

Section Main.
Context `{text.Unicode}.
Variables (str_of : json -> string) (replace_refs : json -> json).
Variable w : methods.World.
Variable parse : option string -> Res toolspec.docstring_parser.Docstring.
Variable dumps : json -> string.
(** Opening the source file and [jsonref.loads] on its text. *)
Variable load_openapi : string -> Res json.
(** [Path(p).stem]. *)
Variable path_stem : string -> string.

Definition main_openapi (args : Args) : ST (methods.Log * Trace) unit :=
  match given (source_file args) with
  | Some file =>
      openapi_spec <~ st_lift (load_openapi file);;
      functions <~ st_lift (openapi_to_requests str_of replace_refs openapi_spec);;
      on_files (write_specs str_of dumps (JDict functions) (path_stem file)
                  (dest_dir args))
  | None => st_ret tt
  end.

Definition main_module (args : Args) : ST (methods.Log * Trace) unit :=
  match given (python_module args) with
  | Some module_class =>
      let (module_name, class_name) :=
        match methods.rsplit_dot module_class with
        | Some (module_name, class_name) => (module_name, Some class_name)
        | None => (module_class, None)
        end in
      functions <~ on_log (modules_to_spec w parse module_name class_name);;
      on_files (write_specs str_of dumps functions module_name (dest_dir args))
  | None => st_ret tt
  end.

(** The body of [main] below [args = parser.parse_args()]; the set-up of the
    logging handlers has no effect on the values computed. *)
Definition main (args : Args) : ST (methods.Log * Trace) unit :=
  _ <~ main_openapi args;;
  main_module args.

End Main.
End spec.

(** * Vocabulary of the statements, and example inputs *)

Module examples.
Import py methods.

(** A definition of the function [method_name], as [find_method_direct]
    tests it. *)
Definition is_def_of (method_name : string) (n : node) : bool :=
  match n with
  | FunctionDef name _ _ _ => bool_decide (name = method_name)
  | _ => false
  end.



Definition no_arguments : arguments :=
  {| posonlyargs := []; args := []; defaults := []; kwonlyargs := [];
     kw_defaults := [];
     vararg := None; kwarg := None |}.

Definition def (name : string) : node := FunctionDef name no_arguments None [].

(** [shapes.py]: one class with one method. *)
Definition shapes_py : node := Other [ClassDef "Square" [def "area"]].

(** [circles.py]: one class with two methods. *)
Definition circles_py : node :=
  Other [ClassDef "Circle" [def "area"; def "perimeter"]].

Definition pkg_spec : ModuleSpec :=
  {| submodule_search_locations := Some ["/site/pkg"] |}.

(** A package [pkg] of three files, the second of which does not parse. *)
Definition broken_world : World :=
  {| find_spec name :=
       if bool_decide (name = "pkg") then Ok (Some pkg_spec) else Ok None;
     os_walk path :=
       if bool_decide (path = "/site/pkg")
       then [("/site/pkg", [], ["shapes.py"; "broken.py"; "circles.py"])]
       else [];
     parse_file path :=
       if bool_decide (path = "/site/pkg/shapes.py") then Ok shapes_py
       else if bool_decide (path = "/site/pkg/broken.py") then Raise SyntaxError
       else if bool_decide (path = "/site/pkg/circles.py") then Ok circles_py
       else Raise OSError;
     parse_module _ := Raise ImportError |}.

(** A package [pkg] of two files that parse. *)
Definition two_files_world : World :=
  {| find_spec name :=
       if bool_decide (name = "pkg") then Ok (Some pkg_spec) else Ok None;
     os_walk path :=
       if bool_decide (path = "/site/pkg")
       then [("/site/pkg", [], ["shapes.py"; "circles.py"])]
       else [];
     parse_file path :=
       if bool_decide (path = "/site/pkg/shapes.py") then Ok shapes_py
       else if bool_decide (path = "/site/pkg/circles.py") then Ok circles_py
       else Raise OSError;
     parse_module name :=
       if bool_decide (name = "pkg.circles") then Ok circles_py
       else Raise ImportError |}.

End examples.

Module toolspec_words.
Import py toolspec toolspec.docstring_parser.

(** The parameter is marked optional by the parser. *)
Definition marked_optional (p : DocstringParam) : bool :=
  match is_optional p with
  | Some true => true
  | _ => false
  end.

(** The literal substring "optional" appears in the description text. *)
Definition says_optional (p : DocstringParam) : bool :=
  match docstring_parser.description p with
  | Some d => str_contains "optional" d
  | None => false
  end.

(** Required unless marked optional or described as optional. *)
Definition listed_required (p : DocstringParam) : bool :=
  negb (marked_optional p || says_optional p).

(** The description is a text wherever the code looks into it. *)
Definition described (p : DocstringParam) : Prop :=
  marked_optional p = true \/ exists d, docstring_parser.description p = Some d.

(** The name of a declared parameter, as a key of [param_props]. *)
Definition param_key (p : DocstringParam) : pykey := KStr (arg_name p).

(** The [parameters] entry of a function spec, after the [function] envelope
    is removed, with [{}] when the entry is absent. *)
Definition schema_parameters (function_spec : json) : Res json :=
  function_spec <- unwrap_function function_spec;;
  get function_spec "parameters" (JDict []).

(** The entries read as parameters: those of [parameters.properties], or of
    [parameters] itself without a [properties] entry. *)
Definition schema_properties (function_spec : json) : Res dict :=
  params <- schema_parameters function_spec;;
  param_props <- get params "properties" params;;
  items param_props.

(** [parameters.required], with [[]] when the entry is absent. *)
Definition schema_required (function_spec : json) : Res json :=
  params <- schema_parameters function_spec;;
  get params "required" (JList []).

Definition is_dict (v : json) : Prop := exists d, v = JDict d.

(** The object recorded for a parameter: its type, "string" when missing,
    and its description, "" when missing. *)
Definition defaulted_param_obj (param_details : json) : json :=
  match param_details with
  | JDict d =>
      JDict [(KStr "type", default (JStr "string") (dict_get (KStr "type") d));
             (KStr "description",
              default (JStr "") (dict_get (KStr "description") d))]
  | _ => JNull
  end.

(** [{"type": "function", "function": {"name": "f", "parameters": {"a":
    {"type": "int"}}}}]. *)
Definition spec_without_properties : json :=
  JDict [(KStr "type", JStr "function");
         (KStr "function",
          JDict [(KStr "name", JStr "f");
                 (KStr "parameters",
                  JDict [(KStr "a", JDict [(KStr "type", JStr "int")])])])].

(** [{"name": "f", "parameters": {"a": {"type": "int"}, "required":
    ["a"]}}]: no [properties] layer, and a [required] list. *)
Definition spec_required_beside_params : json :=
  JDict [(KStr "name", JStr "f");
         (KStr "parameters",
          JDict [(KStr "a", JDict [(KStr "type", JStr "int")]);
                 (KStr "required", JList [JStr "a"])])].

(** Three declared parameters: [path], neither marked nor described as
    optional; [mode], described as optional; [retries], marked optional by
    the parser. *)
Definition path_param : DocstringParam :=
  {| arg_name := "path"; type_name := Some "str";
     docstring_parser.description := Some "The file to open.";
     is_optional := Some false |}.

Definition mode_param : DocstringParam :=
  {| arg_name := "mode"; type_name := Some "str";
     docstring_parser.description := Some "The mode, optional.";
     is_optional := None |}.

Definition retries_param : DocstringParam :=
  {| arg_name := "retries"; type_name := Some "int";
     docstring_parser.description := Some "How often to retry.";
     is_optional := Some true |}.

(** The parsed docstring of a function [open] that declares them. *)
Definition open_docstring : Docstring :=
  {| long_description := Some "Open a file.";
     params := [path_param; mode_param; retries_param] |}.

(** A [ToolSpec] populated before: one parameter [x], which is required. *)
Definition populated : ToolSpec :=
  mkToolSpec (JStr "g") (JStr "")
    [(KStr "x", JDict [(KStr "type", JStr "int"); (KStr "description", JStr "")])]
    (JList [JStr "x"]).

End toolspec_words.

Module spec_words.
Import py spec.

(** The tables for text that holds ASCII characters only, as the examples
    do: the entries above 127 are not consulted on it. *)
Definition ascii_tables : text.Unicode :=
  {| text.isalnum_high := fun _ => false;
     text.isdecimal_high := fun _ => false;
     text.upper_high := fun c => String c EmptyString |}.

(** [str] of a value that is not a string, for documents whose formatted
    fields are all strings: it is not consulted on them. *)
Definition no_str (v : json) : string := "".

(** [jsonref.replace_refs] on a document without references. *)
Definition no_refs (v : json) : json := v.

(** [[s["url"] for s in openapi_spec["servers"]]]. *)
Definition declared_servers (openapi_spec : json) : Res (list json) :=
  servers <- getitem openapi_spec "servers";;
  servers <- iter servers;;
  server_urls servers.

(** [openapi_spec["paths"].items()]. *)
Definition declared_paths (openapi_spec : json) : Res dict :=
  paths <- getitem openapi_spec "paths";;
  items paths.

(** [v[k1][k2]...] through nested dicts. *)
Fixpoint at_path (keys : list string) (v : json) : option json :=
  match keys with
  | [] => Some v
  | k :: keys' =>
      match v with
      | JDict d => match dict_get (KStr k) d with
                   | Some x => at_path keys' x
                   | None => None
                   end
      | _ => None
      end
  end.

(** [parameters.properties.url.enum] of a function spec. *)
Definition url_enum (function : json) : option json :=
  at_path ["parameters"; "properties"; "url"; "enum"] function.

(** Every server URL followed by the path template, in the order of the
    servers; a value that is not a string enters as an f-string renders it. *)
Definition cross_product (str_of : json -> string) (servers_urls : list json)
    (path : pykey) : json :=
  JList (map (fun url => JStr (format str_of url +:+ format str_of (key_to_json path)))
           servers_urls).

Definition get_item_operation : json :=
  JDict [(KStr "operationId", JStr "get item");
         (KStr "parameters",
          JList [JDict [(KStr "name", JStr "X-Key"); (KStr "in", JStr "header");
                        (KStr "type", JStr "string")]])].

(** One server, one path, one GET operation with a header parameter. *)
Definition items_doc : json :=
  JDict [(KStr "servers", JList [JDict [(KStr "url", JStr "https://api.example.com")]]);
         (KStr "paths",
          JDict [(KStr "/items/{id}", JDict [(KStr "get", get_item_operation)])])].

(** The function spec expected for that operation. *)
Definition get_item_function : json :=
  JDict [
    (KStr "name", JStr "requests.get");
    (KStr "description", JStr "Sends a GET request to the specified URL.");
    (KStr "parameters", JDict [
      (KStr "type", JStr "dict");
      (KStr "properties", JDict [
        (KStr "url", JDict [
          (KStr "type", JStr "string");
          (KStr "description", JStr ". ");
          (KStr "enum", JList [JStr "https://api.example.com/items/{id}"]);
          (KStr "required", JBool true)]);
        (KStr "headers", JDict [(KStr "X-Key", JDict [(KStr "type", JStr "string")])]);
        (KStr "timeout", JDict [
          (KStr "type", JList [JStr "number"; JStr "tuple"]);
          (KStr "description",
           JStr "How many seconds to wait for the server to send data before giving up.");
          (KStr "required", JBool false)]);
        (KStr "params", JDict []);
        (KStr "data", JDict [])])])].

(** An operation object without [operationId]. *)
Definition delete_operation : dict := [(KStr "summary", JStr "Remove")].

(** The same document with a second operation that has no [operationId]. *)
Definition doc_missing_operation_id : json :=
  JDict [(KStr "servers", JList [JDict [(KStr "url", JStr "https://api.example.com")]]);
         (KStr "paths",
          JDict [(KStr "/items/{id}",
                  JDict [(KStr "get", get_item_operation);
                         (KStr "delete", JDict delete_operation)])])].

(** An operation whose request body declares no media type. *)
Definition put_empty_body_operation : dict :=
  [(KStr "operationId", JStr "put item");
   (KStr "requestBody", JDict [(KStr "content", JDict [])])].

(** The same document with a second operation whose request body has an
    empty [content] map. *)
Definition doc_empty_content : json :=
  JDict [(KStr "servers", JList [JDict [(KStr "url", JStr "https://api.example.com")]]);
         (KStr "paths",
          JDict [(KStr "/items/{id}",
                  JDict [(KStr "get", get_item_operation);
                         (KStr "put", JDict put_empty_body_operation)])])].

End spec_words.

Module text_words.
Import py text.

Section Words.
Context `{Unicode}.

(** A string that can stand as an identifier or a file name: it starts with
    an ASCII letter or an underscore and holds word characters only. *)
Definition identifier_safe (s : string) : Prop :=
  re_match_start s = true
  /\ Forall (fun c => nonword c = false) (list_ascii_of_string s).

End Words.
End text_words.

Module methods_words.
Import py methods.

(** An expression that [ast.literal_eval] accepts. *)
Definition literal (e : expr) : Prop := exists v, expr_literal e = Ok v.

Definition literal_value (e : expr) : json :=
  match expr_literal e with
  | Ok v => v
  | Raise _ => JNull
  end.

(** The default paired with the positional argument at position [i]: the
    defaults are aligned with the end of the arguments, the last default
    going to the last argument; an argument too far ahead has none. *)
Definition paired_default (a : arguments) (i : nat) : json :=
  match reverse (defaults a) !! (length (args a) - 1 - i)%nat with
  | Some e => literal_value e
  | None => JNull
  end.

(** The default of the keyword-only argument at position [i]. *)
Definition keyword_paired_default (a : arguments) (i : nat) : json :=
  match kw_defaults a !! i with
  | Some (Some e) => literal_value e
  | _ => JNull
  end.

Definition star_entry (o : option arg) : dict :=
  match o with
  | Some x => [(KStr (arg_name x), arg_info JNull x)]
  | None => []
  end.

(** One entry per argument of [args], of [kwonlyargs], for [*args] and for
    [**kwargs]; the positional-only parameters have none. *)
Definition argument_entries (a : arguments) : dict :=
  imap (fun i x => (KStr (arg_name x), arg_info (paired_default a i) x)) (args a)
  ++ imap (fun i x => (KStr (arg_name x), arg_info (keyword_paired_default a i) x))
       (kwonlyargs a)
  ++ star_entry (vararg a) ++ star_entry (kwarg a).

Definition constant (dump : string) (v : json) : expr :=
  {| expr_dump := dump; expr_literal := Ok v |}.

(** [def f(p=1, /, a=5, b: int = 2, *rest, key=None, **options)]. *)
Definition sample_arguments : arguments :=
  {| posonlyargs := [ {| arg_name := "p"; arg_annotation := None |} ];
     args := [ {| arg_name := "a"; arg_annotation := None |};
               {| arg_name := "b";
                  arg_annotation := Some {| expr_dump := "Name(id='int')";
                                            expr_literal := Raise ValueError |} |} ];
     defaults := [ constant "Constant(value=1)" (JNum 1);
                   constant "Constant(value=5)" (JNum 5);
                   constant "Constant(value=2)" (JNum 2) ];
     kwonlyargs := [ {| arg_name := "key"; arg_annotation := None |} ];
     kw_defaults := [ Some (constant "Constant(value=None)" JNull) ];
     vararg := Some {| arg_name := "rest"; arg_annotation := None |};
     kwarg := Some {| arg_name := "options"; arg_annotation := None |} |}.

(** [os.getcwd()]: a call, on which [ast.literal_eval] raises
    [ValueError]. *)
Definition call_default : expr :=
  {| expr_dump := "Call(func=Attribute(...))"; expr_literal := Raise ValueError |}.

(** [{[1]: 2}]: a display with an unhashable key, on which
    [ast.literal_eval] raises [TypeError]. *)
Definition unhashable_default : expr :=
  {| expr_dump := "Dict(keys=[List(...)], values=[Constant(value=2)])";
     expr_literal := Raise TypeError |}.

(** [def f(a, b=os.getcwd())]. *)
Definition call_default_arguments : arguments :=
  {| posonlyargs := [];
     args := [ {| arg_name := "a"; arg_annotation := None |};
               {| arg_name := "b"; arg_annotation := None |} ];
     defaults := [call_default];
     kwonlyargs := []; kw_defaults := []; vararg := None; kwarg := None |}.

(** [def f(a={[1]: 2}, b=os.getcwd())]. *)
Definition unhashable_default_arguments : arguments :=
  {| posonlyargs := [];
     args := [ {| arg_name := "a"; arg_annotation := None |};
               {| arg_name := "b"; arg_annotation := None |} ];
     defaults := [unhashable_default; call_default];
     kwonlyargs := []; kw_defaults := []; vararg := None; kwarg := None |}.

(** A module [tools] whose source holds [def cwd(a, b=os.getcwd())]. *)
Definition tools_py : node :=
  Other [FunctionDef "cwd" call_default_arguments None []].

(** A module [requests.api] whose source holds [def get()]; a package
    [requests] whose own source is not available. *)
Definition requests_api_py : node :=
  Other [FunctionDef "get" examples.no_arguments (Some "Sends a GET request.") []].

Definition modules_world : World :=
  {| find_spec _ := Ok None;
     os_walk _ := [];
     parse_file _ := Raise OSError;
     parse_module name :=
       if bool_decide (name = "tools") then Ok tools_py
       else if bool_decide (name = "requests.api") then Ok requests_api_py
       else Raise ImportError |}.

End methods_words.

Module finder_words.
Import py methods.

Section Matches.
Variables (w : World) (method_name : string) (class_name : option string).

(** The methods of one class body that pass the filters, top to bottom. *)
Definition body_methods (package_name node_name : string) (items : list node)
    : list FoundMethod :=
  if other_class class_name node_name then []
  else
    flat_map (fun item =>
                match item with
                | FunctionDef name _ doc _ =>
                    if name_matches method_name name
                    then [mkFoundMethod name item package_name (Some node_name)
                            doc JNull]
                    else []
                | _ => []
                end) items.

Definition class_methods (package_name : string) (n : node) : list FoundMethod :=
  match n with
  | ClassDef name body => body_methods package_name name body
  | _ => []
  end.

(** All matches of a parsed file, in the order of [ast.walk]. *)
Definition file_methods (package_name : string) (parsed_content : node)
    : list FoundMethod :=
  flat_map (class_methods package_name) (walk parsed_content).

(** All matches of one directory entry: nothing for a file that is not a
    [.py] file. *)
Definition source_methods (package_name root file : string) : list FoundMethod :=
  if endswith file ".py" then
    match parse_file w (path_join root file) with
    | Ok parsed_content => file_methods package_name parsed_content
    | Raise _ => []
    end
  else [].

(** All matches under a package path, in the order of [os.walk]. *)
Definition package_methods (package_name package_path : string)
    : list FoundMethod :=
  flat_map (fun d => flat_map (source_methods package_name d.1.1) d.2)
    (os_walk w package_path).

(** All matches of a package, nothing for a package that is not installed. *)
Definition installed_methods (package_name : string) : list FoundMethod :=
  match find_spec w package_name with
  | Ok (Some package_spec) =>
      match first_location package_spec with
      | Ok package_path => package_methods package_name package_path
      | Raise _ => []
      end
  | _ => []
  end.

(** All matches of the packages, in discovery order. *)
Definition all_methods (package_names : list string) : list FoundMethod :=
  flat_map installed_methods package_names.

(** Every [.py] file under the path parses. *)
Definition sources_parse (package_path : string) : Prop :=
  forall root dirs files file,
    In (root, dirs, files) (os_walk w package_path) ->
    In file files ->
    endswith file ".py" = true ->
    exists parsed_content, parse_file w (path_join root file) = Ok parsed_content.

(** The package is not installed, or it has a source root whose files
    parse. *)
Definition package_readable (package_name : string) : Prop :=
  find_spec w package_name = Ok None
  \/ exists package_spec package_path,
       find_spec w package_name = Ok (Some package_spec)
       /\ first_location package_spec = Ok package_path
       /\ sources_parse package_path.

(** [l] extends [methods] by a prefix of [full], cut where the limit was
    reached. *)
Definition cut_short (expected_num : Z) (methods full l : list FoundMethod) : Prop :=
  exists found rest,
    l = methods ++ found /\ full = found ++ rest
    /\ limit_reached l expected_num = true.

End Matches.

(** An entry of [find_method_direct] for the definition [method_name] of
    the module [module_name]. *)
Definition direct_entry (method_name_full module_name method_name : string)
    (m : FoundMethod) : Prop :=
  methods.method_name m = method_name_full
  /\ package_name m = module_name
  /\ methods.class_name m = None
  /\ match func_def m with
     | FunctionDef name a doc _ =>
         name = method_name /\ doc_string m = doc
         /\ parse_function_arguments a = Ok (parameters m)
     | _ => False
     end.

Definition no_dot (s : string) : Prop :=
  Forall (fun c => c <> "."%char) (list_ascii_of_string s).

End finder_words.

Module finder_entries.
Import py methods.

(** An entry as [_find_methods_in_file] builds it: a function definition
    that is a direct child of a class, both passing the filters. *)
Definition scanned_entry (method_name : string) (class_name : option string)
    (package_name : string) (m : FoundMethod) : Prop :=
  methods.package_name m = package_name
  /\ parameters m = JNull
  /\ name_matches method_name (methods.method_name m) = true
  /\ exists node_name a body,
       methods.class_name m = Some node_name
       /\ other_class class_name node_name = false
       /\ func_def m = FunctionDef (methods.method_name m) a (doc_string m) body.

(** The record logged for a package that is not installed. *)
Definition not_found (package_name : string) : string :=
  "Package " +:+ package_name +:+ " not found".

(** The record logged when nothing is found. *)
Definition not_located (method_name : string) : string :=
  "Error: Method " +:+ method_name +:+ " cannot be located in known packages.".

(** No package is installed. *)
Definition empty_world : World :=
  {| find_spec _ := Ok None;
     os_walk _ := [];
     parse_file _ := Raise OSError;
     parse_module _ := Raise ImportError |}.

End finder_entries.

Module toolspec_more.
Import py toolspec toolspec.docstring_parser toolspec_words.

(** A recorded parameter object: a type and a description, in this order. *)
Definition param_obj_shape (v : json) : Prop :=
  exists type description,
    v = JDict [(KStr "type", type); (KStr "description", description)].

(** A docstring parameter without description text. *)
Definition bare_param : DocstringParam :=
  {| arg_name := "flag"; type_name := Some "bool";
     docstring_parser.description := None; is_optional := Some false |}.

Definition bare_docstring : Docstring :=
  {| long_description := None; params := [path_param; bare_param; mode_param] |}.

(** [{"name": "f", "description": "d", "parameters": {"type": "object",
    "properties": {"a": {"type": "int"}, "b": {}}, "required": ["a"]}}]. *)
Definition spec_with_properties : json :=
  JDict [(KStr "name", JStr "f"); (KStr "description", JStr "d");
         (KStr "parameters",
          JDict [(KStr "type", JStr "object");
                 (KStr "properties",
                  JDict [(KStr "a", JDict [(KStr "type", JStr "int")]);
                         (KStr "b", JDict [])]);
                 (KStr "required", JList [JStr "a"])])].

(** [{"name": "f", "parameters": {"properties": {"a": {}, "b": "int",
    "c": {}}}}]: the entry of [b] is a string, not a mapping. *)
Definition spec_with_string_entry : json :=
  JDict [(KStr "name", JStr "f");
         (KStr "parameters",
          JDict [(KStr "properties",
                  JDict [(KStr "a", JDict []); (KStr "b", JStr "int");
                         (KStr "c", JDict [])])])].

End toolspec_more.

Module spec_more.
Import py spec spec_words.

Section Words.
Context `{text.Unicode}.


(** A key of the output map: a string that is safe as a file name. *)
Definition safe_key (entry : pykey * json) : Prop :=
  exists s, entry.1 = KStr s /\ text_words.identifier_safe s.


(** The parameter is located in [location] and goes under the key [key]. *)
Definition located (location : string) (key : pykey) (param : json) : Prop :=
  exists where_ name,
    getitem param "in" = Ok where_ /\ eq_str where_ location = true
    /\ getitem param "name" = Ok name /\ to_key name = Ok key.

End Words.

(** A header [X-Key] declared for the whole path, as an integer. *)
Definition shared_key_param : json :=
  JDict [(KStr "name", JStr "X-Key"); (KStr "in", JStr "header");
         (KStr "type", JStr "integer")].

(** The same header declared by the operation, as a string with a
    description. *)
Definition own_key_param : json :=
  JDict [(KStr "name", JStr "X-Key"); (KStr "in", JStr "header");
         (KStr "schema", JDict [(KStr "type", JStr "string")]);
         (KStr "description", JStr "The API key.")].

(** Two operations with the same [operationId] after normalisation. *)
Definition doc_same_ids : json :=
  JDict [(KStr "servers", JList [JDict [(KStr "url", JStr "https://api.example.com")]]);
         (KStr "paths",
          JDict [(KStr "/items",
                  JDict [(KStr "get", JDict [(KStr "operationId", JStr "list items")]);
                         (KStr "post", JDict [(KStr "operationId", JStr "list-items")])])])].

End spec_more.

Module pipeline_words.
Import py spec spec_words.

(** A function spec of [modules_to_spec]: stored under the name of a method
    that is not internal, and carrying that name. *)
Definition module_entry (entry : pykey * json) : Prop :=
  exists method_name,
    entry.1 = KStr method_name
    /\ internal_method method_name = Ok false
    /\ at_path ["name"] entry.2 = Some (JStr method_name)
    /\ at_path ["parameters"; "type"] entry.2 = Some (JStr "object").



Section Events.
Context `{text.Unicode}.


End Events.

(** A docstring parser that finds no parameter. *)
Definition plain_parse (docstring : option string)
    : Res toolspec.docstring_parser.Docstring :=
  Ok {| toolspec.docstring_parser.long_description := docstring;
        toolspec.docstring_parser.params := [] |}.


(** [-p pkg.Circle -d out]. *)
Definition circle_args : Args :=
  {| verbose := 0; dest_dir := "out"; source_file := None;
     python_module := Some "pkg.Circle" |}.



End pipeline_words.

Module direct_words.
Import py methods examples.

(** [find_method_direct] on [method_name_full] reads the module [read], and
    no other: a failure to read it is the failure of the call, the result
    depends on the world through the content of that module only, and the
    entries of a returned list are definitions of [method_name] found in
    that content, recorded with the package name [read]. *)
Definition reads_module (w : World) (method_name_full : string) (expected_num : Z)
    (read method_name : string) : Prop :=
  (forall e, parse_module w read = Raise e ->
             find_method_direct w method_name_full expected_num = Raise e)
  /\ (forall w', parse_module w' read = parse_module w read ->
                 find_method_direct w' method_name_full expected_num
                 = find_method_direct w method_name_full expected_num)
  /\ (forall l, find_method_direct w method_name_full expected_num = Ok (Some l) ->
        exists parsed_content,
          parse_module w read = Ok parsed_content
          /\ Forall (fun m => package_name m = read
                              /\ In (func_def m) (walk parsed_content)
                              /\ is_def_of method_name (func_def m) = true) l).

End direct_words.

Module spec_declared.
Import py spec spec_words.

(** A GET operation that declares the header [X-Key] itself. *)
Definition own_key_operation : json :=
  JDict [(KStr "operationId", JStr "get item");
         (KStr "parameters", JList [spec_more.own_key_param])].

(** Two paths with one GET operation each. *)
Definition two_paths_doc : json :=
  JDict [(KStr "servers",
          JList [JDict [(KStr "url", JStr "https://a.example.com")];
                 JDict [(KStr "url", JStr "https://b.example.com")]]);
         (KStr "paths",
          JDict [(KStr "/items",
                  JDict [(KStr "get", JDict [(KStr "operationId", JStr "list items")])]);
                 (KStr "/users",
                  JDict [(KStr "get", JDict [(KStr "operationId", JStr "list users")])])])].

(** The function spec of the GET operation of [two_paths_doc] under the
    path [path]. *)
Definition listing_function (path : string) : json :=
  JDict [
    (KStr "name", JStr "requests.get");
    (KStr "description", JStr "Sends a GET request to the specified URL.");
    (KStr "parameters", JDict [
      (KStr "type", JStr "dict");
      (KStr "properties", JDict [
        (KStr "url", JDict [
          (KStr "type", JStr "string");
          (KStr "description", JStr ". ");
          (KStr "enum", JList [JStr ("https://a.example.com" +:+ path);
                               JStr ("https://b.example.com" +:+ path)]);
          (KStr "required", JBool true)]);
        (KStr "headers", JDict []);
        (KStr "timeout", JDict [
          (KStr "type", JList [JStr "number"; JStr "tuple"]);
          (KStr "description",
           JStr "How many seconds to wait for the server to send data before giving up.");
          (KStr "required", JBool false)]);
        (KStr "params", JDict []);
        (KStr "data", JDict [])])])].

Section Declared.
Context `{text.Unicode}.
Variables (str_of : json -> string) (replace_refs : json -> json).

(** The entry is what [operation] returns for an operation that the
    document declares under [path]. *)
Definition declared_under (servers_urls : list json) (all_paths : dict)
    (path : pykey) (entry : pykey * json) : Prop :=
  exists path_methods entries method spec_with_ref params_common_list,
    In (path, path_methods) all_paths
    /\ items path_methods = Ok entries
    /\ In (method, spec_with_ref) entries
    /\ method <> KStr "parameters"
    /\ operation str_of replace_refs servers_urls path params_common_list method
         spec_with_ref = Ok entry.

(** The results of [operation] for the operations of one path, in the order
    of the path's entries. *)
Fixpoint methods_entries (servers_urls : list json) (path : pykey) (todo : dict)
    (params_common_list : json) : Res dict :=
  match todo with
  | [] => Ok []
  | (method, spec_with_ref) :: todo' =>
      if bool_decide (method = KStr "parameters") then
        methods_entries servers_urls path todo' spec_with_ref
      else
        entry <- operation str_of replace_refs servers_urls path params_common_list
                   method spec_with_ref;;
        rest <- methods_entries servers_urls path todo' params_common_list;;
        Ok (entry :: rest)
  end.

(** The results of [operation] for all the operations of the document, in
    the order of the document. *)
Fixpoint paths_entries (servers_urls : list json) (todo : dict) : Res dict :=
  match todo with
  | [] => Ok []
  | (path, path_methods) :: todo' =>
      entries <- items path_methods;;
      first <- methods_entries servers_urls path entries (JList []);;
      rest <- paths_entries servers_urls todo';;
      Ok (first ++ rest)
  end.

Definition openapi_entries (openapi_spec : json) : Res dict :=
  servers_urls <- declared_servers openapi_spec;;
  paths <- declared_paths openapi_spec;;
  paths_entries servers_urls paths.

End Declared.
End spec_declared.

(** * Properties *)

(** ** util/text.py *)

Section TextFacts.
Import py text.
Context `{Unicode}.

Lemma start_char_word (c : ascii) :
  ascii_upper c || ascii_lower c || is_underscore c = true ->
  nonword c = false /\ digit c = false.
Proof.
  destruct c as [[] [] [] [] [] [] [] []]; vm_compute; intros Hc;
    first [discriminate Hc | split; reflexivity].
Qed.

Lemma nonword_underscore : nonword underscore = false.
Proof. reflexivity. Qed.

Lemma nonword_sub_char (c : ascii) :
  nonword (if nonword c then underscore else c) = false.
Proof. destruct (nonword c) eqn:E; [apply nonword_underscore | exact E]. Qed.

Lemma sub_nonword_idem (s : string) : sub_nonword (sub_nonword s) = sub_nonword s.
Proof.
  induction s as [|c s IH]; simpl; [reflexivity|].
  rewrite nonword_sub_char, IH. reflexivity.
Qed.

Lemma sub_nonword_cons_underscore (s : string) :
  sub_nonword s = s -> sub_nonword (String underscore s) = String underscore s.
Proof.
  intros E. cbn [sub_nonword]. rewrite nonword_underscore, E. reflexivity.
Qed.

Lemma re_sub_fix (s : string) : sub_nonword (re_sub s) = re_sub s.
Proof.
  destruct s as [|c s]; [reflexivity|]. unfold re_sub.
  destruct (negb (nonword c) && digit c).
  - apply sub_nonword_cons_underscore, sub_nonword_idem.
  - apply sub_nonword_idem.
Qed.

Lemma normalize_str_fix (s : string) :
  sub_nonword (normalize_str s) = normalize_str s.
Proof.
  unfold normalize_str. destruct (negb (re_match_start (re_sub s))).
  - apply sub_nonword_cons_underscore, re_sub_fix.
  - apply re_sub_fix.
Qed.

Lemma normalize_str_start (s : string) :
  re_match_start (normalize_str s) = true.
Proof.
  unfold normalize_str.
  destruct (re_match_start (re_sub s)) eqn:E; simpl; [exact E | reflexivity].
Qed.

(** A string that starts with an ASCII letter or an underscore and has no
    non-word character is left alone by [normalize_str]. *)
Lemma normalize_str_id (r : string) :
  re_match_start r = true -> sub_nonword r = r -> normalize_str r = r.
Proof.
  intros Hstart Hfix. unfold normalize_str.
  assert (re_sub r = r) as ->.
  { destruct r as [|c r]; [reflexivity|]. unfold re_sub.
    destruct (start_char_word c Hstart) as [-> ->]. exact Hfix. }
  rewrite Hstart. reflexivity.
Qed.

(** C4. Normalisation is idempotent: on every string [s], the empty one
    included, [normalize_string] returns a string, and applying
    [normalize_string] to that result returns it unchanged, so
    [normalize_string(normalize_string(s)) == normalize_string(s)]. *)
Theorem normalize_string_idempotent (s : string) :
  (r <- normalize_string (JStr s);; normalize_string r)
    = normalize_string (JStr s)
  /\ exists r, normalize_string (JStr s) = Ok (JStr r)
             /\ normalize_string (JStr r) = Ok (JStr r).
Proof.
  assert (normalize_str (normalize_str s) = normalize_str s) as E
    by (apply normalize_str_id; [apply normalize_str_start | apply normalize_str_fix]).
  split.
  - simpl. rewrite E. reflexivity.
  - exists (normalize_str s). simpl. rewrite E. split; reflexivity.
Qed.

End TextFacts.

(** On ASCII text: a blank becomes an underscore, a leading digit gets an
    underscore ahead, the empty string becomes a single underscore. *)
Lemma normalize_string_examples :
  text.normalize_string (H := spec_words.ascii_tables) (py.JStr "get item")
  = py.Ok (py.JStr "get_item")
  /\ text.normalize_string (H := spec_words.ascii_tables) (py.JStr "9 lives!")
     = py.Ok (py.JStr "_9_lives_")
  /\ text.normalize_string (H := spec_words.ascii_tables) (py.JStr "")
     = py.Ok (py.JStr "_")
  /\ text.normalize_string (H := spec_words.ascii_tables) py.JNull
     = py.Raise py.TypeError.
Proof. repeat split; reflexivity. Qed.

(** ** util/methods.py *)

Section MethodsFacts.
Import py methods examples.

Lemma size_child_nodes (n : node) :
  size n = S (list_sum (map size (child_nodes n))).
Proof. destruct n; reflexivity. Qed.

(** The queue of [ast.walk] is empty once every node has been yielded:
    fuel beyond the number of nodes changes nothing. *)
Lemma walk_queue_length (fuel : nat) (todo : list node) :
  (list_sum (map size todo) <= fuel)%nat ->
  length (walk_queue fuel todo) = list_sum (map size todo).
Proof.
  revert todo. induction fuel as [|fuel IH]; intros todo Hle.
  - destruct todo as [|n todo]; [reflexivity|].
    simpl in Hle. rewrite size_child_nodes in Hle. lia.
  - destruct todo as [|n todo]; [reflexivity|]. simpl.
    rewrite IH.
    + rewrite map_app, list_sum_app, (size_child_nodes n). lia.
    + simpl in Hle. rewrite (size_child_nodes n) in Hle.
      rewrite map_app, list_sum_app. lia.
Qed.

Lemma walk_length (n : node) : length (walk n) = size n.
Proof.
  unfold walk. rewrite walk_queue_length; simpl; lia.
Qed.

(** *** find_method_direct *)

Section DirectLoop.
Variables (method_name_full module_name method_name : string) (expected_num : Z).

Local Abbreviation loop :=
  (find_method_direct_loop method_name_full module_name method_name expected_num).




End DirectLoop.




(** *** find_method_in_packages *)

(** A source file that does not parse is logged, and the [None] its scan
    returns makes [methods += ...] raise [TypeError] in the scan of the
    package. *)
Lemma scan_files_parse_failure (w : World) (package_name method_name : string)
    (class_name : option string) (expected_num : Z) (root file : string)
    (files : list string) (methods : list FoundMethod) (log : Log) (e : exn) :
  endswith file ".py" = true ->
  parse_file w (path_join root file) = Raise e ->
  e = SyntaxError \/ e = UnicodeDecodeError ->
  scan_files w package_name method_name class_name expected_num root
    (file :: files) methods log
  = (Raise TypeError, log ++ ["Error parsing file " +:+ path_join root file]).
Proof.
  intros Hpy Hparse He. simpl. rewrite Hpy.
  unfold st_bind, _find_methods_in_file. rewrite Hparse.
  destruct He as [-> | ->]; reflexivity.
Qed.

(** C1 (the code departs from the claim). The package [pkg] holds
    [shapes.py], [broken.py] and [circles.py]; [broken.py] does not parse.
    Scanning it for every method without a limit logs the parse failure and
    then raises [TypeError]: the matches of [shapes.py] are lost and
    [circles.py] is never read. *)
Theorem find_method_in_packages_parse_failure_raises :
  find_method_in_packages broken_world ["pkg"] "*" None (-1) []
  = (Raise TypeError, ["Error parsing file /site/pkg/broken.py"]).
Proof. vm_compute. reflexivity. Qed.

(** C2 (the code departs from the claim). With [expected_num = 2] and a
    package whose first file holds one match and whose second file holds
    two, three entries are returned: every file is scanned with the whole
    limit, not with what is left of it. *)
Theorem find_method_in_packages_exceeds_limit :
  exists methods,
    find_method_in_packages two_files_world ["pkg"] "*" None 2 [] = (Ok methods, [])
    /\ map method_name methods = ["area"; "area"; "perimeter"]
    /\ length methods = 3%nat.
Proof. eexists. repeat split; vm_compute; reflexivity. Qed.

Section Limit.
Variables (w : World) (method_name : string) (class_name : option string)
  (expected_num : Z).
Hypothesis limit_positive : 1 <= expected_num.

Lemma limit_reached_spec (methods : list FoundMethod) :
  limit_reached methods expected_num = true
  <-> expected_num <= Z.of_nat (length methods).
Proof.
  unfold limit_reached. rewrite andb_true_iff, negb_true_iff, Z.eqb_neq.
  destruct (Z.geb_spec (Z.of_nat (length methods)) expected_num) as [Hge|Hlt].
  - split; [intros _; exact Hge | intros _; split; [reflexivity | lia]].
  - split; [intros [Hf _]; discriminate Hf | lia].
Qed.

Lemma scan_body_bound (package_name node_name : string) (items : list node)
    (methods : list FoundMethod) :
  Z.of_nat (length methods) < expected_num ->
  match scan_body package_name method_name class_name expected_num node_name
          items methods with
  | Next l => Z.of_nat (length l) < expected_num
  | Return l => Z.of_nat (length l) <= expected_num
  end.
Proof.
  revert methods. induction items as [|item items IH]; intros methods Hlt.
  - exact Hlt.
  - simpl. destruct (other_class class_name node_name); [apply IH, Hlt|].
    destruct item as [name body|name a doc body|children]; try (apply IH, Hlt).
    destruct (name_matches method_name name); [|apply IH, Hlt].
    destruct (limit_reached _ expected_num) eqn:Hlim.
    + rewrite length_app. simpl. lia.
    + apply IH. destruct (Z.lt_ge_cases (Z.of_nat (length (methods ++
        [mkFoundMethod name (FunctionDef name a doc body) package_name
           (Some node_name) doc JNull]))) expected_num) as [Hs|Hs]; [exact Hs|].
      apply limit_reached_spec in Hs. congruence.
Qed.

Lemma scan_nodes_bound (package_name : string) (nodes : list node)
    (methods : list FoundMethod) :
  Z.of_nat (length methods) < expected_num ->
  Z.of_nat (length (scan_nodes package_name method_name class_name expected_num
                      nodes methods)) <= expected_num.
Proof.
  revert methods. induction nodes as [|n nodes IH]; intros methods Hlt.
  - simpl. lia.
  - destruct n as [name body|name a doc body|children]; simpl;
      try (apply IH, Hlt).
    pose proof (scan_body_bound package_name name body methods Hlt) as Hb.
    destruct (scan_body _ _ _ _ _ _ _); [apply IH, Hb | exact Hb].
Qed.

Lemma _find_methods_in_file_bound (package_name file_path : string)
    (log log' : Log) (l : list FoundMethod) :
  _find_methods_in_file w package_name method_name class_name expected_num
    file_path log = (Ok (Some l), log') ->
  Z.of_nat (length l) <= expected_num.
Proof.
  unfold _find_methods_in_file.
  destruct (parse_file w file_path) as [parsed|[]]; intros Hr;
    try discriminate Hr.
  inversion Hr; subst. apply scan_nodes_bound. simpl. lia.
Qed.

Lemma scan_files_bound (package_name root : string) (files : list string)
    (methods : list FoundMethod) (log log' : Log)
    (r : flow (list FoundMethod)) :
  Z.of_nat (length methods) < expected_num ->
  scan_files w package_name method_name class_name expected_num root files
    methods log = (Ok r, log') ->
  match r with
  | Next l => Z.of_nat (length l) < expected_num
  | Return l => Z.of_nat (length l) <= 2 * expected_num - 1
  end.
Proof.
  revert methods log. induction files as [|file files IH]; intros methods log Hlt Hr.
  - inversion Hr; subst. exact Hlt.
  - simpl in Hr. destruct (endswith file ".py"); [|eapply IH; eassumption].
    unfold st_bind in Hr.
    destruct (_find_methods_in_file _ _ _ _ _ _ log) as [[[l|]|e] log1] eqn:Hfile;
      try discriminate Hr.
    apply _find_methods_in_file_bound in Hfile. simpl in Hr.
    destruct (limit_reached (methods ++ l) expected_num) eqn:Hlim.
    + inversion Hr; subst. rewrite length_app. lia.
    + eapply IH; [|exact Hr].
      destruct (Z.lt_ge_cases (Z.of_nat (length (methods ++ l))) expected_num)
        as [Hs|Hs]; [exact Hs|].
      apply limit_reached_spec in Hs. congruence.
Qed.

Lemma scan_dirs_bound (package_name : string)
    (dirs : list (string * list string * list string))
    (methods l : list FoundMethod) (log log' : Log) :
  Z.of_nat (length methods) < expected_num ->
  scan_dirs w package_name method_name class_name expected_num dirs methods log
    = (Ok l, log') ->
  Z.of_nat (length l) <= 2 * expected_num - 1.
Proof.
  revert methods log. induction dirs as [|[[root sub] files] dirs IH];
    intros methods log Hlt Hr.
  - inversion Hr; subst. lia.
  - simpl in Hr. unfold st_bind in Hr.
    destruct (scan_files _ _ _ _ _ _ _ _ log) as [[r|e] log1] eqn:Hfiles;
      [|discriminate Hr].
    apply scan_files_bound in Hfiles; [|exact Hlt].
    destruct r as [l1|l1].
    + eapply IH; eassumption.
    + inversion Hr; subst. exact Hfiles.
Qed.

Lemma scan_packages_bound (package_names : list string)
    (methods : list FoundMethod) (log log' : Log) (r : flow (list FoundMethod)) :
  Z.of_nat (length methods) < expected_num ->
  scan_packages w method_name class_name expected_num package_names methods log
    = (Ok r, log') ->
  match r with
  | Next l => Z.of_nat (length l) < expected_num
  | Return l => Z.of_nat (length l) <= 3 * expected_num - 2
  end.
Proof.
  revert methods log. induction package_names as [|package_name package_names IH];
    intros methods log Hlt Hr.
  - inversion Hr; subst. exact Hlt.
  - simpl in Hr. unfold st_bind, st_lift in Hr.
    destruct (find_spec w package_name) as [[package_spec|]|e];
      [| |discriminate Hr].
    + destruct (first_location package_spec) as [package_path|e];
        [|discriminate Hr].
      destruct (_find_methods_in_package _ _ _ _ _ _ log) as [[found|e] log1]
        eqn:Hpkg; [|discriminate Hr].
      apply scan_dirs_bound in Hpkg; [|simpl; lia].
      destruct (limit_reached (methods ++ found) expected_num) eqn:Hlim.
      * inversion Hr; subst. rewrite length_app. lia.
      * eapply IH; [|exact Hr].
        destruct (Z.lt_ge_cases (Z.of_nat (length (methods ++ found))) expected_num)
          as [Hs|Hs]; [exact Hs|].
        apply limit_reached_spec in Hs. congruence.
    + simpl in Hr. eapply IH; eassumption.
Qed.

(** What the limit does guarantee: a positive [expected_num] bounds the
    result by [3 * expected_num - 2], one limit for the last file, one less
    for the files before it in its package, one less again for the packages
    before. *)
Lemma find_method_in_packages_bound (package_names : list string)
    (log log' : Log) (methods : list FoundMethod) :
  find_method_in_packages w package_names method_name class_name expected_num log
    = (Ok methods, log') ->
  Z.of_nat (length methods) <= 3 * expected_num - 2.
Proof.
  unfold find_method_in_packages, st_bind. intros Hr.
  destruct (scan_packages _ _ _ _ _ _ log) as [[r|e] log1] eqn:Hscan;
    [|discriminate Hr].
  apply scan_packages_bound in Hscan; [|simpl; lia].
  destruct r as [l|l].
  - destruct (is_nil l); simpl in Hr; inversion Hr; subst; lia.
  - inversion Hr; subst. exact Hscan.
Qed.

End Limit.

(** With [expected_num = 1] at most one entry is returned. *)
Lemma find_method_in_packages_at_most_one (w : World)
    (package_names : list string) (method_name : string)
    (class_name : option string) (log log' : Log) (methods : list FoundMethod) :
  find_method_in_packages w package_names method_name class_name 1 log
    = (Ok methods, log') ->
  (length methods <= 1)%nat.
Proof.
  unfold find_method_in_packages, st_bind. intros Hr.
  destruct (scan_packages _ _ _ _ _ _ log) as [[r|e] log1] eqn:Hscan;
    [|discriminate Hr].
  apply scan_packages_bound in Hscan; [|lia|simpl; lia].
  destruct r as [l|l].
  - destruct (is_nil l); simpl in Hr; inversion Hr; subst; lia.
  - inversion Hr; subst. lia.
Qed.

End MethodsFacts.

(** ** Dictionaries *)

Section DictFacts.
Import py.

Lemma dict_get_set_eq (k : pykey) (v : json) (d : dict) :
  dict_get k (dict_set k v d) = Some v.
Proof.
  induction d as [|[k' v'] d IH]; simpl.
  - rewrite decide_True; reflexivity.
  - destruct (decide (k' = k)); simpl.
    + rewrite decide_True; reflexivity.
    + rewrite decide_False; assumption.
Qed.

Lemma dict_get_set_ne (k k' : pykey) (v : json) (d : dict) :
  k <> k' -> dict_get k (dict_set k' v d) = dict_get k d.
Proof.
  intros Hne. induction d as [|[k0 v0] d IH]; simpl.
  - rewrite decide_False; [reflexivity | congruence].
  - destruct (decide (k0 = k')) as [->|Hk]; simpl.
    + rewrite !decide_False; [reflexivity | congruence | congruence].
    + destruct (decide (k0 = k)); [reflexivity | exact IH].
Qed.

(** Entries under keys that an update does not name are left alone. *)
Lemma dict_update_get_other (k : pykey) (new d : dict) :
  ~ In k (map fst new) -> dict_get k (dict_update d new) = dict_get k d.
Proof.
  unfold dict_update. revert d. induction new as [|[k' v'] new IH];
    intros d Hk; simpl in *.
  - reflexivity.
  - rewrite IH by tauto. apply dict_get_set_ne. intros ->. tauto.
Qed.

(** The last entry of an update under a key is the one found there. *)
Lemma dict_update_get_last (k : pykey) (v : json) (before after d : dict) :
  ~ In k (map fst after) ->
  dict_get k (dict_update d (before ++ (k, v) :: after)) = Some v.
Proof.
  intros Hk. unfold dict_update. rewrite fold_left_app. simpl.
  fold (dict_update (dict_set k v (fold_left (fun acc kv => dict_set kv.1 kv.2 acc)
                                     before d)) after).
  rewrite dict_update_get_other by exact Hk. apply dict_get_set_eq.
Qed.

Lemma dict_update_app (d new1 new2 : dict) :
  dict_update d (new1 ++ new2) = dict_update (dict_update d new1) new2.
Proof. unfold dict_update. apply fold_left_app. Qed.

Lemma dict_update_snoc (d new : dict) (k : pykey) (v : json) :
  dict_update d (new ++ [(k, v)]) = dict_set k v (dict_update d new).
Proof. unfold dict_update. rewrite fold_left_app. reflexivity. Qed.

End DictFacts.

(** ** toolspec.py *)

Section ToolSpecFacts.
Import py toolspec toolspec.docstring_parser toolspec_words.

Lemma is_required_described (p : DocstringParam) :
  described p -> is_required p = Ok (listed_required p).
Proof.
  unfold described, is_required, listed_required, marked_optional, says_optional.
  intros [Hopt | [d Hd]].
  - destruct (is_optional p) as [[]|]; [reflexivity | discriminate | discriminate].
  - rewrite Hd. destruct (is_optional p) as [[]|]; reflexivity.
Qed.


(** Whatever the loop of [create_from_docstring] does, and however it ends,
    it leaves alone the entries under names it does not declare. *)
Lemma docstring_params_loop_frame (todo : list DocstringParam) (self self' : ToolSpec)
    (res : Res unit) (k : pykey) :
  docstring_params_loop todo self = (res, self') ->
  ~ In k (map param_key todo) ->
  dict_get k (param_props self') = dict_get k (param_props self).
Proof.
  revert self. induction todo as [|p todo IH]; intros self Hrun Hk.
  - inversion Hrun; subst. reflexivity.
  - simpl in Hk. cbn [docstring_params_loop] in Hrun.
    unfold st_bind at 1 in Hrun. cbn [set_param st_modify] in Hrun.
    unfold st_bind at 1, st_lift in Hrun.
    assert (dict_get k (dict_set (KStr (arg_name p)) (docstring_param_obj p)
                          (param_props self)) = dict_get k (param_props self))
      as Hset by (apply dict_get_set_ne; intros ->; apply Hk; left; reflexivity).
    destruct (is_required p) as [[]|e].
    + unfold st_bind at 1, append_required in Hrun. cbn [param_required] in Hrun.
      destruct (param_required self) eqn:Hreq;
        try (inversion Hrun; subst; exact Hset).
      cbn [set_required st_modify] in Hrun. apply IH in Hrun; [|tauto].
      rewrite Hrun. exact Hset.
    + unfold st_bind at 1, st_ret in Hrun. apply IH in Hrun; [|tauto].
      rewrite Hrun. exact Hset.
    + inversion Hrun; subst. exact Hset.
Qed.




Lemma schema_param_obj_dict (param_details : json) :
  is_dict param_details ->
  schema_param_obj param_details = Ok (defaulted_param_obj param_details).
Proof.
  intros [d ->]. unfold schema_param_obj, defaulted_param_obj. simpl.
  destruct (dict_get (KStr "type") d), (dict_get (KStr "description") d);
    reflexivity.
Qed.

Lemma schema_params_loop_ok (todo : dict) (self : ToolSpec) :
  Forall (fun kv => is_dict kv.2) todo ->
  schema_params_loop todo self
  = (Ok tt,
     mkToolSpec (name self) (toolspec.description self)
       (dict_update (param_props self)
          (map (fun kv => (kv.1, defaulted_param_obj kv.2)) todo))
       (param_required self)).
Proof.
  revert self. induction todo as [|[k v] todo IH]; intros self Hdict.
  - destruct self; reflexivity.
  - inversion Hdict as [|? ? Hv Hrest]; subst.
    cbn [schema_params_loop]. unfold st_bind at 1, st_lift.
    rewrite (schema_param_obj_dict v Hv).
    unfold st_bind at 1. cbn [set_param st_modify].
    rewrite (IH _ Hrest). reflexivity.
Qed.

Lemma schema_params_loop_frame (todo : dict) (self self' : ToolSpec)
    (res : Res unit) (k : pykey) :
  schema_params_loop todo self = (res, self') ->
  ~ In k (map fst todo) ->
  dict_get k (param_props self') = dict_get k (param_props self).
Proof.
  revert self. induction todo as [|[k' v] todo IH]; intros self Hrun Hk.
  - inversion Hrun; subst. reflexivity.
  - simpl in Hk. cbn [schema_params_loop] in Hrun.
    unfold st_bind at 1, st_lift in Hrun.
    destruct (schema_param_obj v) as [param_obj|e].
    + unfold st_bind at 1 in Hrun. cbn [set_param st_modify] in Hrun.
      apply IH in Hrun; [|tauto]. rewrite Hrun. cbn [param_props].
      apply dict_get_set_ne. intros ->. tauto.
    + inversion Hrun; subst. reflexivity.
Qed.

(** An entry of the properties map that is not a mapping has no [.get]. *)
Lemma schema_param_obj_not_dict (param_details : json) :
  ~ is_dict param_details ->
  schema_param_obj param_details = Raise AttributeError.
Proof.
  intros Hnot. destruct param_details; try reflexivity.
  exfalso. apply Hnot. eexists. reflexivity.
Qed.

(** Read before any populate call, a [ToolSpec] gives the empty shell. *)
Lemma get_spec_dict_empty :
  get_spec_dict false empty
  = JDict [(KStr "name", JStr ""); (KStr "description", JStr "");
           (KStr "parameters",
            JDict [(KStr "type", JStr "object"); (KStr "properties", JDict []);
                   (KStr "required", JList [])])].
Proof. reflexivity. Qed.

(** C8, as the claim states it, fails: without a [properties] layer every
    entry of [parameters] is read as a parameter, a [required] list beside
    the parameters included, and [.get] on that list raises
    [AttributeError] before [param_required] is assigned. *)
Lemma create_from_schema_json_required_not_copied :
  (exists params,
      schema_parameters spec_required_beside_params = Ok (JDict params)
      /\ dict_get (KStr "properties") params = None
      /\ dict_get (KStr "required") params = Some (JList [JStr "a"]))
  /\ exists self',
       create_from_schema_json spec_required_beside_params empty
       = (Raise AttributeError, self')
       /\ param_required self' = JList [].
Proof.
  split.
  - eexists. repeat split; reflexivity.
  - eexists. split; reflexivity.
Qed.

(** C8, amended. Without a [properties] layer, [create_from_schema_json]
    takes [parameters] itself as the properties map, every entry of it: when
    each entry is a mapping, the call returns, each parameter is recorded
    with its type, "string" when missing, and its description, "" when
    missing, and [param_required] is what [parameters.get("required", [])]
    gives, the empty list when there is no such entry. *)
Theorem create_from_schema_json_without_properties (function_spec : json)
    (params : dict) (self : ToolSpec) :
  schema_parameters function_spec = Ok (JDict params) ->
  dict_get (KStr "properties") params = None ->
  Forall (fun kv => is_dict kv.2) params ->
  exists self',
    create_from_schema_json function_spec self = (Ok tt, self')
    /\ param_props self'
       = dict_update (param_props self)
           (map (fun kv => (kv.1, defaulted_param_obj kv.2)) params)
    /\ param_required self'
       = default (JList []) (dict_get (KStr "required") params).
Proof.
  intros Hparams Hnone Hdict. unfold schema_parameters in Hparams.
  destruct (unwrap_function function_spec) as [f|e] eqn:Hunwrap;
    [|discriminate Hparams].
  simpl in Hparams. destruct f as [| | | | |fd]; try discriminate Hparams.
  eexists. split; [|split].
  - injection Hparams as Hparams.
    unfold create_from_schema_json, st_bind, st_lift, set_name,
      set_description, set_required, st_modify.
    rewrite Hunwrap. simpl. rewrite Hparams. simpl. rewrite Hnone. simpl.
    rewrite (schema_params_loop_ok params _ Hdict). reflexivity.
  - reflexivity.
  - reflexivity.
Qed.

(** The spec without a [properties] layer populates an empty [ToolSpec] with
    [{"a": {"type": "int", "description": ""}}] and no required name. *)
Lemma create_from_schema_json_without_properties_witness :
  exists self',
    create_from_schema_json spec_without_properties empty = (Ok tt, self')
    /\ param_props self'
       = [(KStr "a", JDict [(KStr "type", JStr "int");
                            (KStr "description", JStr "")])]
    /\ param_required self' = JList [].
Proof.
  apply (create_from_schema_json_without_properties spec_without_properties
           [(KStr "a", JDict [(KStr "type", JStr "int")])] empty).
  - reflexivity.
  - reflexivity.
  - repeat constructor. eexists. reflexivity.
Defined.

Lemma docstring_params_loop_appends (todo : list DocstringParam)
    (self self' : ToolSpec) (required : list json) :
  docstring_params_loop todo self = (Ok tt, self') ->
  param_required self = JList required ->
  exists added, param_required self' = JList (required ++ added).
Proof.
  revert self required. induction todo as [|p todo IH]; intros self required Hrun Hreq.
  - inversion Hrun; subst. exists []. rewrite app_nil_r. exact Hreq.
  - cbn [docstring_params_loop] in Hrun.
    unfold st_bind at 1 2 3, st_lift, set_param, st_modify in Hrun.
    destruct (is_required p) as [[]|e]; [| |discriminate Hrun].
    + unfold append_required in Hrun. cbn [param_required] in Hrun.
      rewrite Hreq in Hrun. cbn [set_required st_modify] in Hrun.
      apply (IH _ (required ++ [JStr (arg_name p)])) in Hrun; [|reflexivity].
      destruct Hrun as [added Hadded]. exists (JStr (arg_name p) :: added).
      rewrite Hadded, <- app_assoc. reflexivity.
    + unfold st_ret in Hrun. apply (IH _ required) in Hrun; [|exact Hreq].
      exact Hrun.
Qed.

(** C10. Neither populate call resets the parameters recorded before: an
    entry of [param_props] under a name that the new input does not declare
    is found unchanged afterwards, however the call ends.
    [create_from_docstring] appends to the required list it finds, while
    [create_from_schema_json] replaces it by the one of its input. *)
Theorem populate_keeps_other_params :
  (forall (parse : option string -> Res Docstring) (name : string)
          (docstring : option string) (self self' : ToolSpec) (res : Res unit)
          (k : pykey),
      create_from_docstring parse name docstring self = (res, self') ->
      (forall doc_dict, parse docstring = Ok doc_dict ->
                        ~ In k (map param_key (params doc_dict))) ->
      dict_get k (param_props self') = dict_get k (param_props self))
  /\ (forall (function_spec : json) (self self' : ToolSpec) (res : Res unit)
             (k : pykey),
      create_from_schema_json function_spec self = (res, self') ->
      (forall props, schema_properties function_spec = Ok props ->
                     ~ In k (map fst props)) ->
      dict_get k (param_props self') = dict_get k (param_props self))
  /\ (forall (parse : option string -> Res Docstring) (name : string)
             (docstring : option string) (self self' : ToolSpec)
             (required : list json),
      create_from_docstring parse name docstring self = (Ok tt, self') ->
      param_required self = JList required ->
      exists added, param_required self' = JList (required ++ added))
  /\ (forall (function_spec : json) (self self' : ToolSpec),
      create_from_schema_json function_spec self = (Ok tt, self') ->
      schema_required function_spec = Ok (param_required self')).
Proof.
  split; [|split; [|split]].
  - intros parse name docstring self self' res k Hrun Hk.
    unfold create_from_docstring in Hrun. unfold st_bind at 1 in Hrun.
    cbn [set_name st_modify] in Hrun. unfold st_bind at 1, st_lift in Hrun.
    destruct (parse docstring) as [doc_dict|e].
    + unfold st_bind at 1 in Hrun. cbn [set_description st_modify] in Hrun.
      apply docstring_params_loop_frame with (k := k) in Hrun;
        [exact Hrun | apply Hk; reflexivity].
    + inversion Hrun; subst. reflexivity.
  - intros function_spec self self' res k Hrun Hk.
    unfold schema_properties, schema_parameters in Hk.
    unfold create_from_schema_json, st_bind, st_lift, set_name,
      set_description, set_required, st_modify in Hrun.
    destruct (unwrap_function function_spec) as [f|e];
      [|inversion Hrun; subst; reflexivity].
    destruct (get f "name" (JStr "")) as [n|e];
      [|inversion Hrun; subst; reflexivity].
    destruct (get f "description" (JStr "")) as [dsc|e];
      [|inversion Hrun; subst; reflexivity].
    simpl in Hk.
    destruct (get f "parameters" (JDict [])) as [ps|e];
      [|inversion Hrun; subst; reflexivity].
    simpl in Hk.
    destruct (get ps "properties" ps) as [pp|e];
      [|inversion Hrun; subst; reflexivity].
    simpl in Hk.
    destruct (items pp) as [todo|e];
      [|inversion Hrun; subst; reflexivity].
    destruct (schema_params_loop todo _) as [[[]|e] self1] eqn:Hloop;
      (apply schema_params_loop_frame with (k := k) in Hloop;
        [|apply Hk; reflexivity]).
    + destruct (get ps "required" (JList [])) as [r|e]; inversion Hrun; subst;
        exact Hloop.
    + inversion Hrun; subst. exact Hloop.
  - intros parse name docstring self self' required Hrun Hreq.
    unfold create_from_docstring, st_bind at 1 2 3, st_lift, set_name,
      set_description, st_modify in Hrun.
    destruct (parse docstring) as [doc_dict|e]; [|discriminate Hrun].
    eapply docstring_params_loop_appends; [exact Hrun | exact Hreq].
  - intros function_spec self self' Hrun.
    unfold schema_required, schema_parameters.
    unfold create_from_schema_json, st_bind, st_lift, set_name,
      set_description, set_required, st_modify in Hrun.
    destruct (unwrap_function function_spec) as [f|e]; [|discriminate Hrun].
    destruct (get f "name" (JStr "")) as [n|e]; [|discriminate Hrun].
    destruct (get f "description" (JStr "")) as [dsc|e]; [|discriminate Hrun].
    simpl.
    destruct (get f "parameters" (JDict [])) as [ps|e]; [|discriminate Hrun].
    simpl.
    destruct (get ps "properties" ps) as [pp|e]; [|discriminate Hrun].
    destruct (items pp) as [todo|e]; [|discriminate Hrun].
    destruct (schema_params_loop todo _) as [[[]|e] self1]; [|discriminate Hrun].
    destruct (get ps "required" (JList [])) as [r|e]; [|discriminate Hrun].
    inversion Hrun; subst. reflexivity.
Qed.

(** A second populate call keeps the parameter [x] recorded before.  From
    the spec of [f], which declares only [a], the required list is replaced
    by the empty one; from the docstring of [open], the required [path] is
    appended to it. *)
Lemma populate_keeps_other_params_witness :
  let after_schema :=
    mkToolSpec (JStr "f") (JStr "")
      [(KStr "x", JDict [(KStr "type", JStr "int"); (KStr "description", JStr "")]);
       (KStr "a", JDict [(KStr "type", JStr "int"); (KStr "description", JStr "")])]
      (JList []) in
  (create_from_schema_json spec_without_properties populated = (Ok tt, after_schema)
   /\ dict_get (KStr "x") (param_props after_schema)
      = dict_get (KStr "x") (param_props populated)
   /\ schema_required spec_without_properties = Ok (param_required after_schema))
  /\ exists after_docstring added,
       create_from_docstring (fun _ => Ok open_docstring) "open" None populated
       = (Ok tt, after_docstring)
       /\ dict_get (KStr "x") (param_props after_docstring)
          = dict_get (KStr "x") (param_props populated)
       /\ param_required after_docstring = JList ([JStr "x"] ++ added).
Proof.
  intros after_schema.
  destruct populate_keeps_other_params
    as (Hdocstring & Hschema & Happends & Hreplaces).
  split; [split; [reflexivity|split]|].
  - apply (Hschema spec_without_properties populated after_schema (Ok tt) (KStr "x"));
      [reflexivity|].
    intros props Hprops. injection Hprops as <-. simpl.
    intros [Hk|[]]. discriminate Hk.
  - apply (Hreplaces spec_without_properties populated after_schema). reflexivity.
  - destruct (create_from_docstring (fun _ => Ok open_docstring) "open" None
                populated) as [res after_docstring] eqn:Hrun.
    assert (res = Ok tt) as -> by (vm_compute in Hrun; congruence).
    destruct (Happends _ _ _ _ _ [JStr "x"] Hrun eq_refl) as [added Hadded].
    exists after_docstring, added. split; [reflexivity|]. split; [|exact Hadded].
    apply (Hdocstring _ _ _ _ _ _ (KStr "x") Hrun).
    intros doc_dict Hdoc. injection Hdoc as <-. simpl.
    intros [Hk|[Hk|[Hk|[]]]]; discriminate Hk.
Defined.

End ToolSpecFacts.

(** ** spec.py *)

(** Inversion of a chain of binds that returned. *)
Ltac bind_inv H :=
  repeat match type of H with
    | py.bind ?m _ = py.Ok _ =>
        let E := fresh "E" in
        destruct m eqn:E; [cbn [py.bind] in H | discriminate H]
    end.

(** A chain of binds raises as soon as one of its steps does. *)
Ltac bind_raises :=
  repeat match goal with
    | |- exists e, py.bind ?m _ = py.Raise e =>
        destruct m; [cbn [py.bind] | eexists; reflexivity]
    end.

Section SpecFacts.
Import py spec spec_words spec_declared.
Context `{text.Unicode}.
Variables (str_of : json -> string) (replace_refs : json -> json).

Lemma dict_set_in (k k' : pykey) (v v' : json) (d : dict) :
  In (k, v) (dict_set k' v' d) -> (k, v) = (k', v') \/ In (k, v) d.
Proof.
  induction d as [|[k0 v0] d IH]; simpl.
  - intros [E|[]]. left. symmetry. exact E.
  - destruct (decide (k0 = k')); simpl.
    + intros [E|Hin]; [left; symmetry; exact E | right; right; exact Hin].
    + intros [E|Hin]; [right; left; exact E|].
      destruct (IH Hin) as [E|Hin']; [left; exact E | right; right; exact Hin'].
Qed.

(** The function spec of an operation lists, under [url], every server URL
    followed by the path of the operation. *)
Lemma operation_url_enum (servers_urls : list json) (path method : pykey)
    (params_common_list spec_with_ref : json) (entry : pykey * json) :
  operation str_of replace_refs servers_urls path params_common_list method
    spec_with_ref = Ok entry ->
  url_enum entry.2 = Some (cross_product str_of servers_urls path).
Proof.
  unfold operation. cbv zeta. intros Hop. bind_inv Hop.
  injection Hop as <-. reflexivity.
Qed.

(** The key of an operation is its [operationId], a string, normalised. *)
Lemma operation_key (servers_urls : list json) (path method : pykey)
    (params_common_list spec_with_ref : json) (entry : pykey * json) :
  operation str_of replace_refs servers_urls path params_common_list method
    spec_with_ref = Ok entry ->
  exists id,
    get (replace_refs spec_with_ref) "operationId" JNull = Ok (JStr id)
    /\ entry.1 = KStr (text.normalize_str id).
Proof.
  unfold operation. cbv zeta. intros Hop. bind_inv Hop. injection Hop as <-.
  match goal with
  | Hn : text.normalize_string ?v = Ok ?r, Hk : to_key ?r = Ok ?k |- _ =>
      destruct v; try discriminate Hn; injection Hn as <-; injection Hk as <-
  end.
  eexists. split; reflexivity.
Qed.

Lemma dict_update_in (k : pykey) (v : json) (new d : dict) :
  In (k, v) (dict_update d new) -> In (k, v) d \/ In (k, v) new.
Proof.
  revert d. induction new as [|[k' v'] new IH]; intros d Hin.
  - left. exact Hin.
  - change (dict_update d ((k', v') :: new))
      with (dict_update (dict_set k' v' d) new) in Hin.
    destruct (IH _ Hin) as [Hset|Hnew].
    + apply dict_set_in in Hset. destruct Hset as [Heq|Hd].
      * right. left. symmetry. exact Heq.
      * left. exact Hd.
    + right. right. exact Hnew.
Qed.

(** *** The loops, as updates of the map by the results of [operation] *)

Lemma methods_loop_entries (servers_urls : list json) (path : pykey) (todo : dict)
    (params_common_list : json) (functions : dict) :
  methods_loop str_of replace_refs servers_urls path todo params_common_list
    functions
  = (entries <- methods_entries str_of replace_refs servers_urls path todo
                  params_common_list;;
     Ok (dict_update functions entries)).
Proof.
  revert params_common_list functions.
  induction todo as [|[method spec_with_ref] todo IH];
    intros params_common_list functions.
  - reflexivity.
  - cbn [methods_loop methods_entries].
    destruct (bool_decide (method = KStr "parameters")); [apply IH|].
    destruct (operation _ _ _ _ _ _ _) as [entry|e]; cbn [bind]; [|reflexivity].
    rewrite IH.
    destruct (methods_entries _ _ _ _ _ _) as [rest|e]; reflexivity.
Qed.

Lemma paths_loop_entries (servers_urls : list json) (todo functions : dict) :
  paths_loop str_of replace_refs servers_urls todo functions
  = (entries <- paths_entries str_of replace_refs servers_urls todo;;
     Ok (dict_update functions entries)).
Proof.
  revert functions. induction todo as [|[path path_methods] todo IH];
    intros functions.
  - reflexivity.
  - cbn [paths_loop paths_entries].
    destruct (items path_methods) as [entries|e]; cbn [bind]; [|reflexivity].
    rewrite methods_loop_entries.
    destruct (methods_entries _ _ _ _ _ _) as [first|e]; cbn [bind]; [|reflexivity].
    rewrite IH.
    destruct (paths_entries _ _ _ _) as [rest|e]; cbn [bind]; [|reflexivity].
    rewrite dict_update_app. reflexivity.
Qed.

Lemma openapi_to_requests_entries (openapi_spec : json) :
  openapi_to_requests str_of replace_refs openapi_spec
  = (entries <- openapi_entries str_of replace_refs openapi_spec;;
     Ok (dict_update [] entries)).
Proof.
  unfold openapi_to_requests, openapi_entries, declared_servers, declared_paths.
  destruct (getitem openapi_spec "servers") as [servers|e]; cbn [bind];
    [|reflexivity].
  destruct (iter servers) as [servers'|e]; cbn [bind]; [|reflexivity].
  destruct (server_urls servers') as [servers_urls|e]; cbn [bind]; [|reflexivity].
  destruct (getitem openapi_spec "paths") as [paths|e]; cbn [bind]; [|reflexivity].
  destruct (items paths) as [paths'|e]; cbn [bind]; [|reflexivity].
  apply paths_loop_entries.
Qed.

(** Every result comes from an operation of the path. *)
Lemma methods_entries_declared (servers_urls : list json) (path : pykey)
    (todo : dict) (params_common_list : json) (entries : dict)
    (entry : pykey * json) :
  methods_entries str_of replace_refs servers_urls path todo params_common_list
  = Ok entries ->
  In entry entries ->
  exists method spec_with_ref shared,
    In (method, spec_with_ref) todo
    /\ method <> KStr "parameters"
    /\ operation str_of replace_refs servers_urls path shared method spec_with_ref
       = Ok entry.
Proof.
  revert params_common_list entries.
  induction todo as [|[method spec_with_ref] todo IH];
    intros params_common_list entries Hrun Hin.
  - injection Hrun as <-. destruct Hin.
  - cbn [methods_entries] in Hrun.
    destruct (bool_decide (method = KStr "parameters")) eqn:Hmethod.
    + destruct (IH _ _ Hrun Hin) as (m & sp & shared & Hm & Hne & Hop).
      exists m, sp, shared. split; [right; exact Hm|]. split; assumption.
    + apply bool_decide_eq_false in Hmethod.
      destruct (operation str_of replace_refs servers_urls path params_common_list
                  method spec_with_ref) as [first|e] eqn:Hop; [|discriminate Hrun].
      cbn [bind] in Hrun.
      destruct (methods_entries str_of replace_refs servers_urls path todo
                  params_common_list) as [rest|e] eqn:Hrest; [|discriminate Hrun].
      injection Hrun as <-. destruct Hin as [<-|Hin].
      * exists method, spec_with_ref, params_common_list.
        split; [left; reflexivity|]. split; assumption.
      * destruct (IH _ _ Hrest Hin) as (m & sp & shared & Hm & Hne & Hop').
        exists m, sp, shared. split; [right; exact Hm|]. split; assumption.
Qed.

(** Every result comes from an operation that the document declares, under
    the path that [operation] was given. *)
Lemma paths_entries_declared (servers_urls : list json) (todo entries : dict)
    (entry : pykey * json) :
  paths_entries str_of replace_refs servers_urls todo = Ok entries ->
  In entry entries ->
  exists path,
    declared_under str_of replace_refs servers_urls todo path entry.
Proof.
  revert entries. induction todo as [|[path path_methods] todo IH];
    intros entries Hrun Hin.
  - injection Hrun as <-. destruct Hin.
  - cbn [paths_entries] in Hrun.
    destruct (items path_methods) as [path_entries|e] eqn:Hitems;
      [|discriminate Hrun].
    cbn [bind] in Hrun.
    destruct (methods_entries str_of replace_refs servers_urls path path_entries
                (JList [])) as [first|e] eqn:Hfirst; [|discriminate Hrun].
    cbn [bind] in Hrun.
    destruct (paths_entries str_of replace_refs servers_urls todo) as [rest|e]
      eqn:Hrest; [|discriminate Hrun].
    injection Hrun as <-. apply in_app_or in Hin. destruct Hin as [Hin|Hin].
    + destruct (methods_entries_declared _ _ _ _ _ _ Hfirst Hin)
        as (method & spec_with_ref & shared & Hm & Hne & Hop).
      exists path, path_methods, path_entries, method, spec_with_ref, shared.
      split; [left; reflexivity|]. repeat split; assumption.
    + destruct (IH _ eq_refl Hin)
        as (p & pm & es & method & spec_with_ref & shared & Hp & Hes & Hm & Hne
            & Hop).
      exists p, pm, es, method, spec_with_ref, shared.
      split; [right; exact Hp|]. repeat split; assumption.
Qed.

(** C6. In every map that [openapi_to_requests] returns, each function spec
    is that of an operation which the document declares under some path
    template and whose [operationId], normalised, is the key of the spec;
    the [url] parameter of the function spec has for [enum] the list of the
    declared server URLs, in the order of their declaration, each followed
    by that path template, the one of the operation. *)
Theorem openapi_url_enum_cross_product (openapi_spec : json) (functions : dict) :
  openapi_to_requests str_of replace_refs openapi_spec = Ok functions ->
  exists servers_urls paths,
    declared_servers openapi_spec = Ok servers_urls
    /\ declared_paths openapi_spec = Ok paths
    /\ forall operation_id function,
         In (operation_id, function) functions ->
         exists path path_methods entries method spec_with_ref shared id,
           In (path, path_methods) paths
           /\ items path_methods = Ok entries
           /\ In (method, spec_with_ref) entries
           /\ method <> KStr "parameters"
           /\ get (replace_refs spec_with_ref) "operationId" JNull = Ok (JStr id)
           /\ operation_id = KStr (text.normalize_str id)
           /\ operation str_of replace_refs servers_urls path shared method
                spec_with_ref = Ok (operation_id, function)
           /\ at_path ["parameters"; "properties"; "url"; "enum"] function
              = Some (JList (map (fun url =>
                                    JStr (format str_of url
                                          +:+ format str_of (key_to_json path)))
                               servers_urls)).
Proof.
  intros Hrun. rewrite openapi_to_requests_entries in Hrun.
  unfold openapi_entries in Hrun.
  destruct (declared_servers openapi_spec) as [servers_urls|e];
    [|discriminate Hrun].
  cbn [bind] in Hrun.
  destruct (declared_paths openapi_spec) as [paths|e]; [|discriminate Hrun].
  cbn [bind] in Hrun.
  destruct (paths_entries str_of replace_refs servers_urls paths) as [entries|e]
    eqn:Hentries; [|discriminate Hrun].
  injection Hrun as <-.
  exists servers_urls, paths. split; [reflexivity|]. split; [reflexivity|].
  intros operation_id function Hin.
  apply dict_update_in in Hin. destruct Hin as [[]|Hin].
  destruct (paths_entries_declared _ _ _ _ Hentries Hin)
    as (path & path_methods & es & method & spec_with_ref & shared & Hp & Hes & Hm
        & Hne & Hop).
  destruct (operation_key _ _ _ _ _ _ Hop) as (id & Hid & Hkey).
  exists path, path_methods, es, method, spec_with_ref, shared, id.
  do 7 (split; [assumption|]).
  apply (operation_url_enum _ _ _ _ _ _ Hop).
Qed.

(** *** Operations that raise *)

Section Raising.
Variables (path method : pykey) (spec_with_ref : json).
Hypothesis not_parameters : method <> KStr "parameters".
(** The operation raises, whatever the servers and the shared parameters. *)
Hypothesis operation_raises :
  forall servers_urls params_common_list,
    exists e, operation str_of replace_refs servers_urls path params_common_list
                method spec_with_ref = Raise e.

Lemma methods_loop_raises (servers_urls : list json) (before after : dict)
    (params_common_list : json) (functions : dict) :
  exists e,
    methods_loop str_of replace_refs servers_urls path
      (before ++ (method, spec_with_ref) :: after) params_common_list functions
    = Raise e.
Proof.
  revert params_common_list functions.
  induction before as [|[m s] before IH]; intros params_common_list functions.
  - cbn [app methods_loop]. rewrite bool_decide_eq_false_2 by exact not_parameters.
    destruct (operation_raises servers_urls params_common_list) as [e ->].
    exists e. reflexivity.
  - cbn [app methods_loop]. destruct (bool_decide (m = KStr "parameters")).
    + apply IH.
    + destruct (operation _ _ _ _ _ _ _) as [entry|e]; cbn [bind].
      * apply IH.
      * exists e. reflexivity.
Qed.

Lemma paths_loop_raises (servers_urls : list json) (paths_before paths_after : dict)
    (path_methods : json) (before after : dict) (functions : dict) :
  items path_methods = Ok (before ++ (method, spec_with_ref) :: after) ->
  exists e,
    paths_loop str_of replace_refs servers_urls
      (paths_before ++ (path, path_methods) :: paths_after) functions
    = Raise e.
Proof.
  intros Hitems. revert functions.
  induction paths_before as [|[p pm] paths_before IH]; intros functions.
  - cbn [app paths_loop]. rewrite Hitems. cbn [bind].
    destruct (methods_loop_raises servers_urls before after (JList []) functions)
      as [e ->]. exists e. reflexivity.
  - cbn [app paths_loop]. destruct (items pm) as [entries|e]; cbn [bind].
    + destruct (methods_loop _ _ _ _ _ _ _) as [functions'|e]; cbn [bind].
      * apply IH.
      * exists e. reflexivity.
    + exists e. reflexivity.
Qed.

(** An operation that raises leaves [openapi_to_requests] by an exception,
    its own or one raised before it is reached: no map is returned. *)
Lemma openapi_to_requests_raises (openapi_spec : json)
    (paths_before paths_after : dict) (path_methods : json) (before after : dict) :
  declared_paths openapi_spec
    = Ok (paths_before ++ (path, path_methods) :: paths_after) ->
  items path_methods = Ok (before ++ (method, spec_with_ref) :: after) ->
  exists e, openapi_to_requests str_of replace_refs openapi_spec = Raise e.
Proof.
  unfold declared_paths, openapi_to_requests. intros Hpaths Hitems.
  destruct (getitem openapi_spec "servers") as [servers|e]; cbn [bind];
    [|exists e; reflexivity].
  destruct (iter servers) as [servers'|e]; cbn [bind]; [|exists e; reflexivity].
  destruct (server_urls servers') as [servers_urls|e]; cbn [bind];
    [|exists e; reflexivity].
  destruct (getitem openapi_spec "paths") as [paths|e]; [|discriminate Hpaths].
  cbn [bind] in Hpaths |- *. rewrite Hpaths. cbn [bind].
  eapply paths_loop_raises. exact Hitems.
Qed.

End Raising.

(** Without an [operationId], [normalize_string] is applied to [None]. *)
Lemma operation_without_id (servers_urls : list json) (path method : pykey)
    (params_common_list spec_with_ref : json) (spec : dict) :
  replace_refs spec_with_ref = JDict spec ->
  dict_get (KStr "operationId") spec = None ->
  operation str_of replace_refs servers_urls path params_common_list method
    spec_with_ref = Raise TypeError.
Proof.
  intros Hspec Hnone. unfold operation. cbv zeta. rewrite Hspec.
  cbn [get bind]. rewrite Hnone. reflexivity.
Qed.

(** C3, amended. An operation object without an [operationId] field makes
    [normalize_string] raise [TypeError]; nothing catches it, so the
    operation yields no function spec, and [openapi_to_requests] is left by
    an exception, this one or one raised before the operation is reached:
    no output map is returned for the document. *)
Theorem openapi_missing_operation_id_raises (openapi_spec : json)
    (paths_before paths_after : dict) (path method : pykey) (path_methods : json)
    (before after : dict) (spec_with_ref : json) (spec : dict) :
  declared_paths openapi_spec
    = Ok (paths_before ++ (path, path_methods) :: paths_after) ->
  items path_methods = Ok (before ++ (method, spec_with_ref) :: after) ->
  method <> KStr "parameters" ->
  replace_refs spec_with_ref = JDict spec ->
  dict_get (KStr "operationId") spec = None ->
  (forall servers_urls params_common_list,
      operation str_of replace_refs servers_urls path params_common_list method
        spec_with_ref = Raise TypeError)
  /\ exists e, openapi_to_requests str_of replace_refs openapi_spec = Raise e.
Proof.
  intros Hpaths Hitems Hmethod Hspec Hnone.
  assert (forall servers_urls params_common_list,
             operation str_of replace_refs servers_urls path params_common_list
               method spec_with_ref = Raise TypeError) as Hop
    by (intros; eapply operation_without_id; eassumption).
  split; [exact Hop|].
  eapply openapi_to_requests_raises; [exact Hmethod| |exact Hpaths|exact Hitems].
  intros servers_urls params_common_list. exists TypeError. apply Hop.
Qed.

(** With an empty [content] map, [next(iter(content))] has nothing to
    return. *)
Lemma request_body_empty_content (spec : dict) (request_body : json) :
  dict_get (KStr "requestBody") spec = Some request_body ->
  get request_body "content" JNull = Ok (JDict []) ->
  request_body_data (JDict spec) = Raise StopIteration.
Proof.
  intros Hbody Hcontent. unfold request_body_data. cbn [contains bind get].
  rewrite Hbody. cbn [bind]. rewrite bool_decide_eq_true_2 by (eexists; reflexivity).
  rewrite Hcontent. reflexivity.
Qed.

(** C5, amended. For an operation whose [requestBody] has a [content] map
    without entries, the [data] entry raises [StopIteration]; there is no
    error named "empty request body content".  Nothing catches the
    exception, so the operation yields no function spec, and
    [openapi_to_requests] is left by an exception, this one or one raised
    earlier: no output map is returned for the document. *)
Theorem openapi_empty_content_raises (openapi_spec : json)
    (paths_before paths_after : dict) (path method : pykey) (path_methods : json)
    (before after : dict) (spec_with_ref request_body : json) (spec : dict) :
  declared_paths openapi_spec
    = Ok (paths_before ++ (path, path_methods) :: paths_after) ->
  items path_methods = Ok (before ++ (method, spec_with_ref) :: after) ->
  method <> KStr "parameters" ->
  replace_refs spec_with_ref = JDict spec ->
  dict_get (KStr "requestBody") spec = Some request_body ->
  get request_body "content" JNull = Ok (JDict []) ->
  request_body_data (replace_refs spec_with_ref) = Raise StopIteration
  /\ (forall servers_urls params_common_list,
        exists e,
          operation str_of replace_refs servers_urls path params_common_list
            method spec_with_ref = Raise e)
  /\ exists e, openapi_to_requests str_of replace_refs openapi_spec = Raise e.
Proof.
  intros Hpaths Hitems Hmethod Hspec Hbody Hcontent.
  assert (request_body_data (replace_refs spec_with_ref) = Raise StopIteration)
    as Hdata by (rewrite Hspec; eapply request_body_empty_content; eassumption).
  assert (forall servers_urls params_common_list,
             exists e,
               operation str_of replace_refs servers_urls path params_common_list
                 method spec_with_ref = Raise e) as Hop.
  { intros servers_urls params_common_list. unfold operation. cbv zeta.
    bind_raises. discriminate Hdata. }
  split; [exact Hdata|]. split; [exact Hop|].
  eapply openapi_to_requests_raises; [exact Hmethod|exact Hop|exact Hpaths|exact Hitems].
Qed.

End SpecFacts.

(** Of two paths [/items] and [/users] behind two servers, the function
    spec stored under [list_users] lists the two URLs that end in [/users],
    and the one stored under [list_items] those that end in [/items].  The
    document of one server and one path [/items/{id}] yields the enum
    [["https://api.example.com/items/{id}"]] under the key [get_item]. *)
Lemma openapi_url_enum_cross_product_witness :
  spec.openapi_to_requests (H := spec_words.ascii_tables) spec_words.no_str
    spec_words.no_refs spec_declared.two_paths_doc
  = py.Ok [(py.KStr "list_items", spec_declared.listing_function "/items");
           (py.KStr "list_users", spec_declared.listing_function "/users")]
  /\ spec.openapi_to_requests (H := spec_words.ascii_tables) spec_words.no_str
       spec_words.no_refs spec_words.items_doc
     = py.Ok [(py.KStr "get_item", spec_words.get_item_function)]
  /\ spec_words.url_enum spec_words.get_item_function
     = Some (py.JList [py.JStr "https://api.example.com/items/{id}"])
  /\ spec_words.url_enum (spec_declared.listing_function "/users")
     = Some (py.JList [py.JStr "https://a.example.com/users";
                       py.JStr "https://b.example.com/users"])
  /\ spec_words.url_enum (spec_declared.listing_function "/items")
     = Some (py.JList [py.JStr "https://a.example.com/items";
                       py.JStr "https://b.example.com/items"]).
Proof.
  split; [reflexivity|]. split; [reflexivity|]. split.
  { destruct (openapi_url_enum_cross_product (H := spec_words.ascii_tables)
                spec_words.no_str spec_words.no_refs spec_words.items_doc
                [(py.KStr "get_item", spec_words.get_item_function)] eq_refl)
      as (servers_urls & paths & Hservers & Hpaths & Henum).
    injection Hservers as <-. injection Hpaths as <-.
    destruct (Henum _ _ (or_introl eq_refl))
      as (path & path_methods & entries & method & spec_with_ref & shared & id
          & [Hpath|[]] & _ & _ & _ & _ & _ & _ & Hurl).
    injection Hpath as <- _. exact Hurl. }
  destruct (openapi_url_enum_cross_product (H := spec_words.ascii_tables)
              spec_words.no_str spec_words.no_refs spec_declared.two_paths_doc
              _ eq_refl)
    as (servers_urls & paths & Hservers & Hpaths & Henum).
  injection Hservers as <-. injection Hpaths as <-.
  split.
  - destruct (Henum _ _ (or_intror (or_introl eq_refl)))
      as (path & path_methods & entries & method & spec_with_ref & shared & id
          & Hpath & Hitems & Hmethod & _ & Hid & Hkey & _ & Hurl).
    destruct Hpath as [Hpath|[Hpath|[]]]; injection Hpath as <- <-;
      injection Hitems as <-; destruct Hmethod as [Hmethod|[]];
      injection Hmethod as <- <-; injection Hid as <-;
      [discriminate Hkey | exact Hurl].
  - destruct (Henum _ _ (or_introl eq_refl))
      as (path & path_methods & entries & method & spec_with_ref & shared & id
          & Hpath & Hitems & Hmethod & _ & Hid & Hkey & _ & Hurl).
    destruct Hpath as [Hpath|[Hpath|[]]]; injection Hpath as <- <-;
      injection Hitems as <-; destruct Hmethod as [Hmethod|[]];
      injection Hmethod as <- <-; injection Hid as <-;
      [exact Hurl | discriminate Hkey].
Defined.

Section SpecExamples.
Import py spec spec_words.

(** The end-to-end example: key [get_item], one header [X-Key], no data. *)
Lemma openapi_to_requests_items_doc :
  openapi_to_requests (H := ascii_tables) no_str no_refs items_doc
  = Ok [(KStr "get_item", get_item_function)].
Proof. reflexivity. Qed.

(** C3, as the claim states it, fails: with a [delete] operation that has
    no [operationId] after the [get] operation, the conversion raises
    [TypeError] and returns no map, although the [get] operation alone is
    converted. *)
Lemma openapi_missing_operation_id_aborts :
  openapi_to_requests (H := ascii_tables) no_str no_refs doc_missing_operation_id
  = Raise TypeError
  /\ openapi_to_requests (H := ascii_tables) no_str no_refs items_doc
     = Ok [(KStr "get_item", get_item_function)].
Proof. split; reflexivity. Qed.

Lemma openapi_missing_operation_id_raises_witness :
  (forall servers_urls params_common_list,
      operation (H := ascii_tables) no_str no_refs servers_urls
        (KStr "/items/{id}") params_common_list (KStr "delete")
        (JDict delete_operation) = Raise TypeError)
  /\ exists e,
       openapi_to_requests (H := ascii_tables) no_str no_refs
         doc_missing_operation_id = Raise e.
Proof.
  apply (openapi_missing_operation_id_raises (H := ascii_tables) no_str no_refs
           doc_missing_operation_id [] [] (KStr "/items/{id}") (KStr "delete")
           (JDict [(KStr "get", get_item_operation);
                   (KStr "delete", JDict delete_operation)])
           [(KStr "get", get_item_operation)] [] (JDict delete_operation)
           delete_operation);
    [reflexivity | reflexivity | discriminate | reflexivity | reflexivity].
Defined.

(** C5, as the claim states it, fails: with a [put] operation whose request
    body has an empty [content] map, the conversion of the whole document
    raises [StopIteration], an exception without the name the claim gives,
    and returns no map, although the [get] operation alone is converted. *)
Lemma openapi_empty_content_aborts :
  openapi_to_requests (H := ascii_tables) no_str no_refs doc_empty_content
  = Raise StopIteration
  /\ openapi_to_requests (H := ascii_tables) no_str no_refs items_doc
     = Ok [(KStr "get_item", get_item_function)].
Proof. split; reflexivity. Qed.

Lemma openapi_empty_content_raises_witness :
  request_body_data (no_refs (JDict put_empty_body_operation)) = Raise StopIteration
  /\ (forall servers_urls params_common_list,
        exists e,
          operation (H := ascii_tables) no_str no_refs servers_urls
            (KStr "/items/{id}") params_common_list (KStr "put")
            (JDict put_empty_body_operation) = Raise e)
  /\ exists e,
       openapi_to_requests (H := ascii_tables) no_str no_refs doc_empty_content
       = Raise e.
Proof.
  apply (openapi_empty_content_raises (H := ascii_tables) no_str no_refs
           doc_empty_content [] [] (KStr "/items/{id}") (KStr "put")
           (JDict [(KStr "get", get_item_operation);
                   (KStr "put", JDict put_empty_body_operation)])
           [(KStr "get", get_item_operation)] []
           (JDict put_empty_body_operation) (JDict [(KStr "content", JDict [])])
           put_empty_body_operation);
    [reflexivity | reflexivity | discriminate | reflexivity | reflexivity
    | reflexivity].
Defined.

End SpecExamples.

(** * Further properties *)

(** ** util/text.py *)

Section TextMore.
Import py text text_words.
Context `{Unicode}.

Lemma sub_nonword_fixed_iff (s : string) :
  sub_nonword s = s <-> Forall (fun c => nonword c = false) (list_ascii_of_string s).
Proof.
  induction s as [|c s IH]; simpl.
  - split; [constructor | reflexivity].
  - split.
    + intros Heq. injection Heq as Hc Hs. constructor; [|apply IH, Hs].
      destruct (nonword c) eqn:Hn; [|reflexivity].
      rewrite <- Hc in Hn. rewrite nonword_underscore in Hn. discriminate Hn.
    + intros Hall. inversion Hall as [|? ? Hc Hs]; subst.
      rewrite Hc. f_equal. apply IH, Hs.
Qed.

(** The result of [normalize_string] is safe as an identifier and as a file
    name: it starts with an ASCII letter or an underscore, and each of its
    characters is a letter, a digit or an underscore. *)
Theorem normalize_string_identifier_safe (s : string) :
  exists r, normalize_string (JStr s) = Ok (JStr r) /\ identifier_safe r.
Proof.
  exists (normalize_str s). split; [reflexivity|]. split.
  - apply normalize_str_start.
  - apply sub_nonword_fixed_iff, normalize_str_fix.
Qed.

(** [normalize_string] leaves a string unchanged exactly when the string is
    safe already. *)
Theorem normalize_string_unchanged_iff (s : string) :
  normalize_string (JStr s) = Ok (JStr s) <-> identifier_safe s.
Proof.
  unfold identifier_safe. rewrite <- sub_nonword_fixed_iff. simpl. split.
  - intros Heq. injection Heq as Heq. split.
    + rewrite <- Heq. apply normalize_str_start.
    + rewrite <- Heq at 2. rewrite <- Heq at 1. apply normalize_str_fix.
  - intros [Hstart Hfix]. rewrite normalize_str_id by assumption. reflexivity.
Qed.

Lemma sub_nonword_length (s : string) :
  String.length (sub_nonword s) = String.length s.
Proof. induction s as [|c s IH]; simpl; [reflexivity | rewrite IH; reflexivity]. Qed.

(** [normalize_string] drops no character and adds at most one, ahead. *)
Theorem normalize_string_length (s : string) :
  exists r,
    normalize_string (JStr s) = Ok (JStr r)
    /\ (String.length s <= String.length r <= String.length s + 1)%nat.
Proof.
  exists (normalize_str s). split; [reflexivity|].
  unfold normalize_str, re_sub. destruct s as [|c s].
  - simpl. lia.
  - destruct (negb (nonword c) && digit c).
    + cbn [re_match_start]. replace (ascii_upper underscore || ascii_lower underscore
                                     || is_underscore underscore) with true by reflexivity.
      cbn [negb]. cbn [String.length]. rewrite sub_nonword_length. simpl. lia.
    + destruct (negb (re_match_start (sub_nonword (String c s))));
        cbn [String.length]; rewrite sub_nonword_length; simpl; lia.
Qed.

End TextMore.

(** [get_item] is safe, and is left as it is. *)
Lemma normalize_string_unchanged_iff_witness :
  text.normalize_string (H := spec_words.ascii_tables) (py.JStr "get_item")
  = py.Ok (py.JStr "get_item").
Proof.
  apply (normalize_string_unchanged_iff (H := spec_words.ascii_tables) "get_item").
  split; [reflexivity|]. repeat constructor.
Defined.

(** ** util/methods.py: parse_function_arguments *)

Section ArgumentsFacts.
Import py methods methods_words.

Lemma positional_default_spec (a : arguments) (i : nat) :
  (length (defaults a) <= length (args a))%nat ->
  defaults a <> [] ->
  positional_default a i
  = if (length (args a) - length (defaults a) <=? i)%nat
    then match defaults a !! (i - (length (args a) - length (defaults a)))%nat with
         | Some e => literal_eval e
         | None => Raise IndexError
         end
    else Ok JNull.
Proof.
  intros Hle Hne. unfold positional_default.
  destruct (defaults a) as [|d ds] eqn:Hd; [contradiction|]. cbn [is_nil].
  rewrite <- Hd in *. clear Hd d ds Hne.
  destruct (Z.geb_spec (Z.of_nat i)
              (Z.of_nat (length (args a)) - Z.of_nat (length (defaults a))))
    as [Hge|Hlt].
  - rewrite (proj2 (Nat.leb_le _ _)) by lia.
    replace (Z.to_nat (Z.of_nat i - (Z.of_nat (length (args a))
                                     - Z.of_nat (length (defaults a)))))
      with (i - (length (args a) - length (defaults a)))%nat by lia.
    reflexivity.
  - rewrite (proj2 (Nat.leb_gt _ _)) by lia. reflexivity.
Qed.

(** The loop over the positional arguments stops at the first default on
    which [ast.literal_eval] raises. *)
Lemma positional_loop_raises (a : arguments) (before after : list expr)
    (e : expr) (x : exn) (todo : list arg) (i : nat) (args_info : dict) :
  (length (defaults a) <= length (args a))%nat ->
  defaults a = before ++ e :: after ->
  Forall literal before ->
  expr_literal e = Raise x ->
  (i + length todo = length (args a))%nat ->
  (i <= length (args a) - length (defaults a) + length before)%nat ->
  positional_loop a i todo args_info = Raise x.
Proof.
  intros Hle Hsplit Hlit He. revert i args_info.
  assert (length (defaults a) = length before + S (length after))%nat as Hk
    by (rewrite Hsplit, length_app; reflexivity).
  induction todo as [|y todo IH]; intros i args_info Hlen Hij.
  - simpl in Hlen. lia.
  - cbn [positional_loop].
    rewrite positional_default_spec;
      [|exact Hle | rewrite Hsplit; intros Hnil; destruct before; discriminate Hnil].
    destruct (Nat.leb_spec (length (args a) - length (defaults a)) i) as [Hi|Hi].
    + destruct (decide (i = length (args a) - length (defaults a) + length before)%nat)
        as [Heq|Hne].
      * rewrite Hsplit at 2. rewrite list_lookup_middle by lia.
        unfold literal_eval. rewrite He. reflexivity.
      * rewrite Hsplit at 2. rewrite lookup_app_l by lia.
        destruct (before !! (i - (length (args a) - length (defaults a)))%nat)
          as [d|] eqn:Hd.
        -- destruct (Forall_lookup_1 _ _ _ _ Hlit Hd) as [v Hv].
           unfold literal_eval. rewrite Hv. cbn [bind].
           apply IH; simpl in Hlen; lia.
        -- apply lookup_ge_None in Hd. lia.
    + cbn [bind]. apply IH; simpl in Hlen; lia.
Qed.

Lemma first_failure (l : list expr) (e : expr) (x : exn) :
  In e l -> expr_literal e = Raise x ->
  exists before e' after x',
    l = before ++ e' :: after /\ Forall literal before
    /\ expr_literal e' = Raise x'.
Proof.
  induction l as [|d l IH]; intros Hin He; [destruct Hin|].
  destruct (expr_literal d) as [v|x0] eqn:Hd.
  - destruct Hin as [->|Hin]; [congruence|].
    destruct (IH Hin He) as (before & e' & after & x' & -> & Hlit & He').
    exists (d :: before), e', after, x'. split; [reflexivity|].
    split; [|exact He']. constructor; [exists v; exact Hd | exact Hlit].
  - exists [], d, l, x0. split; [reflexivity|]. split; [constructor | exact Hd].
Qed.

(** A default of a positional argument that is not a literal is refused:
    when no default belongs to a positional-only parameter,
    [parse_function_arguments] raises what [ast.literal_eval] raises on the
    first default that it does not accept, [ValueError] or [TypeError]; it
    returns no dictionary with a wrong value. *)
Theorem parse_function_arguments_non_literal_default (a : arguments) (e : expr)
    (x : exn) :
  (length (defaults a) <= length (args a))%nat ->
  In e (defaults a) ->
  expr_literal e = Raise x ->
  exists before e' after x',
    defaults a = before ++ e' :: after
    /\ Forall literal before
    /\ expr_literal e' = Raise x'
    /\ parse_function_arguments a = Raise x'.
Proof.
  intros Hle Hin He.
  destruct (first_failure (defaults a) e x Hin He)
    as (before & e' & after & x' & Hsplit & Hlit & He').
  exists before, e', after, x'. split; [exact Hsplit|]. split; [exact Hlit|].
  split; [exact He'|]. unfold parse_function_arguments.
  rewrite (positional_loop_raises a before after e' x' (args a) 0 []);
    try assumption; [reflexivity | reflexivity | lia].
Qed.

(** [def f(a={[1]: 2}, b=os.getcwd())]: the first default decides, and the
    exception is [TypeError]. *)
Lemma parse_function_arguments_non_literal_default_witness :
  parse_function_arguments unhashable_default_arguments = Raise TypeError.
Proof.
  destruct (parse_function_arguments_non_literal_default
              unhashable_default_arguments call_default ValueError)
    as (before & e' & after & x' & Hsplit & Hlit & He' & Hrun).
  - simpl. lia.
  - right. left. reflexivity.
  - reflexivity.
  - rewrite Hrun. destruct before as [|d before].
    + injection Hsplit as <- _. simpl in He'. congruence.
    + injection Hsplit as <- _. inversion Hlit as [|? ? [v Hv] _]; subst.
      discriminate Hv.
Defined.

End ArgumentsFacts.

Section ArgumentsDict.
Import py methods methods_words.

Lemma dict_set_fresh (k : pykey) (v : json) (d : dict) :
  k ∉ dict_keys d -> dict_set k v d = d ++ [(k, v)].
Proof.
  induction d as [|[k' v'] d IH]; intros Hk; simpl.
  - reflexivity.
  - unfold dict_keys in Hk. simpl in Hk. apply not_elem_of_cons in Hk.
    destruct Hk as [Hne Hk]. rewrite decide_False by congruence.
    rewrite IH by exact Hk. reflexivity.
Qed.

(** An update under fresh, distinct keys appends its entries. *)
Lemma dict_update_fresh (d new : dict) :
  NoDup (dict_keys d ++ dict_keys new) -> dict_update d new = d ++ new.
Proof.
  revert d. induction new as [|[k v] new IH]; intros d Hnd.
  - unfold dict_update. simpl. rewrite app_nil_r. reflexivity.
  - unfold dict_update. simpl. fold (dict_update (dict_set k v d) new).
    assert (k ∉ dict_keys d) as Hk.
    { apply NoDup_app in Hnd. destruct Hnd as (_ & Hdisj & _).
      intros Hin. apply (Hdisj k Hin). simpl. left. }
    rewrite dict_set_fresh by exact Hk. rewrite IH.
    + rewrite <- app_assoc. reflexivity.
    + unfold dict_keys in *. rewrite map_app. simpl.
      rewrite <- app_assoc. exact Hnd.
Qed.

Lemma positional_default_paired (a : arguments) (i : nat) :
  Forall literal (defaults a) ->
  (i < length (args a))%nat ->
  positional_default a i = Ok (paired_default a i).
Proof.
  intros Hlit Hi. unfold positional_default, paired_default.
  destruct (defaults a) as [|d ds] eqn:Hd; [reflexivity|].
  cbn [is_nil]. rewrite <- Hd in *. clear Hd d ds.
  destruct (Z.geb_spec (Z.of_nat i)
              (Z.of_nat (length (args a)) - Z.of_nat (length (defaults a))))
    as [Hge|Hlt].
  - rewrite reverse_lookup by lia.
    replace (length (defaults a) - S (length (args a) - 1 - i))%nat
      with (Z.to_nat (Z.of_nat i - (Z.of_nat (length (args a))
                                    - Z.of_nat (length (defaults a))))) by lia.
    destruct (defaults a !! _) as [e|] eqn:He.
    + destruct (Forall_lookup_1 _ _ _ _ Hlit He) as [v Hv].
      unfold literal_eval, literal_value. rewrite Hv. reflexivity.
    + apply lookup_ge_None in He. lia.
  - rewrite (proj2 (lookup_ge_None _ _)) by (rewrite length_reverse; lia).
    reflexivity.
Qed.

Lemma positional_loop_ok (a : arguments) (todo : list arg) (i : nat)
    (args_info : dict) :
  Forall literal (defaults a) ->
  (i + length todo = length (args a))%nat ->
  positional_loop a i todo args_info
  = Ok (dict_update args_info
          (imap (fun j x => (KStr (arg_name x), arg_info (paired_default a (i + j)) x))
             todo)).
Proof.
  intros Hlit. revert i args_info.
  induction todo as [|x todo IH]; intros i args_info Hlen.
  - reflexivity.
  - cbn [positional_loop].
    rewrite positional_default_paired by (assumption || (simpl in Hlen; lia)).
    cbn [bind]. rewrite IH by (simpl in Hlen; lia). rewrite imap_cons.
    assert (imap ((fun j x => (KStr (arg_name x),
                               arg_info (paired_default a (i + j)) x)) ∘ S) todo
            = imap (fun j x => (KStr (arg_name x),
                                arg_info (paired_default a (S i + j)) x)) todo)
      as -> by (apply imap_ext; intros j y _; simpl; repeat f_equal; lia).
    rewrite Nat.add_0_r. reflexivity.
Qed.

Lemma keyword_loop_ok (a : arguments) (todo : list arg) (i : nat)
    (args_info : dict) :
  length (kw_defaults a) = length (kwonlyargs a) ->
  Forall (fun o => match o with Some e => literal e | None => True end)
    (kw_defaults a) ->
  (i + length todo = length (kwonlyargs a))%nat ->
  keyword_loop a i todo args_info
  = Ok (dict_update args_info
          (imap (fun j x => (KStr (arg_name x),
                              arg_info (keyword_paired_default a (i + j)) x))
             todo)).
Proof.
  intros Hsame Hlit. revert i args_info.
  induction todo as [|x todo IH]; intros i args_info Hlen.
  - reflexivity.
  - cbn [keyword_loop].
    assert (keyword_default a i = Ok (keyword_paired_default a i)) as ->.
    { unfold keyword_default, keyword_paired_default.
      destruct (kw_defaults a) as [|d ds] eqn:Hd.
      - simpl in Hsame. simpl in Hlen. lia.
      - cbn [is_nil]. destruct ((d :: ds) !! i) as [[e|]|] eqn:He.
        + assert (literal e) as [v Hv].
          { apply (Forall_lookup_1 _ _ _ _ Hlit He). }
          unfold literal_eval, literal_value. rewrite Hv. reflexivity.
        + reflexivity.
        + apply lookup_ge_None in He. simpl in Hlen. lia. }
    cbn [bind]. rewrite IH by (simpl in Hlen; lia). rewrite imap_cons.
    assert (imap ((fun j x => (KStr (arg_name x),
                               arg_info (keyword_paired_default a (i + j)) x)) ∘ S)
              todo
            = imap (fun j x => (KStr (arg_name x),
                                arg_info (keyword_paired_default a (S i + j)) x)) todo)
      as -> by (apply imap_ext; intros j y _; simpl; repeat f_equal; lia).
    rewrite Nat.add_0_r. reflexivity.
Qed.

Lemma star_arg_update (o : option arg) (args_info : dict) :
  star_arg o args_info = dict_update args_info (star_entry o).
Proof. destruct o; reflexivity. Qed.

(** With literal defaults, [parse_function_arguments] returns one entry for
    each argument of [args] and of [kwonlyargs], for [*args] and for
    [**kwargs], in this order when the names differ; a positional-only
    parameter gets no entry.  The defaults are paired from the end: the last
    default goes to the last argument of [args], and an argument with no
    default left for it gets [None]. *)
Theorem parse_function_arguments_entries (a : arguments) :
  Forall literal (defaults a) ->
  length (kw_defaults a) = length (kwonlyargs a) ->
  Forall (fun o => match o with Some e => literal e | None => True end)
    (kw_defaults a) ->
  parse_function_arguments a = Ok (JDict (dict_update [] (argument_entries a)))
  /\ (NoDup (dict_keys (argument_entries a)) ->
      parse_function_arguments a = Ok (JDict (argument_entries a))).
Proof.
  intros Hlit Hsame Hkwlit.
  assert (parse_function_arguments a
          = Ok (JDict (dict_update [] (argument_entries a)))) as Hrun.
  { unfold parse_function_arguments, argument_entries.
    rewrite (positional_loop_ok a (args a) 0 []) by (assumption || lia).
    cbn [bind].
    rewrite (keyword_loop_ok a (kwonlyargs a) 0) by (assumption || lia).
    cbn [bind]. rewrite !star_arg_update, !dict_update_app. reflexivity. }
  split; [exact Hrun|]. intros Hnd. rewrite Hrun.
  rewrite dict_update_fresh; [reflexivity | exact Hnd].
Qed.

(** [def f(p=1, /, a=5, b: int = 2, *rest, key=None, **options)]: [p] has
    no entry, [a] has the default 5 and [b] the default 2. *)
Lemma parse_function_arguments_entries_witness :
  parse_function_arguments sample_arguments
  = Ok (JDict
          [(KStr "a", JDict [(KStr "default", JNum 5); (KStr "annotation", JNull)]);
           (KStr "b", JDict [(KStr "default", JNum 2);
                             (KStr "annotation", JStr "Name(id='int')")]);
           (KStr "key", JDict [(KStr "default", JNull); (KStr "annotation", JNull)]);
           (KStr "rest", JDict [(KStr "default", JNull); (KStr "annotation", JNull)]);
           (KStr "options", JDict [(KStr "default", JNull);
                                   (KStr "annotation", JNull)])]).
Proof.
  apply (parse_function_arguments_entries sample_arguments).
  - repeat constructor; eexists; reflexivity.
  - reflexivity.
  - repeat constructor. eexists. reflexivity.
  - compute_done.
Defined.

End ArgumentsDict.

(** ** util/methods.py: find_method_direct *)

Section DirectMore.
Import py methods finder_words examples direct_words.

Lemma direct_loop_exact (method_name_full module_name method_name : string)
    (expected_num : Z) (todo : list node) (methods l : list FoundMethod) :
  find_method_direct_loop method_name_full module_name method_name expected_num
    todo methods = Ok (Some l) ->
  Z.of_nat (length methods) < Z.max 1 expected_num ->
  Forall (direct_entry method_name_full module_name method_name) methods ->
  Z.of_nat (length l) = Z.max 1 expected_num
  /\ Forall (direct_entry method_name_full module_name method_name) l.
Proof.
  revert methods. induction todo as [|n todo IH]; intros methods Hl Hlen Hall.
  - discriminate Hl.
  - destruct n as [name body|name a doc body|children]; simpl in Hl.
    + eapply IH; eassumption.
    + destruct (bool_decide (name = method_name)) eqn:Hname; [|eapply IH; eassumption].
      apply bool_decide_eq_true in Hname.
      destruct (parse_function_arguments a) as [params|e] eqn:Hparams;
        [|discriminate Hl].
      simpl in Hl.
      assert (Forall (direct_entry method_name_full module_name method_name)
                (methods ++ [mkFoundMethod method_name_full
                               (FunctionDef name a doc body) module_name None doc
                               params])) as Hall'.
      { apply Forall_app. split; [exact Hall|]. constructor; [|constructor].
        repeat split; assumption. }
      destruct (Z.geb_spec (Z.of_nat (length (methods ++ [mkFoundMethod
                    method_name_full (FunctionDef name a doc body) module_name
                    None doc params]))) expected_num) as [Hge|Hlt].
      * inversion Hl; subst l. split; [|exact Hall'].
        rewrite length_app in *. simpl in *. lia.
      * eapply IH; [exact Hl| |exact Hall'].
        rewrite length_app in *. simpl in *. lia.
    + eapply IH; eassumption.
Qed.

(** A list returned by [find_method_direct] holds exactly [expected_num]
    entries, one entry when [expected_num] is below 1.  Each of them is a
    definition of the function in the module, recorded under the full name,
    with no class, with its docstring and its parsed arguments. *)
Theorem find_method_direct_exact (w : World)
    (method_name_full module_name method_name : string) (expected_num : Z)
    (l : list FoundMethod) :
  rsplit_dot method_name_full = Some (module_name, method_name) ->
  find_method_direct w method_name_full expected_num = Ok (Some l) ->
  Z.of_nat (length l) = Z.max 1 expected_num
  /\ Forall (direct_entry method_name_full (requests_special_case module_name)
               method_name) l.
Proof.
  intros Hsplit Hrun. unfold find_method_direct in Hrun. rewrite Hsplit in Hrun.
  destruct (parse_module w (requests_special_case module_name)) as [parsed|e];
    [|discriminate Hrun].
  cbn [bind] in Hrun. eapply direct_loop_exact; [exact Hrun| |constructor].
  simpl. lia.
Qed.

Lemma find_method_direct_exact_witness :
  exists l,
    find_method_direct two_files_world "pkg.circles.area" 0 = Ok (Some l)
    /\ Z.of_nat (length l) = 1
    /\ Forall (direct_entry "pkg.circles.area" "pkg.circles" "area") l.
Proof.
  eexists. split; [reflexivity|].
  apply (find_method_direct_exact two_files_world "pkg.circles.area"
           "pkg.circles" "area" 0); reflexivity.
Defined.

Lemma rsplit_dot_no_dot (s : string) : no_dot s -> rsplit_dot s = None.
Proof.
  unfold no_dot. induction s as [|c s IH]; intros Hs; [reflexivity|].
  simpl in *. inversion Hs as [|? ? Hc Hrest]; subst.
  rewrite IH by exact Hrest. rewrite bool_decide_eq_false_2 by exact Hc.
  reflexivity.
Qed.

Lemma rsplit_dot_last (module_name method_name : string) :
  no_dot method_name ->
  rsplit_dot (module_name +:+ "." +:+ method_name) = Some (module_name, method_name).
Proof.
  intros Hm. induction module_name as [|c module_name IH].
  - simpl. rewrite rsplit_dot_no_dot by exact Hm. reflexivity.
  - change (String c module_name +:+ "." +:+ method_name)
      with (String c (module_name +:+ "." +:+ method_name)).
    cbn [rsplit_dot]. rewrite IH. reflexivity.
Qed.

Lemma direct_loop_members (method_name_full module_name method_name : string)
    (expected_num : Z) (all : list node) (todo : list node)
    (methods l : list FoundMethod) :
  find_method_direct_loop method_name_full module_name method_name expected_num
    todo methods = Ok (Some l) ->
  (forall n, In n todo -> In n all) ->
  Forall (fun m => package_name m = module_name /\ In (func_def m) all
                   /\ is_def_of method_name (func_def m) = true) methods ->
  Forall (fun m => package_name m = module_name /\ In (func_def m) all
                   /\ is_def_of method_name (func_def m) = true) l.
Proof.
  revert methods. induction todo as [|n todo IH]; intros methods Hl Hsub Hall.
  - discriminate Hl.
  - assert (forall n', In n' todo -> In n' all) as Hsub'
      by (intros n' Hn'; apply Hsub; right; exact Hn').
    destruct n as [name body|name a doc body|children]; simpl in Hl.
    + eapply IH; eassumption.
    + destruct (bool_decide (name = method_name)) eqn:Hname;
        [|eapply IH; eassumption].
      destruct (parse_function_arguments a) as [params|e]; [|discriminate Hl].
      simpl in Hl.
      assert (Forall (fun m => package_name m = module_name /\ In (func_def m) all
                               /\ is_def_of method_name (func_def m) = true)
                (methods ++ [mkFoundMethod method_name_full
                               (FunctionDef name a doc body) module_name None doc
                               params])) as Hall'.
      { apply Forall_app. split; [exact Hall|]. constructor; [|constructor].
        split; [reflexivity|]. split; [apply Hsub; left; reflexivity | exact Hname]. }
      destruct (Z.of_nat (length (methods ++ [mkFoundMethod method_name_full
                  (FunctionDef name a doc body) module_name None doc params]))
                >=? expected_num).
      * inversion Hl; subst l. exact Hall'.
      * eapply IH; eassumption.
    + eapply IH; eassumption.
Qed.

Lemma find_method_direct_reads (w : World) (expected_num : Z)
    (method_name_full module_name method_name read : string) :
  rsplit_dot method_name_full = Some (module_name, method_name) ->
  requests_special_case module_name = read ->
  reads_module w method_name_full expected_num read method_name.
Proof.
  intros Hsplit Hread. split; [|split].
  - intros e Hraise. unfold find_method_direct. rewrite Hsplit. cbv zeta.
    rewrite Hread, Hraise. reflexivity.
  - intros w' Hsame. unfold find_method_direct. rewrite Hsplit. cbv zeta.
    rewrite Hread, Hsame. reflexivity.
  - intros l Hrun. unfold find_method_direct in Hrun. rewrite Hsplit in Hrun.
    cbv zeta in Hrun. rewrite Hread in Hrun.
    destruct (parse_module w read) as [parsed|e]; [|discriminate Hrun].
    cbn [bind] in Hrun. exists parsed. split; [reflexivity|].
    eapply direct_loop_members; [exact Hrun| |constructor].
    intros n Hn. exact Hn.
Qed.

(** [find_method_direct] splits the full name at its last dot, reads the
    module named before that dot and looks there for the function named
    after it.  For the module [requests] it reads [requests.api] instead,
    and records that name as the package.  A name without a dot raises
    [ValueError] before any module is read. *)
Theorem find_method_direct_resolution (w : World) (expected_num : Z)
    (module_name method_name : string) :
  no_dot method_name ->
  (module_name <> "requests" ->
   reads_module w (module_name +:+ "." +:+ method_name) expected_num
     module_name method_name)
  /\ reads_module w ("requests" +:+ "." +:+ method_name) expected_num
       "requests.api" method_name
  /\ find_method_direct w method_name expected_num = Raise ValueError.
Proof.
  intros Hm. split; [|split].
  - intros Hne. eapply find_method_direct_reads.
    + apply rsplit_dot_last, Hm.
    + unfold requests_special_case.
      rewrite bool_decide_eq_false_2 by exact Hne. reflexivity.
  - eapply find_method_direct_reads.
    + apply rsplit_dot_last, Hm.
    + reflexivity.
  - unfold find_method_direct. rewrite rsplit_dot_no_dot by exact Hm. reflexivity.
Qed.

(** [requests.get] is looked up in [requests.api], in a world where the
    source of [requests] itself cannot be read; [pkg.circles.area] in
    [pkg.circles]; [get] alone nowhere. *)
Lemma find_method_direct_resolution_witness :
  parse_module methods_words.modules_world "requests" = Raise ImportError
  /\ (exists l parsed_content,
        find_method_direct methods_words.modules_world ("requests" +:+ "." +:+ "get") 1
        = Ok (Some l)
        /\ length l = 1%nat
        /\ parse_module methods_words.modules_world "requests.api" = Ok parsed_content
        /\ Forall (fun m => package_name m = "requests.api"
                            /\ In (func_def m) (walk parsed_content)
                            /\ is_def_of "get" (func_def m) = true) l)
  /\ (exists l parsed_content,
        find_method_direct two_files_world ("pkg.circles" +:+ "." +:+ "area") 1
        = Ok (Some l)
        /\ parse_module two_files_world "pkg.circles" = Ok parsed_content
        /\ Forall (fun m => package_name m = "pkg.circles"
                            /\ In (func_def m) (walk parsed_content)
                            /\ is_def_of "area" (func_def m) = true) l)
  /\ find_method_direct methods_words.modules_world "get" 1 = Raise ValueError.
Proof.
  assert (no_dot "get") as Hget by (repeat constructor; discriminate).
  assert (no_dot "area") as Harea by (repeat constructor; discriminate).
  split; [reflexivity|]. split; [|split].
  - destruct (find_method_direct_resolution methods_words.modules_world 1
                "requests" "get" Hget) as (_ & (_ & _ & Hfound) & _).
    destruct (Hfound _ eq_refl) as (parsed & Hparsed & Hall).
    eexists _, parsed. split; [reflexivity|]. split; [reflexivity|].
    split; [exact Hparsed | exact Hall].
  - destruct (find_method_direct_resolution two_files_world 1
                "pkg.circles" "area" Harea) as (Hreads & _).
    destruct (Hreads ltac:(discriminate)) as (_ & _ & Hfound).
    destruct (Hfound _ eq_refl) as (parsed & Hparsed & Hall).
    eexists _, parsed. split; [reflexivity|]. split; [exact Hparsed | exact Hall].
  - apply (find_method_direct_resolution methods_words.modules_world 1
             "requests" "get" Hget).
Defined.

End DirectMore.

(** ** util/methods.py: find_method_in_packages *)

Section Prefix.
Import py methods finder_words examples.
Variables (w : World) (method_name : string) (class_name : option string)
  (expected_num : Z).

Lemma limit_reached_app (pre l : list FoundMethod) :
  limit_reached l expected_num = true ->
  limit_reached (pre ++ l) expected_num = true.
Proof.
  unfold limit_reached. rewrite !andb_true_iff. intros [Hge Hne].
  split; [|exact Hne]. rewrite length_app.
  destruct (Z.geb_spec (Z.of_nat (length l)) expected_num); [|discriminate Hge].
  destruct (Z.geb_spec (Z.of_nat (length pre + length l)) expected_num);
    [reflexivity | lia].
Qed.

Ltac app_refl :=
  first [ reflexivity
        | rewrite !app_assoc; reflexivity
        | rewrite <- !app_assoc; reflexivity ].

Lemma cut_short_shift (methods pre full l : list FoundMethod) :
  cut_short expected_num (methods ++ pre) full l ->
  cut_short expected_num methods (pre ++ full) l.
Proof.
  intros (found & rest & -> & -> & Hlim). exists (pre ++ found), rest.
  split; [app_refl|]. split; [app_refl | exact Hlim].
Qed.

Lemma cut_short_more (methods full more l : list FoundMethod) :
  cut_short expected_num methods full l ->
  cut_short expected_num methods (full ++ more) l.
Proof.
  intros (found & rest & -> & -> & Hlim). exists found, (rest ++ more).
  split; [app_refl|]. split; [app_refl | exact Hlim].
Qed.

Lemma scan_body_prefix (package_name node_name : string) (items : list node)
    (methods : list FoundMethod) :
  match scan_body package_name method_name class_name expected_num node_name
          items methods with
  | Next l =>
      l = methods ++ body_methods method_name class_name package_name node_name items
  | Return l =>
      cut_short expected_num methods
        (body_methods method_name class_name package_name node_name items) l
  end.
Proof.
  unfold body_methods. destruct (other_class class_name node_name) eqn:Hother.
  - revert methods. induction items as [|item items IH]; intros methods; simpl.
    + rewrite app_nil_r. reflexivity.
    + rewrite Hother. apply IH.
  - revert methods. induction items as [|item items IH]; intros methods.
    + simpl. rewrite app_nil_r. reflexivity.
    + cbn [scan_body flat_map]. rewrite Hother.
      destruct item as [name body|name a doc body|children]; try apply IH.
      destruct (name_matches method_name name); [|apply IH].
      destruct (limit_reached _ expected_num) eqn:Hlim.
      * eexists _, _. split; [reflexivity|]. split; [reflexivity | exact Hlim].
      * specialize (IH (methods ++ [mkFoundMethod name (FunctionDef name a doc body)
                                      package_name (Some node_name) doc JNull])).
        destruct (scan_body _ _ _ _ _ _ _) as [l|l].
        -- rewrite IH, <- app_assoc. reflexivity.
        -- apply cut_short_shift. exact IH.
Qed.

(** The scan of the nodes of a file: all the matches, or a prefix of them
    cut where the limit was reached. *)
Lemma scan_nodes_prefix (package_name : string) (nodes : list node)
    (methods : list FoundMethod) :
  let l := scan_nodes package_name method_name class_name expected_num nodes
             methods in
  let full := flat_map (class_methods method_name class_name package_name) nodes in
  l = methods ++ full \/ cut_short expected_num methods full l.
Proof.
  revert methods. induction nodes as [|n nodes IH]; intros methods; simpl.
  - left. rewrite app_nil_r. reflexivity.
  - destruct n as [name body|name a doc body|children]; simpl; try apply IH.
    pose proof (scan_body_prefix package_name name body methods) as Hbody.
    destruct (scan_body _ _ _ _ _ _ _) as [l|l].
    + subst l. destruct (IH (methods ++ body_methods method_name class_name
                                          package_name name body)) as [Hall|Hcut].
      * left. rewrite Hall, <- app_assoc. reflexivity.
      * right. apply cut_short_shift. exact Hcut.
    + right. apply cut_short_more. exact Hbody.
Qed.

Lemma scan_files_prefix (package_name root : string) (files : list string)
    (methods : list FoundMethod) (log : Log) :
  (forall file, In file files -> endswith file ".py" = true ->
                exists parsed_content,
                  parse_file w (path_join root file) = Ok parsed_content) ->
  exists r,
    scan_files w package_name method_name class_name expected_num root files
      methods log = (Ok r, log)
    /\ match r with
       | Next l =>
           l = methods ++ flat_map (source_methods w method_name class_name
                                      package_name root) files
       | Return l =>
           cut_short expected_num methods
             (flat_map (source_methods w method_name class_name package_name root)
                files) l
       end.
Proof.
  revert methods. induction files as [|file files IH]; intros methods Hparse.
  - eexists. split; [reflexivity|]. simpl. rewrite app_nil_r. reflexivity.
  - cbn [scan_files flat_map]. unfold source_methods at 1 3.
    destruct (endswith file ".py") eqn:Hpy.
    + destruct (Hparse file (or_introl eq_refl) Hpy) as [parsed Hparsed].
      unfold st_bind, _find_methods_in_file. rewrite Hparsed.
      cbn [st_ret st_lift iadd].
      pose proof (scan_nodes_prefix package_name (walk parsed) []) as Hfile.
      cbv zeta in Hfile. fold (file_methods method_name class_name package_name parsed)
        in Hfile.
      set (l := scan_nodes package_name method_name class_name expected_num
                  (walk parsed) []) in *.
      destruct (limit_reached (methods ++ l) expected_num) eqn:Hlim.
      * eexists. split; [reflexivity|]. cbn [st_ret].
        destruct Hfile as [Hall|(found & rest & Hl & Hfull & _)].
        -- exists l, (flat_map (source_methods w method_name class_name
                                 package_name root) files).
           split; [reflexivity|]. split; [rewrite Hall; reflexivity | exact Hlim].
        -- simpl in Hl. exists found, (rest ++ flat_map (source_methods w method_name
                                          class_name package_name root) files).
           split; [rewrite Hl; reflexivity|].
           split; [rewrite Hfull; app_refl | exact Hlim].
      * destruct Hfile as [Hall|(found & rest & Hl & Hfull & Hcut)].
        -- simpl in Hall. rewrite Hall.
           destruct (IH (methods ++ file_methods method_name class_name
                                      package_name parsed)) as (r & Hrun & Hr).
           { intros f Hf. apply Hparse. right. exact Hf. }
           exists r. split; [exact Hrun|]. destruct r as [l'|l'].
           ++ rewrite Hr, <- app_assoc. reflexivity.
           ++ apply cut_short_shift. exact Hr.
        -- apply (limit_reached_app methods) in Hcut. congruence.
    + destruct (IH methods) as (r & Hrun & Hr).
      { intros f Hf. apply Hparse. right. exact Hf. }
      exists r. split; [exact Hrun | exact Hr].
Qed.

Lemma scan_dirs_prefix (package_name : string)
    (dirs : list (string * list string * list string))
    (methods : list FoundMethod) (log : Log) :
  (forall root sub files file, In (root, sub, files) dirs -> In file files ->
     endswith file ".py" = true ->
     exists parsed_content, parse_file w (path_join root file) = Ok parsed_content) ->
  let full := flat_map (fun d => flat_map (source_methods w method_name class_name
                                             package_name d.1.1) d.2) dirs in
  exists l,
    scan_dirs w package_name method_name class_name expected_num dirs methods log
    = (Ok l, log)
    /\ (l = methods ++ full \/ cut_short expected_num methods full l).
Proof.
  revert methods. induction dirs as [|[[root sub] files] dirs IH];
    intros methods Hparse full.
  - eexists. split; [reflexivity|]. left. subst full. simpl.
    rewrite app_nil_r. reflexivity.
  - subst full. cbn [scan_dirs flat_map fst snd]. unfold st_bind.
    destruct (scan_files_prefix package_name root files methods log)
      as (r & Hrun & Hr).
    { intros file Hf Hpy.
      apply (Hparse root sub files file); [left; reflexivity|exact Hf|exact Hpy]. }
    rewrite Hrun. destruct r as [l|l].
    + subst l. destruct (IH (methods ++ flat_map (source_methods w method_name
                               class_name package_name root) files)) as (l & Hl & Hout).
      { intros r s f file Hd. apply (Hparse r s f file). right. exact Hd. }
      exists l. split; [exact Hl|]. destruct Hout as [Hall|Hcut].
      * left. rewrite Hall, <- app_assoc. reflexivity.
      * right. apply cut_short_shift. exact Hcut.
    + exists l. split; [reflexivity|]. right. apply cut_short_more. exact Hr.
Qed.

Lemma scan_packages_prefix (package_names : list string)
    (methods : list FoundMethod) (log : Log) :
  Forall (package_readable w) package_names ->
  exists r log',
    scan_packages w method_name class_name expected_num package_names methods log
    = (Ok r, log')
    /\ match r with
       | Next l => l = methods ++ all_methods w method_name class_name package_names
       | Return l =>
           cut_short expected_num methods
             (all_methods w method_name class_name package_names) l
       end.
Proof.
  revert methods log.
  induction package_names as [|package_name package_names IH];
    intros methods log Hread.
  - eexists _, _. split; [reflexivity|]. simpl. rewrite app_nil_r. reflexivity.
  - inversion Hread as [|? ? Hp Hrest]; subst.
    cbn [scan_packages]. unfold all_methods. cbn [flat_map].
    fold (all_methods w method_name class_name package_names).
    unfold installed_methods at 1 2. unfold st_bind at 1, st_lift at 1.
    destruct Hp as [Hnone|(package_spec & package_path & Hspec & Hpath & Hparse)].
    + rewrite Hnone. unfold st_bind at 1, logger_error, st_modify.
      destruct (IH methods (log ++ ["Package " +:+ package_name +:+ " not found"])
                  Hrest) as (r & log' & Hrun & Hr).
      exists r, log'. split; [exact Hrun | exact Hr].
    + rewrite Hspec. unfold st_bind at 1, st_lift at 1. rewrite Hpath.
      unfold st_bind at 1, _find_methods_in_package.
      destruct (scan_dirs_prefix package_name (os_walk w package_path) [] log)
        as (found & Hfound & Hout).
      { intros root sub files file Hd Hf Hpy.
        apply (Hparse root sub files file); assumption. }
      rewrite Hfound. fold (package_methods w method_name class_name package_name
                              package_path) in Hout.
      destruct (limit_reached (methods ++ found) expected_num) eqn:Hlim.
      * eexists _, _. split; [reflexivity|].
        destruct Hout as [Hall|(found' & rest & Hl & Hfull & _)].
        -- simpl in Hall. exists found, (all_methods w method_name class_name
                                           package_names).
           split; [reflexivity|]. split; [rewrite Hall; reflexivity | exact Hlim].
        -- simpl in Hl. exists found', (rest ++ all_methods w method_name class_name
                                                  package_names).
           split; [rewrite Hl; reflexivity|].
           split; [rewrite Hfull; app_refl | exact Hlim].
      * destruct Hout as [Hall|(found' & rest & Hl & Hfull & Hcut)].
        -- simpl in Hall. rewrite Hall.
           destruct (IH (methods ++ package_methods w method_name class_name
                                      package_name package_path) log Hrest)
             as (r & log' & Hrun & Hr).
           exists r, log'. split; [exact Hrun|]. destruct r as [l'|l'].
           ++ rewrite Hr, <- app_assoc. reflexivity.
           ++ apply cut_short_shift. exact Hr.
        -- apply (limit_reached_app methods) in Hcut. congruence.
Qed.

(** When every package is readable (not installed, or with a source root
    whose [.py] files all parse), [find_method_in_packages] returns a prefix
    of all the matches in discovery order: packages in the order given,
    files in the order of [os.walk], definitions in the order of [ast.walk].
    The prefix is the whole list unless the limit is reached; with
    [expected_num = -1] it is always the whole list. *)
Theorem find_method_in_packages_prefix (package_names : list string) (log : Log) :
  Forall (package_readable w) package_names ->
  exists methods rest log',
    find_method_in_packages w package_names method_name class_name expected_num log
    = (Ok methods, log')
    /\ all_methods w method_name class_name package_names = methods ++ rest
    /\ (rest = []
        \/ (expected_num <> -1 /\ expected_num <= Z.of_nat (length methods))).
Proof.
  intros Hread. unfold find_method_in_packages, st_bind.
  destruct (scan_packages_prefix package_names [] log Hread)
    as (r & log' & Hrun & Hr).
  rewrite Hrun. destruct r as [l|l].
  - simpl in Hr. exists l, []. destruct (is_nil l); eexists;
      (split; [reflexivity|]); (split; [rewrite app_nil_r; symmetry; exact Hr|]);
      left; reflexivity.
  - destruct Hr as (found & rest & Hl & Hfull & Hlim). simpl in Hl. subst found.
    exists l, rest, log'. split; [reflexivity|]. split; [exact Hfull|]. right.
    unfold limit_reached in Hlim. apply andb_prop in Hlim. destruct Hlim as [Hge Hne].
    apply negb_true_iff, Z.eqb_neq in Hne. split; [exact Hne|].
    destruct (Z.geb_spec (Z.of_nat (length l)) expected_num); [lia|discriminate Hge].
Qed.

End Prefix.

Section FinderMore.
Import py methods finder_words finder_entries examples.

(** In [pkg], whose two files parse, a limit of 2 returns the three matches,
    all there are, and a limit of 1 the first of them. *)
Lemma find_method_in_packages_prefix_witness :
  (exists methods rest log',
      find_method_in_packages two_files_world ["pkg"] "*" None 1 []
      = (Ok methods, log')
      /\ all_methods two_files_world "*" None ["pkg"] = methods ++ rest
      /\ (rest = [] \/ (1 <> -1 /\ 1 <= Z.of_nat (length methods))))
  /\ length (all_methods two_files_world "*" None ["pkg"]) = 3%nat.
Proof.
  split; [|reflexivity].
  apply (find_method_in_packages_prefix two_files_world "*" None 1 ["pkg"] []).
  constructor; [|constructor]. right. exists pkg_spec, "/site/pkg".
  split; [reflexivity|]. split; [reflexivity|].
  intros root dirs files file Hd Hf Hpy. simpl in Hd.
  destruct Hd as [Hd|[]]. injection Hd as <- <- <-.
  destruct Hf as [<-|[<-|[]]]; eexists; reflexivity.
Defined.

Section Sound.
Variables (w : World) (method_name : string) (class_name : option string)
  (expected_num : Z).

Lemma scan_body_sound (package_name node_name : string) (items : list node)
    (methods : list FoundMethod) :
  Forall (scanned_entry method_name class_name package_name) methods ->
  match scan_body package_name method_name class_name expected_num node_name
          items methods with
  | Next l | Return l => Forall (scanned_entry method_name class_name package_name) l
  end.
Proof.
  revert methods. induction items as [|item items IH]; intros methods Hall.
  - exact Hall.
  - cbn [scan_body]. destruct (other_class class_name node_name) eqn:Hother;
      [apply IH, Hall|].
    destruct item as [name body|name a doc body|children]; try (apply IH, Hall).
    destruct (name_matches method_name name) eqn:Hname; [|apply IH, Hall].
    assert (Forall (scanned_entry method_name class_name package_name)
              (methods ++ [mkFoundMethod name (FunctionDef name a doc body)
                             package_name (Some node_name) doc JNull])) as Hall'.
    { apply Forall_app. split; [exact Hall|]. constructor; [|constructor].
      split; [reflexivity|]. split; [reflexivity|]. split; [exact Hname|].
      exists node_name, a, body. split; [reflexivity|].
      split; [exact Hother | reflexivity]. }
    destruct (limit_reached _ expected_num); [exact Hall' | apply IH, Hall'].
Qed.

Lemma scan_nodes_sound (package_name : string) (nodes : list node)
    (methods : list FoundMethod) :
  Forall (scanned_entry method_name class_name package_name) methods ->
  Forall (scanned_entry method_name class_name package_name)
    (scan_nodes package_name method_name class_name expected_num nodes methods).
Proof.
  revert methods. induction nodes as [|n nodes IH]; intros methods Hall.
  - exact Hall.
  - destruct n as [name body|name a doc body|children]; simpl; try (apply IH, Hall).
    pose proof (scan_body_sound package_name name body methods Hall) as Hbody.
    destruct (scan_body _ _ _ _ _ _ _); [apply IH, Hbody | exact Hbody].
Qed.

Lemma scan_files_sound (package_name root : string) (files : list string)
    (methods : list FoundMethod) (log log' : Log) (r : flow (list FoundMethod)) :
  Forall (scanned_entry method_name class_name package_name) methods ->
  scan_files w package_name method_name class_name expected_num root files
    methods log = (Ok r, log') ->
  match r with
  | Next l | Return l => Forall (scanned_entry method_name class_name package_name) l
  end.
Proof.
  revert methods log. induction files as [|file files IH]; intros methods log Hall Hr.
  - inversion Hr; subst. exact Hall.
  - simpl in Hr. destruct (endswith file ".py"); [|eapply IH; eassumption].
    unfold st_bind, _find_methods_in_file in Hr.
    destruct (parse_file w (path_join root file)) as [parsed|[]];
      try discriminate Hr.
    cbn [st_ret st_lift iadd] in Hr.
    assert (Forall (scanned_entry method_name class_name package_name)
              (methods ++ scan_nodes package_name method_name class_name
                            expected_num (walk parsed) [])) as Hall'
      by (apply Forall_app; split; [exact Hall | apply scan_nodes_sound; constructor]).
    destruct (limit_reached _ expected_num).
    + inversion Hr; subst. exact Hall'.
    + eapply IH; eassumption.
Qed.

Lemma scan_dirs_sound (package_name : string)
    (dirs : list (string * list string * list string))
    (methods l : list FoundMethod) (log log' : Log) :
  Forall (scanned_entry method_name class_name package_name) methods ->
  scan_dirs w package_name method_name class_name expected_num dirs methods log
    = (Ok l, log') ->
  Forall (scanned_entry method_name class_name package_name) l.
Proof.
  revert methods log. induction dirs as [|[[root sub] files] dirs IH];
    intros methods log Hall Hr.
  - inversion Hr; subst. exact Hall.
  - simpl in Hr. unfold st_bind in Hr.
    destruct (scan_files _ _ _ _ _ _ _ _ log) as [[r|e] log1] eqn:Hfiles;
      [|discriminate Hr].
    apply scan_files_sound in Hfiles; [|exact Hall].
    destruct r as [l1|l1].
    + eapply IH; eassumption.
    + inversion Hr; subst. exact Hfiles.
Qed.

Lemma scan_packages_sound (package_names all_names : list string)
    (methods : list FoundMethod) (log log' : Log) (r : flow (list FoundMethod)) :
  (forall p, In p package_names -> In p all_names) ->
  Forall (fun m => exists p, In p all_names
                             /\ scanned_entry method_name class_name p m) methods ->
  scan_packages w method_name class_name expected_num package_names methods log
    = (Ok r, log') ->
  match r with
  | Next l | Return l =>
      Forall (fun m => exists p, In p all_names
                                 /\ scanned_entry method_name class_name p m) l
  end.
Proof.
  revert methods log. induction package_names as [|package_name package_names IH];
    intros methods log Hsub Hall Hr.
  - inversion Hr; subst. exact Hall.
  - simpl in Hr. unfold st_bind, st_lift in Hr.
    destruct (find_spec w package_name) as [[package_spec|]|e];
      [| |discriminate Hr].
    + destruct (first_location package_spec) as [package_path|e];
        [|discriminate Hr].
      destruct (_find_methods_in_package _ _ _ _ _ _ log) as [[found|e] log1]
        eqn:Hpkg; [|discriminate Hr].
      apply scan_dirs_sound in Hpkg; [|constructor].
      assert (Forall (fun m => exists p, In p all_names
                                /\ scanned_entry method_name class_name p m)
                (methods ++ found)) as Hall'.
      { apply Forall_app. split; [exact Hall|].
        eapply Forall_impl; [exact Hpkg|]. intros m Hm. exists package_name.
        split; [apply Hsub; left; reflexivity | exact Hm]. }
      destruct (limit_reached (methods ++ found) expected_num).
      * inversion Hr; subst. exact Hall'.
      * eapply IH; [|exact Hall'|exact Hr]. intros p Hp. apply Hsub. right. exact Hp.
    + simpl in Hr. eapply IH; [|exact Hall|exact Hr].
      intros p Hp. apply Hsub. right. exact Hp.
Qed.

(** Every entry that [find_method_in_packages] returns is a function
    definition found as a direct child of a class in one of the packages
    given: its name is the method name asked for, or any name under the
    wildcard; its class is the class asked for, if one is; its docstring is
    that of the definition and its [parameters] are [None]. *)
Theorem find_method_in_packages_sound (package_names : list string)
    (log log' : Log) (methods : list FoundMethod) :
  find_method_in_packages w package_names method_name class_name expected_num log
    = (Ok methods, log') ->
  Forall (fun m => exists package_name,
                     In package_name package_names
                     /\ scanned_entry method_name class_name package_name m)
    methods.
Proof.
  unfold find_method_in_packages, st_bind. intros Hr.
  destruct (scan_packages _ _ _ _ _ _ log) as [[r|e] log1] eqn:Hscan;
    [|discriminate Hr].
  apply (scan_packages_sound package_names package_names) in Hscan;
    [|intros p Hp; exact Hp|constructor].
  destruct r as [l|l].
  - destruct (is_nil l); simpl in Hr; inversion Hr; subst; exact Hscan.
  - inversion Hr; subst. exact Hscan.
Qed.

End Sound.

Lemma find_method_in_packages_sound_witness :
  exists methods,
    find_method_in_packages two_files_world ["pkg"] "area" (Some "Circle") 1 []
    = (Ok methods, [])
    /\ Forall (fun m => exists package_name,
                 In package_name ["pkg"]
                 /\ scanned_entry "area" (Some "Circle") package_name m) methods
    /\ length methods = 1%nat.
Proof.
  eexists. split; [reflexivity|]. split; [|reflexivity].
  apply (find_method_in_packages_sound two_files_world "area" (Some "Circle") 1
           ["pkg"] [] []).
  reflexivity.
Defined.

(** When none of the packages is installed, [find_method_in_packages]
    returns the empty list, whatever the limit, after one record per package
    and a last one saying that the method cannot be located. *)
Theorem find_method_in_packages_none_installed (w : World)
    (package_names : list string) (method_name : string)
    (class_name : option string) (expected_num : Z) (log : Log) :
  Forall (fun p => find_spec w p = Ok None) package_names ->
  find_method_in_packages w package_names method_name class_name expected_num log
  = (Ok [], log ++ map not_found package_names ++ [not_located method_name]).
Proof.
  intros Hnone. unfold find_method_in_packages, st_bind.
  assert (forall log0, scan_packages w method_name class_name expected_num
                         package_names [] log0
                       = (Ok (Next []), log0 ++ map not_found package_names)) as ->.
  { induction Hnone as [|p ps Hp _ IH]; intros log0.
    - simpl. rewrite app_nil_r. reflexivity.
    - cbn [scan_packages]. unfold st_bind, st_lift. rewrite Hp.
      cbn [logger_error st_modify]. rewrite IH. cbn [map].
      rewrite <- app_assoc. reflexivity. }
  cbn [is_nil]. unfold logger_error, st_modify, st_ret.
  rewrite <- app_assoc. reflexivity.
Qed.

Lemma find_method_in_packages_none_installed_witness :
  find_method_in_packages empty_world ["numpy"; "scipy"] "dot" None 1 []
  = (Ok [],
     ["Package numpy not found"; "Package scipy not found";
      "Error: Method dot cannot be located in known packages."]).
Proof.
  apply (find_method_in_packages_none_installed empty_world ["numpy"; "scipy"]
           "dot" None 1 []).
  repeat constructor.
Defined.

(** With a positive limit or none, an empty result is always reported: the
    last record of the log says that the method cannot be located. *)
Theorem find_method_in_packages_empty_is_logged (w : World)
    (package_names : list string) (method_name : string)
    (class_name : option string) (expected_num : Z) (log log' : Log) :
  1 <= expected_num \/ expected_num = -1 ->
  find_method_in_packages w package_names method_name class_name expected_num log
    = (Ok [], log') ->
  exists log1, log' = log1 ++ [not_located method_name].
Proof.
  intros Hnum. unfold find_method_in_packages, st_bind. intros Hr.
  destruct (scan_packages _ _ _ _ _ _ log) as [[[l|l]|e] log1] eqn:Hscan;
    [| |discriminate Hr].
  - destruct l as [|m l]; cbn [is_nil] in Hr.
    + unfold logger_error, st_modify, st_ret in Hr. inversion Hr; subst.
      exists log1. reflexivity.
    + inversion Hr.
  - inversion Hr; subst.
    assert (limit_reached [] expected_num = true) as Hlim.
    { clear Hr. revert log Hscan. generalize (@nil FoundMethod) at 1 as methods.
      induction package_names as [|p ps IH]; intros methods log Hscan.
      - inversion Hscan.
      - simpl in Hscan. unfold st_bind, st_lift in Hscan.
        destruct (find_spec w p) as [[package_spec|]|e]; [| |discriminate Hscan].
        + destruct (first_location package_spec) as [package_path|e];
            [|discriminate Hscan].
          destruct (_find_methods_in_package _ _ _ _ _ _ log) as [[found|e] log2];
            [|discriminate Hscan].
          destruct (limit_reached (methods ++ found) expected_num) eqn:Hlim.
          * unfold st_ret in Hscan. injection Hscan as Hnil Hlog.
            rewrite Hnil in Hlim. exact Hlim.
          * eapply IH. exact Hscan.
        + simpl in Hscan. eapply IH. exact Hscan. }
    unfold limit_reached in Hlim.
    apply andb_prop in Hlim. destruct Hlim as [Hge Hne].
    apply negb_true_iff, Z.eqb_neq in Hne. apply Z.geb_le in Hge.
    simpl in Hge. lia.
Qed.

Lemma find_method_in_packages_empty_is_logged_witness :
  exists log1,
    ["Package numpy not found";
     "Error: Method dot cannot be located in known packages."]
    = log1 ++ [not_located "dot"].
Proof.
  apply (find_method_in_packages_empty_is_logged empty_world ["numpy"] "dot" None
           (-1) []).
  - right. reflexivity.
  - reflexivity.
Defined.

End FinderMore.

(** ** util/methods.py: limits and parse failures *)

Section LimitMore.
Import py methods examples.

(** [pkg] holds three matches; a limit of 2 returns all three, within the
    bound 3 * 2 - 2. *)
Lemma find_method_in_packages_bound_witness :
  exists methods,
    find_method_in_packages two_files_world ["pkg"] "*" None 2 [] = (Ok methods, [])
    /\ Z.of_nat (length methods) <= 3 * 2 - 2.
Proof.
  eexists. split; [reflexivity|].
  apply (find_method_in_packages_bound two_files_world "*" None 2 ltac:(lia)
           ["pkg"] [] []).
  reflexivity.
Defined.

Lemma scan_files_parse_failure_witness :
  scan_files broken_world "pkg" "*" None (-1) "/site/pkg"
    ["broken.py"; "circles.py"] [] []
  = (Raise TypeError, [] ++ ["Error parsing file " +:+ path_join "/site/pkg" "broken.py"]).
Proof.
  apply (scan_files_parse_failure broken_world "pkg" "*" None (-1) "/site/pkg"
           "broken.py" ["circles.py"] [] [] SyntaxError).
  - reflexivity.
  - reflexivity.
  - left. reflexivity.
Defined.

End LimitMore.

(** ** toolspec.py *)

Section ToolSpecMore.
Import py toolspec toolspec.docstring_parser toolspec_words toolspec_more.

(** With a [properties] layer, [create_from_schema_json] reads the
    parameters from it alone: the other entries of [parameters], such as
    [type] and [required], are not taken for parameters.  Name and
    description are taken from the spec, "" when missing, and the required
    list as it stands, the empty list when missing. *)
Theorem create_from_schema_json_with_properties (function_spec : json)
    (fs params props : dict) (self : ToolSpec) :
  unwrap_function function_spec = Ok (JDict fs) ->
  dict_get (KStr "parameters") fs = Some (JDict params) ->
  dict_get (KStr "properties") params = Some (JDict props) ->
  Forall (fun kv => is_dict kv.2) props ->
  create_from_schema_json function_spec self
  = (Ok tt,
     mkToolSpec (default (JStr "") (dict_get (KStr "name") fs))
       (default (JStr "") (dict_get (KStr "description") fs))
       (dict_update (param_props self)
          (map (fun kv => (kv.1, defaulted_param_obj kv.2)) props))
       (default (JList []) (dict_get (KStr "required") params))).
Proof.
  intros Hunwrap Hparams Hprops Hdict.
  unfold create_from_schema_json, st_bind, st_lift, set_name, set_description,
    set_required, st_modify.
  rewrite Hunwrap. simpl. rewrite Hparams. simpl. rewrite Hprops. simpl.
  rewrite (schema_params_loop_ok props _ Hdict). simpl.
  destruct (dict_get (KStr "name") fs), (dict_get (KStr "description") fs),
    (dict_get (KStr "required") params); reflexivity.
Qed.

Lemma create_from_schema_json_with_properties_witness :
  create_from_schema_json spec_with_properties empty
  = (Ok tt,
     mkToolSpec (JStr "f") (JStr "d")
       [(KStr "a", JDict [(KStr "type", JStr "int"); (KStr "description", JStr "")]);
        (KStr "b", JDict [(KStr "type", JStr "string");
                          (KStr "description", JStr "")])]
       (JList [JStr "a"])).
Proof.
  apply (create_from_schema_json_with_properties spec_with_properties
           [(KStr "name", JStr "f"); (KStr "description", JStr "d");
            (KStr "parameters",
             JDict [(KStr "type", JStr "object");
                    (KStr "properties",
                     JDict [(KStr "a", JDict [(KStr "type", JStr "int")]);
                            (KStr "b", JDict [])]);
                    (KStr "required", JList [JStr "a"])])]
           [(KStr "type", JStr "object");
            (KStr "properties",
             JDict [(KStr "a", JDict [(KStr "type", JStr "int")]);
                    (KStr "b", JDict [])]);
            (KStr "required", JList [JStr "a"])]
           [(KStr "a", JDict [(KStr "type", JStr "int")]); (KStr "b", JDict [])]
           empty).
  - reflexivity.
  - reflexivity.
  - reflexivity.
  - repeat constructor; eexists; reflexivity.
Defined.

Lemma schema_params_loop_stops (before after : dict) (k : pykey) (v : json)
    (self : ToolSpec) :
  Forall (fun kv => is_dict kv.2) before ->
  ~ is_dict v ->
  schema_params_loop (before ++ (k, v) :: after) self
  = (Raise AttributeError,
     mkToolSpec (name self) (toolspec.description self)
       (dict_update (param_props self)
          (map (fun kv => (kv.1, defaulted_param_obj kv.2)) before))
       (param_required self)).
Proof.
  intros Hbefore Hv. revert self.
  induction before as [|[k' v'] before IH]; intros self.
  - cbn [app schema_params_loop]. unfold st_bind, st_lift.
    rewrite (schema_param_obj_not_dict v Hv). destruct self; reflexivity.
  - inversion Hbefore as [|? ? Hv' Hrest]; subst.
    cbn [app schema_params_loop]. unfold st_bind at 1, st_lift.
    rewrite (schema_param_obj_dict v' Hv').
    unfold st_bind at 1. cbn [set_param st_modify].
    rewrite (IH Hrest). reflexivity.
Qed.

(** A populate call that fails leaves the object half written: when an
    entry of the properties map is not a mapping, [create_from_schema_json]
    raises [AttributeError] with the entries ahead of it recorded, the later
    ones not, and the required list of before the call still in place. *)
Theorem create_from_schema_json_stops_at_bad_entry (function_spec : json)
    (before after : dict) (k : pykey) (v : json) (self : ToolSpec) :
  schema_properties function_spec = Ok (before ++ (k, v) :: after) ->
  Forall (fun kv => is_dict kv.2) before ->
  ~ is_dict v ->
  exists self',
    create_from_schema_json function_spec self = (Raise AttributeError, self')
    /\ param_props self'
       = dict_update (param_props self)
           (map (fun kv => (kv.1, defaulted_param_obj kv.2)) before)
    /\ param_required self' = param_required self.
Proof.
  intros Hprops Hbefore Hv.
  unfold schema_properties, schema_parameters in Hprops.
  unfold create_from_schema_json, st_bind, st_lift, set_name, set_description,
    set_required, st_modify.
  destruct (unwrap_function function_spec) as [f|e]; [|discriminate Hprops].
  cbn [bind] in Hprops.
  destruct (get f "parameters" (JDict [])) as [ps|e] eqn:Hps; [|discriminate Hprops].
  cbn [bind] in Hprops.
  destruct (get ps "properties" ps) as [pp|e]; [|discriminate Hprops].
  cbn [bind] in Hprops. rewrite Hprops.
  assert (exists n d, get f "name" (JStr "") = Ok n
                      /\ get f "description" (JStr "") = Ok d) as (n & d & -> & ->).
  { destruct f; try discriminate Hps. simpl. eexists _, _. split; reflexivity. }
  rewrite (schema_params_loop_stops before after k v _ Hbefore Hv).
  eexists. split; [reflexivity|]. split; reflexivity.
Qed.

Lemma create_from_schema_json_stops_at_bad_entry_witness :
  exists self',
    create_from_schema_json spec_with_string_entry populated
    = (Raise AttributeError, self')
    /\ param_props self'
       = [(KStr "x", JDict [(KStr "type", JStr "int"); (KStr "description", JStr "")]);
          (KStr "a", JDict [(KStr "type", JStr "string");
                            (KStr "description", JStr "")])]
    /\ param_required self' = JList [JStr "x"].
Proof.
  apply (create_from_schema_json_stops_at_bad_entry spec_with_string_entry
           [(KStr "a", JDict [])] [(KStr "c", JDict [])] (KStr "b") (JStr "int")
           populated).
  - reflexivity.
  - repeat constructor. eexists. reflexivity.
  - intros [d Hd]. discriminate Hd.
Defined.

Lemma defaulted_param_obj_shape (v : json) :
  param_obj_shape v -> defaulted_param_obj v = v.
Proof. intros (type & description & ->). reflexivity. Qed.

(** Round trip: what [get_spec_dict] emits, with or without the [function]
    envelope, populates an empty [ToolSpec] with the fields it was read
    from, when the recorded parameters have distinct names and the shape
    that the populate calls give them. *)
Theorem get_spec_dict_round_trip (function_tag : bool) (self start : ToolSpec) :
  param_props start = [] ->
  NoDup (dict_keys (param_props self)) ->
  Forall (fun kv => param_obj_shape kv.2) (param_props self) ->
  create_from_schema_json (get_spec_dict function_tag self) start = (Ok tt, self).
Proof.
  intros Hstart Hnd Hshape.
  assert (Forall (fun kv => is_dict kv.2) (param_props self)) as Hdict.
  { eapply Forall_impl; [exact Hshape|].
    intros kv (type & description & ->). eexists. reflexivity. }
  assert (map (fun kv => (kv.1, defaulted_param_obj kv.2)) (param_props self)
          = param_props self) as Hmap.
  { clear Hnd Hdict. induction Hshape as [|[k v] l Hv _ IH]; [reflexivity|].
    simpl in *. rewrite (defaulted_param_obj_shape v Hv), IH. reflexivity. }
  unfold create_from_schema_json, st_bind, st_lift, set_name, set_description,
    set_required, st_modify.
  destruct function_tag; simpl;
    rewrite (schema_params_loop_ok (param_props self) _ Hdict); simpl;
    rewrite Hstart, Hmap, dict_update_fresh by exact Hnd;
    destruct self; reflexivity.
Qed.

Lemma get_spec_dict_round_trip_witness :
  create_from_schema_json (get_spec_dict true populated) empty = (Ok tt, populated)
  /\ create_from_schema_json (get_spec_dict false populated) empty
     = (Ok tt, populated).
Proof.
  split; apply get_spec_dict_round_trip;
    first [ reflexivity
          | compute_done
          | repeat constructor; eexists _, _; reflexivity ].
Defined.

Lemma docstring_params_loop_stops (before after : list DocstringParam)
    (p : DocstringParam) (self : ToolSpec) (required : list json) :
  param_required self = JList required ->
  Forall described before ->
  marked_optional p = false ->
  docstring_parser.description p = None ->
  docstring_params_loop (before ++ p :: after) self
  = (Raise TypeError,
     mkToolSpec (name self) (toolspec.description self)
       (dict_update (param_props self)
          (map (fun q => (param_key q, docstring_param_obj q)) (before ++ [p])))
       (JList (required ++
               map (fun q => JStr (arg_name q)) (List.filter listed_required before)))).
Proof.
  intros Hreq Hdesc Hopt Hnone. revert self required Hreq.
  induction before as [|q before IH]; intros self required Hreq.
  - cbn [app docstring_params_loop]. unfold st_bind at 1. cbn [set_param st_modify].
    unfold st_bind at 1, st_lift.
    assert (is_required p = Raise TypeError) as ->.
    { unfold is_required. unfold marked_optional in Hopt. rewrite Hnone.
      destruct (is_optional p) as [[]|]; [discriminate Hopt | reflexivity
                                          | reflexivity]. }
    simpl. rewrite app_nil_r, <- Hreq. reflexivity.
  - inversion Hdesc as [|? ? Hq Hrest]; subst.
    cbn [app docstring_params_loop]. unfold st_bind at 1. cbn [set_param st_modify].
    unfold st_bind at 1, st_lift. rewrite (is_required_described q Hq).
    cbn [List.filter map]. destruct (listed_required q).
    + unfold st_bind at 1, append_required. cbn [param_required].
      rewrite Hreq. cbn [set_required st_modify name toolspec.description
                           param_props param_required].
      rewrite (IH Hrest _ (required ++ [JStr (arg_name q)])); [|reflexivity].
      cbn [name toolspec.description param_props param_required map].
      rewrite <- app_assoc. reflexivity.
    + unfold st_bind at 1, st_ret.
      rewrite (IH Hrest _ required); [|exact Hreq]. reflexivity.
Qed.

(** A declared parameter that has no description text and is not marked
    optional stops [create_from_docstring] with [TypeError]: the membership
    test is applied to [None].  The parameter is recorded in [param_props]
    by then, but not as required, and the parameters declared after it are
    not recorded at all. *)
Theorem create_from_docstring_without_description
    (parse : option string -> Res Docstring) (name : string)
    (docstring : option string) (doc_dict : Docstring)
    (before after : list DocstringParam) (p : DocstringParam) (self : ToolSpec)
    (required : list json) :
  parse docstring = Ok doc_dict ->
  params doc_dict = before ++ p :: after ->
  Forall described before ->
  marked_optional p = false ->
  docstring_parser.description p = None ->
  param_required self = JList required ->
  create_from_docstring parse name docstring self
  = (Raise TypeError,
     mkToolSpec (JStr name) (opt_str (long_description doc_dict))
       (dict_update (param_props self)
          (map (fun q => (param_key q, docstring_param_obj q)) (before ++ [p])))
       (JList (required ++
               map (fun q => JStr (arg_name q)) (List.filter listed_required before)))).
Proof.
  intros Hparse Hsplit Hdesc Hopt Hnone Hreq.
  unfold create_from_docstring. unfold st_bind at 1. cbn [set_name st_modify].
  unfold st_bind at 1, st_lift. rewrite Hparse.
  unfold st_bind at 1. cbn [set_description st_modify]. rewrite Hsplit.
  rewrite (docstring_params_loop_stops before after p _ required);
    [reflexivity | exact Hreq | exact Hdesc | exact Hopt | exact Hnone].
Qed.

(** [path], then [flag] without description, then [mode]: [path] and [flag]
    are recorded, [mode] is not. *)
Lemma create_from_docstring_without_description_witness :
  exists self',
    create_from_docstring (fun _ => Ok bare_docstring) "open" None empty
    = (Raise TypeError, self')
    /\ dict_keys (param_props self') = [KStr "path"; KStr "flag"]
    /\ param_required self' = JList [JStr "path"].
Proof.
  eexists. split.
  - apply (create_from_docstring_without_description (fun _ => Ok bare_docstring)
             "open" None bare_docstring [path_param] [mode_param] bare_param empty []);
      [reflexivity | reflexivity | | reflexivity | reflexivity | reflexivity].
    constructor; [right; eexists; reflexivity | constructor].
  - split; reflexivity.
Defined.

End ToolSpecMore.

(** ** spec.py: openapi_to_requests *)

Section SpecMore.
Import py spec spec_words spec_more spec_declared text_words.
Context `{text.Unicode}.
Variables (str_of : json -> string) (replace_refs : json -> json).

Section Invariant.
(** A property of the output map that storing an operation keeps. *)
Variable Q : dict -> Prop.
Hypothesis store_keeps :
  forall servers_urls path params_common_list method spec_with_ref entry functions,
    operation str_of replace_refs servers_urls path params_common_list method
      spec_with_ref = Ok entry ->
    Q functions -> Q (dict_set entry.1 entry.2 functions).

Lemma methods_loop_keeps (servers_urls : list json) (path : pykey) (todo : dict)
    (params_common_list : json) (functions functions' : dict) :
  Q functions ->
  methods_loop str_of replace_refs servers_urls path todo params_common_list
    functions = Ok functions' ->
  Q functions'.
Proof.
  revert params_common_list functions.
  induction todo as [|[method spec_with_ref] todo IH];
    intros params_common_list functions HQ Hrun.
  - injection Hrun as <-. exact HQ.
  - cbn [methods_loop] in Hrun.
    destruct (bool_decide (method = KStr "parameters")).
    + eapply IH; eassumption.
    + bind_inv Hrun. eapply IH; [|exact Hrun].
      eapply store_keeps; eassumption.
Qed.

Lemma paths_loop_keeps (servers_urls : list json) (todo functions functions' : dict) :
  Q functions ->
  paths_loop str_of replace_refs servers_urls todo functions = Ok functions' ->
  Q functions'.
Proof.
  revert functions. induction todo as [|[path path_methods] todo IH];
    intros functions HQ Hrun.
  - injection Hrun as <-. exact HQ.
  - cbn [paths_loop] in Hrun. bind_inv Hrun.
    eapply IH; [|exact Hrun]. eapply methods_loop_keeps; eassumption.
Qed.

Lemma openapi_to_requests_keeps (openapi_spec : json) (functions : dict) :
  Q [] ->
  openapi_to_requests str_of replace_refs openapi_spec = Ok functions ->
  Q functions.
Proof.
  unfold openapi_to_requests. intros HQ Hrun. bind_inv Hrun.
  eapply paths_loop_keeps; eassumption.
Qed.

End Invariant.

Lemma dict_set_forall (P : pykey * json -> Prop) (k : pykey) (v : json) (d : dict) :
  P (k, v) -> Forall P d -> Forall P (dict_set k v d).
Proof.
  intros Hkv Hd. induction Hd as [|[k' v'] d Hh Ht IH]; simpl.
  - constructor; [exact Hkv | constructor].
  - destruct (decide (k' = k)); constructor; assumption.
Qed.

Lemma dict_set_keys (k : pykey) (v : json) (d : dict) (k0 : pykey) :
  In k0 (dict_keys (dict_set k v d)) -> k0 = k \/ In k0 (dict_keys d).
Proof.
  unfold dict_keys. intros Hin. apply in_map_iff in Hin.
  destruct Hin as ([k1 v1] & Hk & Hin). simpl in Hk. subst k1.
  apply dict_set_in in Hin. destruct Hin as [Heq|Hin].
  - left. congruence.
  - right. apply in_map_iff. exists (k0, v1). split; [reflexivity | exact Hin].
Qed.

Lemma dict_set_keys_nodup (k : pykey) (v : json) (d : dict) :
  NoDup (dict_keys d) -> NoDup (dict_keys (dict_set k v d)).
Proof.
  induction d as [|[k' v'] d IH]; intros Hnd.
  - apply NoDup_singleton.
  - change (dict_keys ((k', v') :: d)) with (k' :: dict_keys d) in Hnd.
    apply NoDup_cons in Hnd. destruct Hnd as [Hnotin Hrest].
    cbn [dict_set]. destruct (decide (k' = k)) as [Heq|Hne].
    + change (NoDup (k :: dict_keys d)). subst k'.
      apply NoDup_cons. split; assumption.
    + change (NoDup (k' :: dict_keys (dict_set k v d))).
      apply NoDup_cons. split; [|apply IH, Hrest].
      intros Hin. apply list_elem_of_In, dict_set_keys in Hin.
      destruct Hin as [Heq|Hin]; [congruence|].
      apply Hnotin, list_elem_of_In, Hin.
Qed.

Lemma openapi_keys_safe_helper (openapi_spec : json) (functions : dict) :
  openapi_to_requests str_of replace_refs openapi_spec = Ok functions ->
  Forall safe_key functions.
Proof.
  apply (openapi_to_requests_keeps (Forall safe_key)); [|constructor].
  intros servers_urls path params_common_list method spec_with_ref entry functions0
    Hop Hall.
  apply dict_set_forall; [|exact Hall].
  unfold operation in Hop. cbv zeta in Hop. bind_inv Hop. injection Hop as <-.
  match goal with
  | Hn : text.normalize_string ?v = Ok ?r, Hk : to_key ?r = Ok ?k |- _ =>
      destruct v; try discriminate Hn; injection Hn as <-; injection Hk as <-
  end.
  eexists. split; [reflexivity|]. split.
  - apply normalize_str_start.
  - apply sub_nonword_fixed_iff, normalize_str_fix.
Qed.

(** Every key of the map that [openapi_to_requests] returns is a string
    that is safe as a file name: it starts with an ASCII letter or an
    underscore and holds letters, digits and underscores only. *)
Theorem openapi_keys_identifier_safe (openapi_spec : json) (functions : dict) :
  openapi_to_requests str_of replace_refs openapi_spec = Ok functions ->
  Forall safe_key functions.
Proof. apply openapi_keys_safe_helper. Qed.


(** The map that [openapi_to_requests] returns has one entry per key, and
    every key is that of an operation of the document.  Of the operations,
    taken in the order of the document, whose identifiers are equal after
    normalisation, the last one gives the function spec found under their
    key. *)
Theorem openapi_keys_distinct (openapi_spec : json) (functions : dict) :
  openapi_to_requests str_of replace_refs openapi_spec = Ok functions ->
  NoDup (dict_keys functions)
  /\ exists entries,
       openapi_entries str_of replace_refs openapi_spec = Ok entries
       /\ (forall key, In key (dict_keys functions) -> In key (dict_keys entries))
       /\ forall before key function after,
            entries = before ++ (key, function) :: after ->
            ~ In key (dict_keys after) ->
            dict_get key functions = Some function.
Proof.
  intros Hrun. split.
  - revert Hrun.
    apply (openapi_to_requests_keeps (fun d => NoDup (dict_keys d)));
      [|apply NoDup_nil_2].
    intros servers_urls path params_common_list method spec_with_ref entry
      functions0 _ Hnd.
    apply dict_set_keys_nodup, Hnd.
  - rewrite openapi_to_requests_entries in Hrun.
    destruct (openapi_entries str_of replace_refs openapi_spec) as [entries|e];
      [|discriminate Hrun].
    injection Hrun as <-. exists entries. split; [reflexivity|]. split.
    + intros key Hkey. unfold dict_keys in *. apply in_map_iff in Hkey.
      destruct Hkey as ([k f] & Hk & Hin). simpl in Hk. subst k.
      apply dict_update_in in Hin. destruct Hin as [[]|Hin].
      apply in_map_iff. exists (key, f). split; [reflexivity | exact Hin].
    + intros before key function after -> Hlast.
      apply dict_update_get_last. exact Hlast.
Qed.

(** The [parameters] entry of a path is shared with the operations listed
    after it, and with none listed before it: these are converted with what
    was shared until then, nothing at the start of a path. *)
Theorem methods_loop_parameters_entry (servers_urls : list json) (path : pykey)
    (before after : dict) (shared params_common_list : json) (functions : dict) :
  methods_loop str_of replace_refs servers_urls path
    (before ++ (KStr "parameters", shared) :: after) params_common_list functions
  = (functions <- methods_loop str_of replace_refs servers_urls path before
                    params_common_list functions;;
     methods_loop str_of replace_refs servers_urls path after shared functions).
Proof.
  revert params_common_list functions.
  induction before as [|[method spec_with_ref] before IH];
    intros params_common_list functions.
  - reflexivity.
  - cbn [app methods_loop]. destruct (bool_decide (method = KStr "parameters")).
    + apply IH.
    + destruct (operation _ _ _ _ _ _ _) as [entry|e]; cbn [bind];
        [apply IH | reflexivity].
Qed.

Lemma params_in_other (location : string) (key : pykey) (todo : list json)
    (acc d : dict) :
  Forall (fun param => ~ located location key param) todo ->
  params_in location todo acc = Ok d ->
  dict_get key d = dict_get key acc.
Proof.
  revert acc. induction todo as [|param todo IH]; intros acc Hnone Hrun.
  - injection Hrun as <-. reflexivity.
  - inversion Hnone as [|? ? Hparam Hrest]; subst.
    cbn [params_in] in Hrun.
    destruct (getitem param "in") as [where_|e] eqn:Hin; [|discriminate Hrun].
    cbn [bind] in Hrun. destruct (eq_str where_ location) eqn:Hloc.
    + destruct (getitem param "name") as [name|e] eqn:Hname; [|discriminate Hrun].
      cbn [bind] in Hrun.
      destruct (param_schema param) as [schema|e]; [|discriminate Hrun].
      cbn [bind] in Hrun.
      destruct (to_key name) as [k|e] eqn:Hkey; [|discriminate Hrun].
      cbn [bind] in Hrun. rewrite (IH _ Hrest Hrun).
      apply dict_get_set_ne. intros ->. apply Hparam.
      exists where_, name. repeat split; assumption.
    + apply (IH _ Hrest Hrun).
Qed.

(** Of several parameters with one name in one location, the last one
    listed gives the schema. *)
Lemma params_in_last_wins (location : string) (key : pykey)
    (before after : list json) (param schema : json) (acc d : dict) :
  params_in location (before ++ param :: after) acc = Ok d ->
  located location key param ->
  param_schema param = Ok schema ->
  Forall (fun later => ~ located location key later) after ->
  dict_get key d = Some schema.
Proof.
  revert acc. induction before as [|first before IH];
    intros acc Hrun Hloc Hschema Hafter.
  - cbn [app params_in] in Hrun.
    destruct Hloc as (where_ & name & Hin & Heq & Hname & Hkey).
    rewrite Hin in Hrun. cbn [bind] in Hrun. rewrite Heq, Hname in Hrun.
    cbn [bind] in Hrun. rewrite Hschema in Hrun. cbn [bind] in Hrun.
    rewrite Hkey in Hrun. cbn [bind] in Hrun.
    rewrite (params_in_other location key after _ d Hafter Hrun).
    apply dict_get_set_eq.
  - cbn [app params_in] in Hrun.
    destruct (getitem first "in") as [where_|e]; [|discriminate Hrun].
    cbn [bind] in Hrun. destruct (eq_str where_ location).
    + bind_inv Hrun. eapply IH; eassumption.
    + eapply IH; eassumption.
Qed.

(** When [headers] and [params] of an operation are built, the parameters
    shared by the path are listed ahead of the operation's own, and of
    several parameters with one name in one location the last one listed
    gives the schema: a parameter of the operation overrides the shared
    parameter of that name, and a shared parameter is used when none listed
    after it has its name and location. *)
Theorem operation_parameter_last_wins (servers_urls : list json)
    (path method : pykey) (shared own before after : list json)
    (spec_with_ref param schema : json) (location field : string) (key : pykey)
    (entry : pykey * json) :
  operation str_of replace_refs servers_urls path (JList shared) method
    spec_with_ref = Ok entry ->
  get (replace_refs spec_with_ref) "parameters" (JList []) = Ok (JList own) ->
  shared ++ own = before ++ param :: after ->
  (location, field) = ("header", "headers")
  \/ (location, field) = ("query", "params") ->
  located location key param ->
  param_schema param = Ok schema ->
  Forall (fun later => ~ located location key later) after ->
  exists d,
    at_path ["parameters"; "properties"; field] entry.2 = Some (JDict d)
    /\ dict_get key d = Some schema.
Proof.
  intros Hop Hown Hsplit Hfield Hloc Hschema Hafter.
  unfold operation in Hop. cbv zeta in Hop. bind_inv Hop. injection Hop as <-.
  match goal with
  | Hall : all_params _ _ = Ok ?l |- _ =>
      unfold all_params in Hall; rewrite Hown in Hall; cbn [bind add iter] in Hall;
      injection Hall as <-
  end.
  rewrite Hsplit in *.
  destruct Hfield as [Hfield|Hfield]; injection Hfield as -> ->;
    (eexists; split; [reflexivity|]);
    eapply params_in_last_wins; eassumption.
Qed.


End SpecMore.

Section SpecMoreExamples.
Import py spec spec_words spec_more spec_declared.

Lemma openapi_keys_identifier_safe_witness :
  Forall (safe_key (H := ascii_tables)) [(KStr "get_item", get_item_function)].
Proof.
  apply (openapi_keys_identifier_safe (H := ascii_tables) no_str no_refs items_doc).
  reflexivity.
Defined.


(** [list items] of the GET operation and [list-items] of the POST
    operation after it are both stored under [list_items]: the map has one
    entry, that of the POST operation. *)
Lemma openapi_keys_distinct_witness :
  exists get_function post_function,
    openapi_entries (H := ascii_tables) no_str no_refs doc_same_ids
    = Ok [(KStr "list_items", get_function); (KStr "list_items", post_function)]
    /\ at_path ["name"] get_function = Some (JStr "requests.get")
    /\ at_path ["name"] post_function = Some (JStr "requests.post")
    /\ openapi_to_requests (H := ascii_tables) no_str no_refs doc_same_ids
       = Ok [(KStr "list_items", post_function)]
    /\ dict_get (KStr "list_items") [(KStr "list_items", post_function)]
       = Some post_function.
Proof.
  eexists _, _. split; [reflexivity|]. split; [reflexivity|].
  split; [reflexivity|]. split; [reflexivity|].
  destruct (openapi_keys_distinct (H := ascii_tables) no_str no_refs doc_same_ids
              _ eq_refl) as (_ & entries & Hentries & _ & Hlast).
  vm_compute in Hentries. injection Hentries as <-.
  apply (Hlast [_] _ _ [] eq_refl). intros [].
Defined.

(** The integer [X-Key] shared by the path gives way to the string [X-Key]
    of the operation. *)
Lemma operation_parameter_last_wins_witness :
  exists entry d,
    operation (H := ascii_tables) no_str no_refs [JStr "https://api.example.com"]
      (KStr "/items") (JList [shared_key_param]) (KStr "get") own_key_operation
    = Ok entry
    /\ at_path ["parameters"; "properties"; "headers"] entry.2 = Some (JDict d)
    /\ dict_get (KStr "X-Key") d
       = Some (JDict [(KStr "type", JStr "string");
                      (KStr "description", JStr "The API key.")]).
Proof.
  destruct (operation_parameter_last_wins (H := ascii_tables) no_str no_refs
              [JStr "https://api.example.com"] (KStr "/items") (KStr "get")
              [shared_key_param] [own_key_param] [shared_key_param] []
              own_key_operation own_key_param
              (JDict [(KStr "type", JStr "string");
                      (KStr "description", JStr "The API key.")])
              "header" "headers" (KStr "X-Key") _ eq_refl eq_refl eq_refl
              (or_introl eq_refl))
    as (d & Hd & Hkey).
  - exists (JStr "header"), (JStr "X-Key"). repeat split; reflexivity.
  - reflexivity.
  - constructor.
  - eexists _, d. split; [reflexivity|]. split; [exact Hd | exact Hkey].
Defined.


End SpecMoreExamples.

(** ** spec.py: modules_to_spec, write_specs and main *)

Section Pipelines.
Import py spec spec_words pipeline_words toolspec.

Lemma docstring_params_loop_name (todo : list docstring_parser.DocstringParam)
    (self self' : ToolSpec) (res : Res unit) :
  docstring_params_loop todo self = (res, self') -> name self' = name self.
Proof.
  revert self. induction todo as [|p todo IH]; intros self Hrun.
  - inversion Hrun; subst. reflexivity.
  - cbn [docstring_params_loop] in Hrun.
    unfold st_bind at 1 2, st_lift, set_param, st_modify in Hrun.
    destruct (is_required p) as [[]|e].
    + unfold st_bind at 1, append_required in Hrun. cbn [param_required] in Hrun.
      destruct (param_required self); try (inversion Hrun; subst; reflexivity).
      cbn [set_required st_modify] in Hrun. apply IH in Hrun. exact Hrun.
    + unfold st_bind at 1, st_ret in Hrun. apply IH in Hrun. exact Hrun.
    + inversion Hrun; subst. reflexivity.
Qed.

Lemma create_from_docstring_name
    (parse : option string -> Res docstring_parser.Docstring)
    (method_name : string) (docstring : option string) (self self' : ToolSpec)
    (res : Res unit) :
  create_from_docstring parse method_name docstring self = (res, self') ->
  name self' = JStr method_name.
Proof.
  unfold create_from_docstring, st_bind at 1 2 3, st_lift, set_name,
    set_description, st_modify.
  destruct (parse docstring) as [doc_dict|e]; intros Hrun.
  - apply docstring_params_loop_name in Hrun. exact Hrun.
  - inversion Hrun; subst. reflexivity.
Qed.

Section Modules.
Variables (w : methods.World)
  (parse : option string -> Res docstring_parser.Docstring).

Lemma methods_to_functions_entries (found : list methods.FoundMethod)
    (functions functions' : dict) :
  methods_to_functions parse found functions = Ok functions' ->
  Forall module_entry functions /\ NoDup (dict_keys functions) ->
  Forall module_entry functions' /\ NoDup (dict_keys functions').
Proof.
  revert functions. induction found as [|method found IH]; intros functions Hrun Hinv.
  - injection Hrun as <-. exact Hinv.
  - cbn [methods_to_functions] in Hrun. cbv zeta in Hrun.
    destruct (internal_method (methods.method_name method)) as [[]|e] eqn:Hint;
      [| |discriminate Hrun]; cbn [bind] in Hrun.
    + eapply IH; eassumption.
    + destruct (create_from_docstring parse _ _ empty) as [[[]|e] spec] eqn:Hspec;
        [|discriminate Hrun].
      eapply IH; [exact Hrun|]. destruct Hinv as [Hall Hnd]. split.
      * apply dict_set_forall; [|exact Hall].
        exists (methods.method_name method). split; [reflexivity|].
        split; [exact Hint|]. apply create_from_docstring_name in Hspec.
        simpl. rewrite Hspec. split; reflexivity.
      * apply dict_set_keys_nodup, Hnd.
Qed.

(** The dictionary that [modules_to_spec] returns has one function spec
    per method name, the name of the spec being its key; no method whose
    name starts with an underscore is in it, nor [new_instance]. *)
Theorem modules_to_spec_entries (module_name : string) (class_name : option string)
    (log log' : methods.Log) (functions : dict) :
  modules_to_spec w parse module_name class_name log = (Ok (JDict functions), log') ->
  Forall module_entry functions /\ NoDup (dict_keys functions).
Proof.
  unfold modules_to_spec, st_bind at 1. intros Hrun.
  destruct (methods.find_method_in_packages w [module_name] "*" class_name (-1) log)
    as [[found|e] log1]; [|discriminate Hrun].
  destruct (is_nil found).
  - unfold st_bind, methods.logger_error, st_modify, st_ret in Hrun.
    discriminate Hrun.
  - unfold st_bind, st_lift, st_ret in Hrun.
    destruct (methods_to_functions parse found []) as [fs|e] eqn:Hfs;
      [|discriminate Hrun].
    injection Hrun as <- _. eapply methods_to_functions_entries; [exact Hfs|].
    split; [constructor | apply NoDup_nil_2].
Qed.

End Modules.

Lemma modules_to_spec_entries_witness :
  exists functions,
    modules_to_spec examples.two_files_world plain_parse "pkg" (Some "Circle") []
    = (Ok (JDict functions), [])
    /\ dict_keys functions = [KStr "area"; KStr "perimeter"]
    /\ Forall module_entry functions /\ NoDup (dict_keys functions).
Proof.
  eexists. split; [reflexivity|]. split; [reflexivity|].
  apply (modules_to_spec_entries examples.two_files_world plain_parse "pkg"
           (Some "Circle") [] []).
  reflexivity.
Defined.


Section Writing.
Variables (str_of dumps : json -> string).


End Writing.

Section MainFacts.
Context `{text.Unicode}.
Variables (str_of : json -> string) (replace_refs : json -> json).
Variable w : methods.World.
Variable parse : option string -> Res docstring_parser.Docstring.
Variable dumps : json -> string.
Variable load_openapi : string -> Res json.
Variable path_stem : string -> string.



End MainFacts.



End Pipelines.
